(** * SSAS Com: signal packing and I-PDU scheduling

    A shallow embedding of [infras/communication/Com/Com.c].

    - PDU RAM is one byte-addressed memory; [ptr] fields of signals and
      I-PDUs are addresses into it, so signals that view the same bytes
      alias exactly as they do in C.
    - Objects owned by the caller ([SignalDataPtr], [initPtr], the SDU of a
      [PduInfoType]) are passed by value as their bytes; [None] is the
      null pointer.  Dereferencing a null pointer, or reading or writing
      past the end of an object, is undefined in C and is a fault ([None]
      result) here.
    - The lower layer and the notification callbacks are observed through
      a log of events kept in the state; a callback does not call back
      into the stack.
    - The build has [COM_USE_CAN] and [COM_USE_SIGNAL_UPDATE_BIT]
      defined.
    - Integers that the code only compares, copies and decrements (bit
      positions, sizes, lengths, timers) are natural numbers; the group
      status is a bitmap in [Z]; signal values are 32-bit words in [Z].
    - The bit of a group is [1 << IpduGroupId], a shift of an [int]: it
      is defined for a group id below 31 and a fault from there on.
    - The shell commands are not embedded. *)

From Stdlib Require Import ZArith List Bool Arith Lia.
Import ListNotations.

Local Open Scope Z_scope.

(** ** Platform types *)

Inductive Std_ReturnType : Type := E_OK | E_NOT_OK.

(** Modelled from the spec: the declaration of the signal type enumeration
    (Com_Priv.h) is missing from the sources; the data model of the spec
    lists the kinds S8, U8, S16, U16, S32, U32, UINT8N and GROUP_SIGNAL.
    The last one stands for every value that the [switch] statements of
    Com.c send to their [default] branch. *)
Inductive Com_SignalTypeType : Type :=
| COM_SINT8 | COM_UINT8 | COM_SINT16 | COM_UINT16 | COM_SINT32 | COM_UINT32
| COM_UINT8N | COM_GROUP_SIGNAL.

(** Modelled from the spec: the declaration of the endianness enumeration
    (Com_Priv.h) is missing; the spec gives BIG, LITTLE and OPAQUE. *)
Inductive Com_SignalEndiannessType : Type := BIG | LITTLE | OPAQUE.

(** Modelled from the spec: the configuration macros (Com_Cfg.h) are
    missing; the spec describes the build in which the CAN transmission
    and the update bits are compiled in. *)
Definition COM_USE_CAN : bool := true.
Definition COM_USE_SIGNAL_UPDATE_BIT : bool := true.

(** ** Memory *)

(** PDU RAM: address to [uint8_t] cell. *)
Definition ram : Type := nat -> Z.

(** A pointer to an object of the caller, by value: the bytes of the
    object, or [None] for [NULL]. *)
Definition cptr : Type := option (list Z).

Definition upd (m : ram) (a : nat) (v : Z) : ram :=
  fun x => if Nat.eqb x a then v else m x.

Definition read_bytes (m : ram) (a n : nat) : list Z := map m (seq a n).

Definition write_bytes (m : ram) (a : nat) (bs : list Z) : ram :=
  fun x => if (Nat.leb a x && Nat.ltb x (a + length bs))%bool
           then nth (x - a) bs 0 else m x.

(** [memcpy(ram + dst, src, n)] *)
Definition memcpy_to_ram (m : ram) (dst : nat) (src : cptr) (n : nat)
  : option ram :=
  match src with
  | None => None
  | Some bs =>
      if Nat.ltb (length bs) n then None
      else Some (write_bytes m dst (firstn n bs))
  end.

(** [memcpy(dst, ram + src, n)] *)
Definition memcpy_from_ram (dst : cptr) (m : ram) (src : nat) (n : nat)
  : option (list Z) :=
  match dst with
  | None => None
  | Some bs =>
      if Nat.ltb (length bs) n then None
      else Some (read_bytes m src n ++ skipn n bs)
  end.

(** ** Std_Bit.h *)

(** Modelled from the spec: Std_Bit.h is missing.  "Single-bit
    get/set/clear for update bits, indexed LSB-first within each byte." *)
Definition Std_BitGet (m : ram) (ptr pos : nat) : bool :=
  Z.testbit (m (ptr + pos / 8)%nat) (Z.of_nat (pos mod 8)).

Definition Std_BitSet (m : ram) (ptr pos : nat) : ram :=
  let a := (ptr + pos / 8)%nat in
  upd m a (Z.lor (m a) (Z.shiftl 1 (Z.of_nat (pos mod 8)))).

Definition Std_BitClear (m : ram) (ptr pos : nat) : ram :=
  let a := (ptr + pos / 8)%nat in
  upd m a (Z.land (m a) (Z.lnot (Z.shiftl 1 (Z.of_nat (pos mod 8))))).

Definition Std_BitWrite (m : ram) (ptr pos : nat) (b : bool) : ram :=
  if b then Std_BitSet m ptr pos else Std_BitClear m ptr pos.

(** Modelled from the spec: Std_Bit.h is missing.  "Little-endian field.
    Bits are numbered such that bit k of the field lies at bit
    (start_bit + k) counted LSB-first across the byte stream." *)
Fixpoint Std_BitGetLittleEndian (m : ram) (ptr start width : nat) : Z :=
  match width with
  | O => 0
  | S w =>
      Z.b2z (Std_BitGet m ptr start)
      + 2 * Std_BitGetLittleEndian m ptr (S start) w
  end.

Fixpoint Std_BitSetLittleEndian (m : ram) (ptr : nat) (v : Z)
         (start width : nat) : ram :=
  match width with
  | O => m
  | S w =>
      Std_BitSetLittleEndian (Std_BitWrite m ptr start (Z.odd v))
                             ptr (Z.div2 v) (S start) w
  end.

(** Modelled from the spec: Std_Bit.h is missing.  "Big-endian field.
    Starting bit is an MSB-numbered position within a byte (bit 7 is MSB).
    Reading proceeds by taking the top bit at start, then progressively
    lower bits, wrapping into the next byte when the current byte's LSB is
    consumed." *)
Definition be_next (pos : nat) : nat :=
  if Nat.eqb (pos mod 8) 0 then (pos + 15)%nat else (pos - 1)%nat.

Fixpoint be_get (m : ram) (ptr pos width : nat) (acc : Z) : Z :=
  match width with
  | O => acc
  | S w => be_get m ptr (be_next pos) w (2 * acc + Z.b2z (Std_BitGet m ptr pos))
  end.

Definition Std_BitGetBigEndian (m : ram) (ptr start width : nat) : Z :=
  be_get m ptr start width 0.

Fixpoint Std_BitSetBigEndian (m : ram) (ptr : nat) (v : Z)
         (pos width : nat) : ram :=
  match width with
  | O => m
  | S w =>
      Std_BitSetBigEndian (Std_BitWrite m ptr pos (Z.testbit v (Z.of_nat w)))
                          ptr v (be_next pos) w
  end.

(** ** Objects of the caller *)

Fixpoint le_bytes (n : nat) (v : Z) : list Z :=
  match n with
  | O => []
  | S k => (v mod 256) :: le_bytes k (v / 256)
  end.

Fixpoint le_value (bs : list Z) : Z :=
  match bs with
  | [] => 0
  | b :: t => b + 256 * le_value t
  end.

Section Packer.

(** Byte order of the CPU that runs the stack. *)
Variable CPU_BIG_ENDIAN : bool.

Definition host_bytes (n : nat) (v : Z) : list Z :=
  if CPU_BIG_ENDIAN then rev (le_bytes n v) else le_bytes n v.

Definition host_value (bs : list Z) : Z :=
  if CPU_BIG_ENDIAN then le_value (rev bs) else le_value bs.

(** Reads the [n]-byte unsigned integer behind [p] (a load through a
    pointer cast to [uint8_t], [uint16_t] or [uint32_t]). *)
Definition load_uint (n : nat) (p : cptr) : option Z :=
  match p with
  | None => None
  | Some bs =>
      if Nat.ltb (length bs) n then None
      else Some (host_value (firstn n bs))
  end.

(** Narrows [v] to an [n]-byte integer type and stores it behind [p]: the
    low [8 * n] bits of [v] are stored, for the signed and the unsigned
    type alike. *)
Definition store_int (n : nat) (v : Z) (p : cptr) : option cptr :=
  match p with
  | None => None
  | Some bs =>
      if Nat.ltb (length bs) n then None
      else Some (Some (host_bytes n (v mod 2 ^ (8 * Z.of_nat n)) ++ skipn n bs))
  end.

(** ** Configuration *)

(** Modelled from the spec: the structure declaration (Com_Priv.h) is
    missing; the fields are those that Com.c reads.  The sentinel
    [COM_UPDATE_BIT_NOT_USED] is the [None] of [UpdateBit] ("either a bit
    index in the PDU buffer or the sentinel NONE"). *)
Record Com_SignalConfigType : Type := {
  ptr : nat;
  initPtr : cptr;
  type : Com_SignalTypeType;
  HandleId : nat;
  BitPosition : nat;
  BitSize : nat;
  UpdateBit : option nat;
  Endianness : Com_SignalEndiannessType
}.

Definition is_UINT8N (t : Com_SignalTypeType) : bool :=
  match t with COM_UINT8N => true | _ => false end.

Definition is_OPAQUE (e : Com_SignalEndiannessType) : bool :=
  match e with OPAQUE => true | _ => false end.

(** ** Signal packer *)

Definition uint32_not (v : Z) : Z := Z.lxor v 0xFFFFFFFF.

Definition comStoreSignalValue (signal : Com_SignalConfigType) (sigV : Z)
           (SignalDataPtr : cptr) : option (Std_ReturnType * cptr) :=
  let mask := Z.shiftr 0xFFFFFFFF (32 - Z.of_nat (BitSize signal)) in
  let sigV := Z.land sigV mask in
  let signmask := uint32_not (Z.shiftr mask 1) in
  let signed :=
    if Z.eqb (Z.land sigV signmask) 0 then sigV else Z.lor sigV signmask in
  match type signal with
  | COM_SINT8 =>
      match store_int 1 signed SignalDataPtr with
      | Some p => Some (E_OK, p) | None => None end
  | COM_UINT8 =>
      match store_int 1 sigV SignalDataPtr with
      | Some p => Some (E_OK, p) | None => None end
  | COM_SINT16 =>
      match store_int 2 signed SignalDataPtr with
      | Some p => Some (E_OK, p) | None => None end
  | COM_UINT16 =>
      match store_int 2 sigV SignalDataPtr with
      | Some p => Some (E_OK, p) | None => None end
  | COM_SINT32 =>
      match store_int 4 signed SignalDataPtr with
      | Some p => Some (E_OK, p) | None => None end
  | COM_UINT32 =>
      match store_int 4 sigV SignalDataPtr with
      | Some p => Some (E_OK, p) | None => None end
  | _ => Some (E_NOT_OK, SignalDataPtr)
  end.

(** The second component is [*sigV] after the call; the caller's variable
    is uninitialised before it and is read only after [E_OK]. *)
Definition comGetSignalValue (signal : Com_SignalConfigType)
           (SignalDataPtr : cptr) : option (Std_ReturnType * Z) :=
  match type signal with
  | COM_SINT8 | COM_UINT8 =>
      match load_uint 1 SignalDataPtr with
      | Some v => Some (E_OK, v) | None => None end
  | COM_SINT16 | COM_UINT16 =>
      match load_uint 2 SignalDataPtr with
      | Some v => Some (E_OK, v) | None => None end
  | COM_SINT32 | COM_UINT32 =>
      match load_uint 4 SignalDataPtr with
      | Some v => Some (E_OK, v) | None => None end
  | _ => Some (E_NOT_OK, 0)
  end.

Definition comReceiveSignalBig (signal : Com_SignalConfigType)
           (SignalDataPtr : cptr) (m : ram) : option (Std_ReturnType * cptr) :=
  let sigV :=
    Std_BitGetBigEndian m (ptr signal) (BitPosition signal) (BitSize signal) in
  comStoreSignalValue signal sigV SignalDataPtr.

Definition comSendSignalBig (signal : Com_SignalConfigType)
           (SignalDataPtr : cptr) (m : ram) : option (Std_ReturnType * ram) :=
  match comGetSignalValue signal SignalDataPtr with
  | None => None
  | Some (E_OK, sigV) =>
      Some (E_OK, Std_BitSetBigEndian m (ptr signal) sigV
                    (BitPosition signal) (BitSize signal))
  | Some (E_NOT_OK, _) => Some (E_NOT_OK, m)
  end.

Definition comReceiveSignalLittle (signal : Com_SignalConfigType)
           (SignalDataPtr : cptr) (m : ram) : option (Std_ReturnType * cptr) :=
  let sigV :=
    Std_BitGetLittleEndian m (ptr signal) (BitPosition signal)
                           (BitSize signal) in
  comStoreSignalValue signal sigV SignalDataPtr.

Definition comSendSignalLittle (signal : Com_SignalConfigType)
           (SignalDataPtr : cptr) (m : ram) : option (Std_ReturnType * ram) :=
  match comGetSignalValue signal SignalDataPtr with
  | None => None
  | Some (E_OK, sigV) =>
      Some (E_OK, Std_BitSetLittleEndian m (ptr signal) sigV
                    (BitPosition signal) (BitSize signal))
  | Some (E_NOT_OK, _) => Some (E_NOT_OK, m)
  end.

(** The result is the return value, the PDU RAM and the object behind
    [SignalDataPtr] after the call. *)
Definition comReceiveSignal (signal : Com_SignalConfigType)
           (SignalDataPtr : cptr) (m : ram)
  : option (Std_ReturnType * ram * cptr) :=
  let read (m : ram) :=
    if (is_UINT8N (type signal) || is_OPAQUE (Endianness signal))%bool then
      match memcpy_from_ram SignalDataPtr m (ptr signal)
                            (BitSize signal / 8)%nat with
      | Some bs => Some (E_OK, m, Some bs)
      | None => None
      end
    else
      match Endianness signal with
      | BIG =>
          match comReceiveSignalBig signal SignalDataPtr m with
          | Some (ret, p) => Some (ret, m, p) | None => None end
      | LITTLE =>
          match comReceiveSignalLittle signal SignalDataPtr m with
          | Some (ret, p) => Some (ret, m, p) | None => None end
      | OPAQUE => Some (E_NOT_OK, m, SignalDataPtr)
      end in
  match (if COM_USE_SIGNAL_UPDATE_BIT then UpdateBit signal else None) with
  | Some u =>
      if Std_BitGet m (ptr signal) u
      then read (Std_BitClear m (ptr signal) u)
      else Some (E_NOT_OK, m, SignalDataPtr)
  | None => read m
  end.

Definition comSendSignal (signal : Com_SignalConfigType)
           (SignalDataPtr : cptr) (m : ram) : option (Std_ReturnType * ram) :=
  let written :=
    if (is_UINT8N (type signal) || is_OPAQUE (Endianness signal))%bool then
      match memcpy_to_ram m (ptr signal) SignalDataPtr
                          (BitSize signal / 8)%nat with
      | Some m' => Some (E_OK, m')
      | None => None
      end
    else
      match Endianness signal with
      | BIG => comSendSignalBig signal SignalDataPtr m
      | LITTLE => comSendSignalLittle signal SignalDataPtr m
      | OPAQUE => Some (E_NOT_OK, m)
      end in
  match written with
  | None => None
  | Some (ret, m') =>
      match (if COM_USE_SIGNAL_UPDATE_BIT then UpdateBit signal else None) with
      | Some u => Some (ret, Std_BitSet m' (ptr signal) u)
      | None => Some (ret, m')
      end
  end.

End Packer.

(** ** I-PDU configuration and run-time state *)

(** Modelled from the spec: the structure declarations of the I-PDU
    configuration (Com_Priv.h) are missing; the fields are those that
    Com.c reads.  Notification callbacks are nullable function pointers
    ("Optional callbacks are represented as nullable function
    references"); a configured callback is known by a label. *)
Definition Com_CallbackType : Type := nat.

Record Com_IPduRxConfigType : Type := {
  RxNotification : option Com_CallbackType;
  RxTOut : option Com_CallbackType;
  FirstTimeout : nat;
  Timeout : nat
}.

Record Com_IPduTxConfigType : Type := {
  TxNotification : option Com_CallbackType;
  ErrorNotification : option Com_CallbackType;
  FirstTime : nat;
  CycleTime : nat;
  TxPduId : nat
}.

(** [numOfSignals] is the length of [signals]. *)
Record Com_IPduConfigType : Type := {
  IPdu_ptr : nat;
  signals : list Com_SignalConfigType;
  rxConfig : option Com_IPduRxConfigType;
  txConfig : option Com_IPduTxConfigType;
  GroupRefMask : Z;
  IPdu_length : nat
}.

(** [numOfIPdus] and [numOfSignals] are the lengths of the two arrays. *)
Record Com_ConfigType : Type := {
  IPduConfigs : list Com_IPduConfigType;
  SignalConfigs : list Com_SignalConfigType;
  numOfGroups : nat
}.

Definition numOfIPdus (c : Com_ConfigType) : nat := length (IPduConfigs c).
Definition numOfSignals (c : Com_ConfigType) : nat := length (SignalConfigs c).

(** What the lower layer and the application see of the stack. *)
Inductive Com_Event : Type :=
| EvTransmit (pdu : nat) (id : nat) (sdu : list Z) (ret : Std_ReturnType)
| EvRxNotification (pdu : nat) (f : Com_CallbackType)
| EvRxTOut (pdu : nat) (f : Com_CallbackType)
| EvTxNotification (pdu : nat) (f : Com_CallbackType)
| EvErrorNotification (pdu : nat) (f : Com_CallbackType).

(** Modelled from the spec: the context structures (Com_Priv.h) are
    missing.  "ComContext.group_status: bitmap of currently enabled I-PDU
    groups" and "PduRuntime.timer: non-negative integer tick counter, one
    per RX or TX PDU"; timers are indexed by the position of the I-PDU in
    [IPduConfigs].  [trace] logs the events, most recent first. *)
Record Com_State : Type := {
  GroupStatus : Z;
  rxTimer : nat -> nat;
  txTimer : nat -> nat;
  pduRam : ram;
  trace : list Com_Event
}.

Definition set_GroupStatus (s : Com_State) (g : Z) : Com_State :=
  {| GroupStatus := g; rxTimer := rxTimer s; txTimer := txTimer s;
     pduRam := pduRam s; trace := trace s |}.

Definition set_rxTimer (s : Com_State) (i t : nat) : Com_State :=
  {| GroupStatus := GroupStatus s;
     rxTimer := fun j => if Nat.eqb j i then t else rxTimer s j;
     txTimer := txTimer s; pduRam := pduRam s; trace := trace s |}.

Definition set_txTimer (s : Com_State) (i t : nat) : Com_State :=
  {| GroupStatus := GroupStatus s; rxTimer := rxTimer s;
     txTimer := fun j => if Nat.eqb j i then t else txTimer s j;
     pduRam := pduRam s; trace := trace s |}.

Definition set_pduRam (s : Com_State) (m : ram) : Com_State :=
  {| GroupStatus := GroupStatus s; rxTimer := rxTimer s;
     txTimer := txTimer s; pduRam := m; trace := trace s |}.

Definition emit (s : Com_State) (e : Com_Event) : Com_State :=
  {| GroupStatus := GroupStatus s; rxTimer := rxTimer s;
     txTimer := txTimer s; pduRam := pduRam s; trace := e :: trace s |}.

Definition notify (s : Com_State) (cb : option Com_CallbackType)
           (ev : Com_CallbackType -> Com_Event) : Com_State :=
  match cb with
  | Some f => emit s (ev f)
  | None => s
  end.

(** [GroupStatus & GroupRefMask] as a condition *)
Definition group_active (s : Com_State) (p : Com_IPduConfigType) : bool :=
  negb (Z.eqb (Z.land (GroupStatus s) (GroupRefMask p)) 0).

Record PduInfoType : Type := {
  SduDataPtr : cptr;
  SduLength : nat
}.

(** [1 << n] for an [int] of 32 bits: the result is defined when it is
    representable, that is for [n] below 31; otherwise the shift is
    undefined in C, and a fault here. *)
Definition int_shl1 (n : nat) : option Z :=
  if Nat.ltb n 31 then Some (Z.shiftl 1 (Z.of_nat n)) else None.

Section Com.

Variable CPU_BIG_ENDIAN : bool.

(** The lower layer: the result of [PduR_ComTransmit] for a PDU id and an
    SDU, given the events so far. *)
Variable PduR_ComTransmit : list Com_Event -> nat -> list Z -> Std_ReturnType.

Variable COM_CONFIG : Com_ConfigType.

Fixpoint comIPduDataInit_loop (sigs : list Com_SignalConfigType) (m : ram)
  : option ram :=
  match sigs with
  | [] => Some m
  | signal :: rest =>
      match comSendSignal CPU_BIG_ENDIAN signal (initPtr signal) m with
      | Some (_, m') => comIPduDataInit_loop rest m'
      | None => None
      end
  end.

Definition comIPduDataInit (IPduConfig : Com_IPduConfigType) (m : ram)
  : option ram :=
  comIPduDataInit_loop (signals IPduConfig) m.

Fixpoint comTxClearUpdateBit_loop (sigs : list Com_SignalConfigType) (m : ram)
  : ram :=
  match sigs with
  | [] => m
  | signal :: rest =>
      comTxClearUpdateBit_loop rest
        match UpdateBit signal with
        | Some u => Std_BitClear m (ptr signal) u
        | None => m
        end
  end.

Definition comTxClearUpdateBit (IPduConfig : Com_IPduConfigType) (m : ram)
  : ram :=
  comTxClearUpdateBit_loop (signals IPduConfig) m.

Definition Com_Init (s : Com_State) : Com_State := set_GroupStatus s 0.

Definition Com_IpduGroupStart_body (IpduGroupId : nat) (initialize : bool)
           (i : nat) (IPduConfig : Com_IPduConfigType) (s : Com_State)
  : option Com_State :=
  match int_shl1 IpduGroupId with
  | None => None
  | Some bit =>
      if Z.eqb (Z.land (GroupRefMask IPduConfig) bit) 0
      then Some s
      else
        match (if initialize
               then match comIPduDataInit IPduConfig (pduRam s) with
                    | Some m => Some (set_pduRam s m)
                    | None => None
                    end
               else Some s) with
        | None => None
        | Some s1 =>
            match rxConfig IPduConfig, txConfig IPduConfig with
            | Some rx, _ =>
                if Nat.ltb 0 (FirstTimeout rx)
                then Some (set_rxTimer s1 i (FirstTimeout rx))
                else Some (set_rxTimer s1 i (Timeout rx))
            | None, Some tx =>
                if Nat.ltb 0 (FirstTime tx)
                then Some (set_txTimer s1 i (FirstTime tx))
                else Some (set_txTimer s1 i (CycleTime tx))
            | None, None => Some s1
            end
        end
  end.

Fixpoint Com_IpduGroupStart_loop (IpduGroupId : nat) (initialize : bool)
         (pdus : list Com_IPduConfigType) (i : nat) (s : Com_State)
  : option Com_State :=
  match pdus with
  | [] => Some s
  | IPduConfig :: rest =>
      match Com_IpduGroupStart_body IpduGroupId initialize i IPduConfig s with
      | Some s' => Com_IpduGroupStart_loop IpduGroupId initialize rest (S i) s'
      | None => None
      end
  end.

Definition Com_IpduGroupStart (IpduGroupId : nat) (initialize : bool)
           (s : Com_State) : option Com_State :=
  if Nat.ltb IpduGroupId (numOfGroups COM_CONFIG) then
    match int_shl1 IpduGroupId with
    | None => None
    | Some bit =>
        Com_IpduGroupStart_loop IpduGroupId initialize
          (IPduConfigs COM_CONFIG) 0
          (set_GroupStatus s (Z.lor (GroupStatus s) bit))
    end
  else Some s.

Definition Com_IpduGroupStop (IpduGroupId : nat) (s : Com_State)
  : option Com_State :=
  if Nat.ltb IpduGroupId (numOfGroups COM_CONFIG) then
    match int_shl1 IpduGroupId with
    | None => None
    | Some bit =>
        Some (set_GroupStatus s (Z.land (GroupStatus s) (Z.lnot bit)))
    end
  else Some s.

Definition Com_ReceiveSignal (SignalId : nat) (SignalDataPtr : cptr)
           (s : Com_State) : option (Std_ReturnType * Com_State * cptr) :=
  match nth_error (SignalConfigs COM_CONFIG) SignalId, SignalDataPtr with
  | Some signal, Some _ =>
      match comReceiveSignal CPU_BIG_ENDIAN signal SignalDataPtr (pduRam s) with
      | Some (ret, m, p) => Some (ret, set_pduRam s m, p)
      | None => None
      end
  | _, _ => Some (E_NOT_OK, s, SignalDataPtr)
  end.

Definition Com_SendSignal (SignalId : nat) (SignalDataPtr : cptr)
           (s : Com_State) : option (Std_ReturnType * Com_State) :=
  match nth_error (SignalConfigs COM_CONFIG) SignalId with
  | Some signal =>
      match comSendSignal CPU_BIG_ENDIAN signal SignalDataPtr (pduRam s) with
      | Some (ret, m) => Some (ret, set_pduRam s m)
      | None => None
      end
  | None => Some (E_NOT_OK, s)
  end.

(** The shadow buffer of a signal group is the object behind [initPtr];
    [Com_SendSignalGroup] copies it into the PDU RAM. *)
Definition Com_SendSignalGroup (SignalGroupId : nat) (s : Com_State)
  : option (Std_ReturnType * Com_State) :=
  match nth_error (SignalConfigs COM_CONFIG) SignalGroupId with
  | Some signal =>
      if is_UINT8N (type signal) then
        match memcpy_to_ram (pduRam s) (ptr signal) (initPtr signal)
                            (BitSize signal / 8)%nat with
        | Some m => Some (E_OK, set_pduRam s m)
        | None => None
        end
      else Some (E_NOT_OK, s)
  | None => Some (E_NOT_OK, s)
  end.

(** [Com_ReceiveSignalGroup] writes the shadow buffer: the result is the
    return value and the object behind [initPtr] of the signal after the
    call ([None] when there is no such signal). *)
Definition Com_ReceiveSignalGroup (SignalGroupId : nat) (s : Com_State)
  : option (Std_ReturnType * cptr) :=
  match nth_error (SignalConfigs COM_CONFIG) SignalGroupId with
  | Some signal =>
      if is_UINT8N (type signal) then
        match memcpy_from_ram (initPtr signal) (pduRam s) (ptr signal)
                              (BitSize signal / 8)%nat with
        | Some bs => Some (E_OK, Some bs)
        | None => None
        end
      else Some (E_NOT_OK, initPtr signal)
  | None => Some (E_NOT_OK, None)
  end.

(** The transmit request of one I-PDU, shared by the two senders: the SDU
    handed to [PduR_ComTransmit] is the PDU buffer. *)
Definition transmit (i : nat) (IPduConfig : Com_IPduConfigType)
           (tx : Com_IPduTxConfigType) (s : Com_State)
  : Std_ReturnType * Com_State :=
  let sdu := read_bytes (pduRam s) (IPdu_ptr IPduConfig)
                        (IPdu_length IPduConfig) in
  let ret := PduR_ComTransmit (trace s) (TxPduId tx) sdu in
  (ret, emit s (EvTransmit i (TxPduId tx) sdu ret)).

Definition Com_TriggerIPDUSend (PduId : nat) (s : Com_State)
  : Std_ReturnType * Com_State :=
  match nth_error (IPduConfigs COM_CONFIG) PduId with
  | Some IPduConfig =>
      match txConfig IPduConfig with
      | Some tx =>
          if group_active s IPduConfig then
            match transmit PduId IPduConfig tx s with
            | (E_OK, s1) => (E_OK, set_txTimer s1 PduId (CycleTime tx))
            | (E_NOT_OK, s1) => (E_OK, set_txTimer s1 PduId 1)
            end
          else (E_NOT_OK, s)
      | None => (E_NOT_OK, s)
      end
  | None => (E_NOT_OK, s)
  end.

Definition Com_RxIndication (RxPduId : nat) (PduInfoPtr : PduInfoType)
           (s : Com_State) : option Com_State :=
  match nth_error (IPduConfigs COM_CONFIG) RxPduId with
  | Some IPduConfig =>
      match rxConfig IPduConfig with
      | Some rx =>
          if group_active s IPduConfig then
            if Nat.leb (IPdu_length IPduConfig) (SduLength PduInfoPtr) then
              match memcpy_to_ram (pduRam s) (IPdu_ptr IPduConfig)
                                  (SduDataPtr PduInfoPtr)
                                  (IPdu_length IPduConfig) with
              | Some m =>
                  Some (notify (set_rxTimer (set_pduRam s m) RxPduId
                                            (Timeout rx))
                               (RxNotification rx) (EvRxNotification RxPduId))
              | None => None
              end
            else Some s
          else Some s
      | None => Some s
      end
  | None => Some s
  end.

(** The result is the return value, the state and the SDU behind
    [PduInfoPtr->SduDataPtr] after the call. *)
Definition Com_TriggerTransmit (TxPduId : nat) (PduInfoPtr : PduInfoType)
           (s : Com_State) : option (Std_ReturnType * Com_State * cptr) :=
  match nth_error (IPduConfigs COM_CONFIG) TxPduId with
  | Some IPduConfig =>
      if Nat.leb (IPdu_length IPduConfig) (SduLength PduInfoPtr) then
        match memcpy_from_ram (SduDataPtr PduInfoPtr) (pduRam s)
                              (IPdu_ptr IPduConfig)
                              (IPdu_length IPduConfig) with
        | Some bs => Some (E_OK, s, Some bs)
        | None => None
        end
      else Some (E_NOT_OK, s, SduDataPtr PduInfoPtr)
  | None => Some (E_NOT_OK, s, SduDataPtr PduInfoPtr)
  end.

Definition Com_TxConfirmation (TxPduId : nat) (result : Std_ReturnType)
           (s : Com_State) : Com_State :=
  match nth_error (IPduConfigs COM_CONFIG) TxPduId with
  | Some IPduConfig =>
      match txConfig IPduConfig with
      | Some tx =>
          if group_active s IPduConfig then
            match result with
            | E_OK => notify s (TxNotification tx) (EvTxNotification TxPduId)
            | E_NOT_OK =>
                notify s (ErrorNotification tx) (EvErrorNotification TxPduId)
            end
          else s
      | None => s
      end
  | None => s
  end.

Definition Com_MainFunctionRx_body (i : nat) (IPduConfig : Com_IPduConfigType)
           (s : Com_State) : Com_State :=
  match rxConfig IPduConfig with
  | Some rx =>
      if group_active s IPduConfig then
        if Nat.ltb 0 (rxTimer s i) then
          let s1 := set_rxTimer s i (rxTimer s i - 1) in
          if Nat.eqb (rxTimer s1 i) 0
          then notify s1 (RxTOut rx) (EvRxTOut i)
          else s1
        else s
      else s
  | None => s
  end.

Fixpoint Com_MainFunctionRx_loop (pdus : list Com_IPduConfigType) (i : nat)
         (s : Com_State) : Com_State :=
  match pdus with
  | [] => s
  | IPduConfig :: rest =>
      Com_MainFunctionRx_loop rest (S i) (Com_MainFunctionRx_body i IPduConfig s)
  end.

Definition Com_MainFunctionRx (s : Com_State) : Com_State :=
  Com_MainFunctionRx_loop (IPduConfigs COM_CONFIG) 0 s.

Definition Com_MainFunctionTx_body (i : nat) (IPduConfig : Com_IPduConfigType)
           (s : Com_State) : Com_State :=
  match txConfig IPduConfig with
  | Some tx =>
      if group_active s IPduConfig then
        if Nat.ltb 0 (txTimer s i) then
          let s1 := set_txTimer s i (txTimer s i - 1) in
          if Nat.eqb (txTimer s1 i) 0 then
            match transmit i IPduConfig tx s1 with
            | (E_OK, s2) =>
                let s3 := set_txTimer s2 i (CycleTime tx) in
                if COM_USE_SIGNAL_UPDATE_BIT
                then set_pduRam s3 (comTxClearUpdateBit IPduConfig (pduRam s3))
                else s3
            | (E_NOT_OK, s2) => set_txTimer s2 i 1
            end
          else s1
        else s
      else s
  | None => s
  end.

Fixpoint Com_MainFunctionTx_loop (pdus : list Com_IPduConfigType) (i : nat)
         (s : Com_State) : Com_State :=
  match pdus with
  | [] => s
  | IPduConfig :: rest =>
      Com_MainFunctionTx_loop rest (S i) (Com_MainFunctionTx_body i IPduConfig s)
  end.

Definition Com_MainFunctionTx (s : Com_State) : Com_State :=
  if COM_USE_CAN
  then Com_MainFunctionTx_loop (IPduConfigs COM_CONFIG) 0 s
  else s.

Definition Com_MainFunction (s : Com_State) : Com_State :=
  Com_MainFunctionTx (Com_MainFunctionRx s).

End Com.

(** ** Bit addresses *)

(** Absolute index of bit [pos] of the buffer at [ptr], counted LSB-first
    across the bytes of the PDU RAM. *)
Definition abit (ptr pos : nat) : nat := (8 * ptr + pos)%nat.

(** The position of a bit in the order in which a big-endian field visits
    the bits: byte by byte, and from bit 7 down to bit 0 in a byte. *)
Definition be_lin (x : nat) : nat := (8 * (x / 8) + (7 - x mod 8))%nat.

Definition in_field_le (p start width x : nat) : bool :=
  (Nat.leb (abit p start) x && Nat.ltb x (abit p start + width))%bool.

Definition in_field_be (p start width x : nat) : bool :=
  (Nat.leb (be_lin (abit p start)) (be_lin x)
   && Nat.ltb (be_lin x) (be_lin (abit p start) + width))%bool.

(** ** Integer objects *)

(** [sizeof] of the C type behind a scalar signal kind. *)
Definition type_size (t : Com_SignalTypeType) : nat :=
  match t with
  | COM_SINT8 | COM_UINT8 => 1
  | COM_SINT16 | COM_UINT16 => 2
  | COM_SINT32 | COM_UINT32 => 4
  | COM_UINT8N | COM_GROUP_SIGNAL => 0
  end.

Definition is_signed (t : Com_SignalTypeType) : bool :=
  match t with
  | COM_SINT8 | COM_SINT16 | COM_SINT32 => true
  | _ => false
  end.

(** The [n] bytes of an [n]-byte integer variable that holds [x]
    (two's complement). *)
Definition int_rep (CPU_BIG_ENDIAN : bool) (n : nat) (x : Z) : list Z :=
  host_bytes CPU_BIG_ENDIAN n (x mod 2 ^ (8 * Z.of_nat n)).

(** The value of the signed [n]-byte integer variable that starts [bs]. *)
Definition int_val (CPU_BIG_ENDIAN : bool) (n : nat) (bs : list Z) : Z :=
  let u := host_value CPU_BIG_ENDIAN (firstn n bs) in
  if u <? 2 ^ (8 * Z.of_nat n - 1) then u else u - 2 ^ (8 * Z.of_nat n).

(** ** Footprints *)

(** Does the send path of [signal] write the data bit at absolute index
    [x]?  The byte copy covers [BitSize / 8] bytes from [ptr]; a scalar
    kind covers its field; any other kind writes nothing. *)
Definition sig_field (signal : Com_SignalConfigType) (x : nat) : bool :=
  if (is_UINT8N (type signal) || is_OPAQUE (Endianness signal))%bool then
    (Nat.leb (8 * ptr signal) x
     && Nat.ltb x (8 * (ptr signal + BitSize signal / 8)))%bool
  else if Nat.eqb (type_size (type signal)) 0 then false
  else
    match Endianness signal with
    | BIG => in_field_be (ptr signal) (BitPosition signal) (BitSize signal) x
    | LITTLE => in_field_le (ptr signal) (BitPosition signal) (BitSize signal) x
    | OPAQUE => false
    end.

(** The update bit of [signal], if it has one, is not a bit of its own
    data. *)
Definition ubit_outside_field (signal : Com_SignalConfigType) : bool :=
  match UpdateBit signal with
  | Some u => negb (sig_field signal (abit (ptr signal) u))
  | None => true
  end.

(** The number of bytes that the receive path stores behind
    [SignalDataPtr]. *)
Definition sig_size (signal : Com_SignalConfigType) : nat :=
  if (is_UINT8N (type signal) || is_OPAQUE (Endianness signal))%bool
  then (BitSize signal / 8)%nat
  else type_size (type signal).

(** [signal] without its update bit. *)
Definition no_update_bit (signal : Com_SignalConfigType)
  : Com_SignalConfigType :=
  {| ptr := ptr signal; initPtr := initPtr signal; type := type signal;
     HandleId := HandleId signal; BitPosition := BitPosition signal;
     BitSize := BitSize signal; UpdateBit := None;
     Endianness := Endianness signal |}.

(** ** Observations on the event log *)

(** The I-PDU (its index in [IPduConfigs]) that an event belongs to. *)
Definition event_pdu (e : Com_Event) : nat :=
  match e with
  | EvTransmit pdu _ _ _ => pdu
  | EvRxNotification pdu _ => pdu
  | EvRxTOut pdu _ => pdu
  | EvTxNotification pdu _ => pdu
  | EvErrorNotification pdu _ => pdu
  end.

Definition is_transmit_of (i : nat) (e : Com_Event) : bool :=
  match e with
  | EvTransmit pdu _ _ _ => Nat.eqb pdu i
  | _ => false
  end.

Definition is_timeout_of (i : nat) (e : Com_Event) : bool :=
  match e with
  | EvRxTOut pdu _ => Nat.eqb pdu i
  | _ => false
  end.

(** How often [PduR_ComTransmit] was called for I-PDU [i]. *)
Definition tx_count (i : nat) (tr : list Com_Event) : nat :=
  length (filter (is_transmit_of i) tr).

(** How often the timeout notification of I-PDU [i] was called. *)
Definition timeout_count (i : nat) (tr : list Com_Event) : nat :=
  length (filter (is_timeout_of i) tr).

(** [s'] comes from [s] by steps that do not concern I-PDU [i]: the group
    status and the timers of [i] are the same, and the new events belong to
    other I-PDUs. *)
Definition quiet (i : nat) (s s' : Com_State) : Prop :=
  GroupStatus s' = GroupStatus s /\
  rxTimer s' i = rxTimer s i /\
  txTimer s' i = txTimer s i /\
  exists evs, trace s' = evs ++ trace s /\
              Forall (fun e => event_pdu e <> i) evs.

(** ** The transmission schedule *)

(** The value to which [Com_IpduGroupStart] sets the timer of a TX
    I-PDU. *)
Definition tx_offset (tx : Com_IPduTxConfigType) : nat :=
  if Nat.ltb 0 (FirstTime tx) then FirstTime tx else CycleTime tx.

(** The value to which [Com_IpduGroupStart] sets the timer of an RX
    I-PDU. *)
Definition rx_offset (rx : Com_IPduRxConfigType) : nat :=
  if Nat.ltb 0 (FirstTimeout rx) then FirstTimeout rx else Timeout rx.

(** The timer of a TX I-PDU, [n] ticks after it was set to [off], when
    every transmission succeeds. *)
Definition tx_timer_at (off C n : nat) : nat :=
  if Nat.ltb n off then (off - n)%nat
  else if Nat.eqb C 0 then 0%nat
  else (C - (n - off) mod C)%nat.

(** Tick [t] is the initial offset plus a multiple of the cycle. *)
Definition tx_due (off C t : nat) : bool :=
  (Nat.leb off t
   && (if Nat.eqb C 0 then Nat.eqb t off else Nat.eqb ((t - off) mod C) 0))%bool.

(** ** Group-start initialisation *)

(** The signals that [Com_IpduGroupStart] initialises for group [id], in
    the order in which it does ([id] is below 31, or the start is a
    fault). *)
Definition init_signals_of (pdus : list Com_IPduConfigType) (id : nat)
  : list Com_SignalConfigType :=
  flat_map (fun p =>
              if Z.eqb (Z.land (GroupRefMask p) (Z.shiftl 1 (Z.of_nat id))) 0
              then [] else signals p) pdus.

Definition init_signals (cfg : Com_ConfigType) (id : nat)
  : list Com_SignalConfigType :=
  init_signals_of (IPduConfigs cfg) id.

(** The send path reads the source of the signal: the kind is UINT8N or
    a scalar kind, or the signal is opaque. *)
Definition reads_source (signal : Com_SignalConfigType) : bool :=
  (is_UINT8N (type signal) || is_OPAQUE (Endianness signal)
   || Nat.ltb 0 (type_size (type signal)))%bool.

(** The initial value of [signal] is an object of the size that the send
    path reads; a kind whose source is not read needs none. *)
Definition init_ok (signal : Com_SignalConfigType) : bool :=
  match initPtr signal with
  | Some bs => Nat.leb (sig_size signal) (length bs)
  | None => negb (reads_source signal)
  end.

(** ** A sample configuration

    One group with a TX I-PDU of four bytes at address 0 (a signed 12-bit
    signal with update bit 12, and a signal of an unsupported kind with
    update bit 24; cycle 5, first transmission after 2 ticks) and an RX
    I-PDU of two bytes at address 8 (an unsigned big-endian signal; timeout
    4, first timeout 1). *)

Definition sample_speed : Com_SignalConfigType :=
  {| ptr := 0; initPtr := Some [0x34; 0x02]; type := COM_SINT16;
     HandleId := 0; BitPosition := 0; BitSize := 12;
     UpdateBit := Some 12%nat; Endianness := LITTLE |}.

Definition sample_block : Com_SignalConfigType :=
  {| ptr := 0; initPtr := None; type := COM_GROUP_SIGNAL;
     HandleId := 1; BitPosition := 16; BitSize := 8;
     UpdateBit := Some 24%nat; Endianness := LITTLE |}.

Definition sample_door : Com_SignalConfigType :=
  {| ptr := 8; initPtr := Some [0]; type := COM_UINT8;
     HandleId := 2; BitPosition := 7; BitSize := 8;
     UpdateBit := None; Endianness := BIG |}.

Definition sample_tx : Com_IPduTxConfigType :=
  {| TxNotification := Some 3%nat; ErrorNotification := Some 4%nat;
     FirstTime := 2; CycleTime := 5; TxPduId := 7 |}.

Definition sample_rx : Com_IPduRxConfigType :=
  {| RxNotification := Some 1%nat; RxTOut := Some 2%nat;
     FirstTimeout := 1; Timeout := 4 |}.

Definition sample_tx_pdu : Com_IPduConfigType :=
  {| IPdu_ptr := 0; signals := [sample_speed; sample_block];
     rxConfig := None; txConfig := Some sample_tx;
     GroupRefMask := 1; IPdu_length := 4 |}.

Definition sample_rx_pdu : Com_IPduConfigType :=
  {| IPdu_ptr := 8; signals := [sample_door];
     rxConfig := Some sample_rx; txConfig := None;
     GroupRefMask := 1; IPdu_length := 2 |}.

Definition sample_cfg : Com_ConfigType :=
  {| IPduConfigs := [sample_tx_pdu; sample_rx_pdu];
     SignalConfigs := [sample_speed; sample_block; sample_door];
     numOfGroups := 1 |}.

(** The state after [Com_Init], with cleared RAM and timers. *)
Definition sample_reset : Com_State :=
  {| GroupStatus := 0; rxTimer := fun _ => 0%nat; txTimer := fun _ => 0%nat;
     pduRam := fun _ => 0; trace := [] |}.

(** A lower layer that accepts every PDU. *)
Definition always_ok : list Com_Event -> nat -> list Z -> Std_ReturnType :=
  fun _ _ _ => E_OK.

(** [sample_reset] after the start of group 0 with initialisation. *)
Definition sample_started : Com_State :=
  match Com_IpduGroupStart false sample_cfg 0 true sample_reset with
  | Some s => s
  | None => sample_reset
  end.

(** [sample_reset] after the value -1 was sent on [sample_speed]. *)
Definition sample_sent : Com_State :=
  match Com_SendSignal false sample_cfg 0 (Some [0xFF; 0xFF]) sample_reset with
  | Some (_, s) => s
  | None => sample_reset
  end.

(** [sample_started] one tick before the TX I-PDU is due. *)
Definition sample_due : Com_State := set_txTimer sample_started 0 1.

(** ** A configuration with an overlaid I-PDU

    A TX I-PDU of two bytes at address 0: a 7-bit signal with its update
    bit in bit 7 of byte 0, followed in the signal list by a byte array
    over both bytes. *)

Definition overlay_flag : Com_SignalConfigType :=
  {| ptr := 0; initPtr := Some [0x11]; type := COM_UINT8;
     HandleId := 0; BitPosition := 0; BitSize := 7;
     UpdateBit := Some 7%nat; Endianness := LITTLE |}.

Definition overlay_bytes : Com_SignalConfigType :=
  {| ptr := 0; initPtr := Some [0; 0]; type := COM_UINT8N;
     HandleId := 1; BitPosition := 0; BitSize := 16;
     UpdateBit := None; Endianness := OPAQUE |}.

Definition overlay_pdu : Com_IPduConfigType :=
  {| IPdu_ptr := 0; signals := [overlay_flag; overlay_bytes];
     rxConfig := None; txConfig := Some sample_tx;
     GroupRefMask := 1; IPdu_length := 2 |}.

Definition overlay_cfg : Com_ConfigType :=
  {| IPduConfigs := [overlay_pdu];
     SignalConfigs := [overlay_flag; overlay_bytes];
     numOfGroups := 1 |}.

(** ** Further notions for the properties of the packer *)

(** [x] wrapped into the signed range of [w] bits (two's complement). *)
Definition swrap (w x : Z) : Z := (x + 2 ^ (w - 1)) mod 2 ^ w - 2 ^ (w - 1).

(** ** A byte-array signal

    Three bytes at address 16, with the update bit in bit 0 of the byte
    that follows them. *)
Definition sample_vin : Com_SignalConfigType :=
  {| ptr := 16; initPtr := Some [0x41; 0x42; 0x43]; type := COM_UINT8N;
     HandleId := 3; BitPosition := 5; BitSize := 24;
     UpdateBit := Some 24%nat; Endianness := OPAQUE |}.


(** ** Further notions for the properties of the scheduler *)

(** Bit [x] of the PDU RAM is the update bit of a signal in [sigs]. *)
Definition update_bit_at (sigs : list Com_SignalConfigType) (x : nat) : bool :=
  existsb (fun signal =>
             match UpdateBit signal with
             | Some u => Nat.eqb x (abit (ptr signal) u)
             | None => false
             end) sigs.


(** A lower layer that refuses every PDU. *)
Definition always_refused : list Com_Event -> nat -> list Z -> Std_ReturnType :=
  fun _ _ _ => E_NOT_OK.


(** ** A configuration with two groups

    The TX I-PDU of the sample configuration in group 0, a TX I-PDU with
    the byte-array signal in both groups, and an RX I-PDU in group 1. *)

Definition shared_pdu : Com_IPduConfigType :=
  {| IPdu_ptr := 16; signals := [sample_vin];
     rxConfig := None; txConfig := Some sample_tx;
     GroupRefMask := 3; IPdu_length := 4 |}.

Definition late_pdu : Com_IPduConfigType :=
  {| IPdu_ptr := 8; signals := [sample_door];
     rxConfig := Some sample_rx; txConfig := None;
     GroupRefMask := 2; IPdu_length := 2 |}.

Definition two_group_cfg : Com_ConfigType :=
  {| IPduConfigs := [sample_tx_pdu; shared_pdu; late_pdu];
     SignalConfigs := [sample_speed; sample_block; sample_door; sample_vin];
     numOfGroups := 2 |}.

(** [sample_reset] after the start of group 1 with initialisation. *)
Definition two_group_started : Com_State :=
  match Com_IpduGroupStart false two_group_cfg 1 true sample_reset with
  | Some s => s
  | None => sample_reset
  end.


(** ** Further notions for signals side by side *)

(** What the caller of a receive function sees: the status and the
    object behind [SignalDataPtr]. *)
Definition received (x : option (Std_ReturnType * ram * cptr))
  : option (Std_ReturnType * cptr) :=
  match x with
  | Some (r, _, p) => Some (r, p)
  | None => None
  end.

(** Bit [x] of the PDU RAM is a data bit of [signal] or its update bit. *)
Definition sig_bits (signal : Com_SignalConfigType) (x : nat) : bool :=
  (sig_field signal x
   || match UpdateBit signal with
      | Some u => Nat.eqb x (abit (ptr signal) u)
      | None => false
      end)%bool.

(** Two signals with the same layout, possibly at different addresses. *)
Definition same_layout (a b : Com_SignalConfigType) : Prop :=
  type b = type a /\ BitPosition b = BitPosition a /\
  BitSize b = BitSize a /\ UpdateBit b = UpdateBit a /\
  Endianness b = Endianness a.


(** [x] is a value of the field of [signal]: in the signed range of
    [BitSize] bits for a signed kind, in the unsigned range otherwise. *)
Definition fits_signal (signal : Com_SignalConfigType) (x : Z) : Prop :=
  if is_signed (type signal)
  then - 2 ^ (Z.of_nat (BitSize signal) - 1) <= x
       < 2 ^ (Z.of_nat (BitSize signal) - 1)
  else 0 <= x < 2 ^ Z.of_nat (BitSize signal).


(** ** A receiving node

    The peer of the sample configuration: an RX I-PDU of four bytes at
    address 32 that carries the signal [sample_speed] in the same layout. *)

Definition peer_speed : Com_SignalConfigType :=
  {| ptr := 32; initPtr := Some [0; 0]; type := COM_SINT16;
     HandleId := 0; BitPosition := 0; BitSize := 12;
     UpdateBit := Some 12%nat; Endianness := LITTLE |}.

Definition peer_rx_pdu : Com_IPduConfigType :=
  {| IPdu_ptr := 32; signals := [peer_speed];
     rxConfig := Some sample_rx; txConfig := None;
     GroupRefMask := 1; IPdu_length := 4 |}.

Definition peer_cfg : Com_ConfigType :=
  {| IPduConfigs := [peer_rx_pdu]; SignalConfigs := [peer_speed];
     numOfGroups := 1 |}.

(** The peer after the start of its group, without initialisation. *)
Definition peer_started : Com_State :=
  match Com_IpduGroupStart true peer_cfg 0 false sample_reset with
  | Some s => s
  | None => sample_reset
  end.


(** [sample_due] after the stop of group 0: the timers are as they were,
    and no group is enabled. *)
Definition sample_stopped : Com_State :=
  match Com_IpduGroupStop sample_cfg 0 sample_due with
  | Some s => s
  | None => sample_due
  end.



(** * Properties *)

(** Names the byte index and the bit-in-byte index of [x] for [lia]. *)
Ltac split8 x :=
  let q := fresh "q" in
  let r := fresh "r" in
  pose proof (Nat.div_mod_eq x 8);
  pose proof (Nat.mod_upper_bound x 8 ltac:(discriminate));
  set (q := (x / 8)%nat) in *; set (r := (x mod 8)%nat) in *;
  clearbody q r.

(** ** The bit of a group *)

Lemma int_shl1_defined (n : nat) :
  (n < 31)%nat -> int_shl1 n = Some (Z.shiftl 1 (Z.of_nat n)).
Proof.
  intros H. unfold int_shl1.
  now replace (Nat.ltb n 31) with true by (symmetry; apply Nat.ltb_lt; exact H).
Qed.

Lemma int_shl1_inv (n : nat) (bit : Z) :
  int_shl1 n = Some bit -> (n < 31)%nat /\ bit = Z.shiftl 1 (Z.of_nat n).
Proof.
  unfold int_shl1. destruct (Nat.ltb_spec n 31); [| discriminate].
  intros E. injection E as <-. now split.
Qed.

(** ** Single bits *)

Lemma abit_split (p pos p' pos' : nat) :
  abit p' pos' = abit p pos <->
  (p' + pos' / 8 = p + pos / 8 /\ pos' mod 8 = pos mod 8)%nat.
Proof. unfold abit. split8 pos. split8 pos'. lia. Qed.

Lemma upd_same (m : ram) (a : nat) (v : Z) : upd m a v a = v.
Proof. unfold upd. now rewrite Nat.eqb_refl. Qed.

Lemma upd_other (m : ram) (a x : nat) (v : Z) : x <> a -> upd m a v x = m x.
Proof. unfold upd. intros H. apply Nat.eqb_neq in H. now rewrite H. Qed.

Lemma Std_BitGet_BitSet (m : ram) (p pos p' pos' : nat) :
  Std_BitGet (Std_BitSet m p pos) p' pos' =
  if Nat.eqb (abit p' pos') (abit p pos) then true else Std_BitGet m p' pos'.
Proof.
  unfold Std_BitGet, Std_BitSet.
  destruct (Nat.eqb_spec (abit p' pos') (abit p pos)) as [E | E].
  - apply abit_split in E. destruct E as [Ea Eb].
    rewrite Ea, Eb, upd_same, Z.lor_spec, Z.shiftl_1_l.
    rewrite Z.pow2_bits_eqb by lia. rewrite Z.eqb_refl. apply orb_true_r.
  - destruct (Nat.eq_dec (p' + pos' / 8) (p + pos / 8)) as [Ea | Ea].
    + rewrite Ea, upd_same, Z.lor_spec, Z.shiftl_1_l.
      rewrite Z.pow2_bits_eqb by lia.
      assert (Eb : (pos' mod 8 <> pos mod 8)%nat).
      { intros Eb. apply E, abit_split. split; assumption. }
      replace (Z.of_nat (pos mod 8) =? Z.of_nat (pos' mod 8)) with false
        by (symmetry; apply Z.eqb_neq; lia).
      apply orb_false_r.
    + now rewrite upd_other.
Qed.

Lemma Std_BitGet_BitClear (m : ram) (p pos p' pos' : nat) :
  Std_BitGet (Std_BitClear m p pos) p' pos' =
  if Nat.eqb (abit p' pos') (abit p pos) then false else Std_BitGet m p' pos'.
Proof.
  unfold Std_BitGet, Std_BitClear.
  destruct (Nat.eqb_spec (abit p' pos') (abit p pos)) as [E | E].
  - apply abit_split in E. destruct E as [Ea Eb].
    rewrite Ea, Eb, upd_same, Z.land_spec, Z.lnot_spec, Z.shiftl_1_l by lia.
    rewrite Z.pow2_bits_eqb by lia. rewrite Z.eqb_refl. apply andb_false_r.
  - destruct (Nat.eq_dec (p' + pos' / 8) (p + pos / 8)) as [Ea | Ea].
    + rewrite Ea, upd_same, Z.land_spec, Z.lnot_spec, Z.shiftl_1_l by lia.
      rewrite Z.pow2_bits_eqb by lia.
      assert (Eb : (pos' mod 8 <> pos mod 8)%nat).
      { intros Eb. apply E, abit_split. split; assumption. }
      replace (Z.of_nat (pos mod 8) =? Z.of_nat (pos' mod 8)) with false
        by (symmetry; apply Z.eqb_neq; lia).
      apply andb_true_r.
    + now rewrite upd_other.
Qed.

Lemma Std_BitGet_BitWrite (m : ram) (p pos p' pos' : nat) (b : bool) :
  Std_BitGet (Std_BitWrite m p pos b) p' pos' =
  if Nat.eqb (abit p' pos') (abit p pos) then b else Std_BitGet m p' pos'.
Proof.
  destruct b; simpl; [apply Std_BitGet_BitSet | apply Std_BitGet_BitClear].
Qed.

(** ** The little-endian field *)

Lemma Std_BitSetLittleEndian_bit (w : nat) :
  forall (m : ram) (p : nat) (v : Z) (start p' q : nat),
    Std_BitGet (Std_BitSetLittleEndian m p v start w) p' q =
    if in_field_le p start w (abit p' q)
    then Z.testbit v (Z.of_nat (abit p' q - abit p start))
    else Std_BitGet m p' q.
Proof.
  unfold in_field_le.
  induction w as [| w IH]; intros m p v start p' q; simpl.
  - destruct (Nat.leb_spec (abit p start) (abit p' q));
      destruct (Nat.ltb_spec (abit p' q) (abit p start + 0));
      simpl; lia || reflexivity.
  - rewrite IH, Std_BitGet_BitWrite.
    assert (Es : abit p (S start) = S (abit p start)) by (unfold abit; lia).
    rewrite Es.
    destruct (Nat.eqb_spec (abit p' q) (abit p start)) as [E | E].
    + rewrite E.
      replace (Nat.leb (S (abit p start)) (abit p start)) with false
        by (symmetry; apply Nat.leb_gt; lia).
      rewrite Nat.leb_refl.
      replace (Nat.ltb (abit p start) (abit p start + S w)) with true
        by (symmetry; apply Nat.ltb_lt; lia).
      rewrite Nat.sub_diag. apply Z.bit0_odd.
    + destruct (Nat.leb_spec (S (abit p start)) (abit p' q)) as [L | L].
      * replace (Nat.leb (abit p start) (abit p' q)) with true
          by (symmetry; apply Nat.leb_le; lia).
        replace (abit p start + S w)%nat with (S (abit p start) + w)%nat
          by lia.
        simpl.
        destruct (Nat.ltb (abit p' q) (S (abit p start + w))); [| reflexivity].
        rewrite Z.div2_spec, Z.shiftr_spec by lia.
        f_equal. lia.
      * replace (Nat.leb (abit p start) (abit p' q)) with false
          by (symmetry; apply Nat.leb_gt; lia).
        reflexivity.
Qed.

Lemma Std_BitGetLittleEndian_bit (w : nat) :
  forall (m : ram) (p start : nat) (k : Z),
    0 <= k ->
    Z.testbit (Std_BitGetLittleEndian m p start w) k =
    (k <? Z.of_nat w) && Std_BitGet m p (start + Z.to_nat k).
Proof.
  induction w as [| w IH]; intros m p start k Hk.
  - simpl. rewrite Z.testbit_0_l.
    replace (k <? 0) with false by (symmetry; apply Z.ltb_ge; lia).
    reflexivity.
  - cbn [Std_BitGetLittleEndian].
    destruct (Z.eq_dec k 0) as [-> | Hk0].
    + rewrite Z.add_b2z_double_bit0. simpl Z.to_nat.
      now rewrite Nat.add_0_r.
    + replace k with (Z.succ (k - 1)) at 1 by lia.
      rewrite Z.add_comm, Z.testbit_succ_r, IH by lia.
      replace (S start + Z.to_nat (k - 1))%nat with (start + Z.to_nat k)%nat
        by lia.
      f_equal.
      destruct (Z.ltb_spec (k - 1) (Z.of_nat w));
        destruct (Z.ltb_spec k (Z.of_nat (S w))); lia || reflexivity.
Qed.

Lemma LittleEndian_roundtrip (m : ram) (p : nat) (v : Z) (start w : nat) :
  Std_BitGetLittleEndian (Std_BitSetLittleEndian m p v start w) p start w =
  v mod 2 ^ Z.of_nat w.
Proof.
  apply Z.bits_inj'. intros k Hk.
  rewrite Std_BitGetLittleEndian_bit, Z.testbit_mod_pow2 by lia.
  destruct (Z.ltb_spec k (Z.of_nat w)) as [L | L]; [| reflexivity].
  simpl. rewrite Std_BitSetLittleEndian_bit. unfold in_field_le.
  assert (E : abit p (start + Z.to_nat k) = (abit p start + Z.to_nat k)%nat)
    by (unfold abit; lia).
  rewrite E.
  replace (Nat.leb (abit p start) (abit p start + Z.to_nat k)) with true
    by (symmetry; apply Nat.leb_le; lia).
  replace (Nat.ltb (abit p start + Z.to_nat k) (abit p start + w)) with true
    by (symmetry; apply Nat.ltb_lt; lia).
  simpl. f_equal. lia.
Qed.

(** ** The big-endian field *)

Lemma be_lin_involutive (x : nat) : be_lin (be_lin x) = x.
Proof.
  unfold be_lin. split8 x. split8 (8 * q + (7 - r))%nat. lia.
Qed.

Lemma be_lin_inj (x y : nat) : be_lin x = be_lin y -> x = y.
Proof.
  intros H. rewrite <- (be_lin_involutive x), <- (be_lin_involutive y).
  now rewrite H.
Qed.

Lemma be_lin_next (x : nat) : be_lin (be_next x) = S (be_lin x).
Proof.
  unfold be_next, be_lin.
  destruct (Nat.eqb_spec (x mod 8) 0) as [E | E].
  - split8 x. split8 (x + 15)%nat. lia.
  - split8 x. split8 (x - 1)%nat. lia.
Qed.

Lemma be_lin_abit (p q : nat) : be_lin (abit p q) = abit p (be_lin q).
Proof.
  unfold be_lin, abit. split8 q. split8 (8 * p + q)%nat. lia.
Qed.

Lemma abit_be_next (p q : nat) :
  be_lin (abit p (be_next q)) = S (be_lin (abit p q)).
Proof. rewrite !be_lin_abit, be_lin_next. unfold abit. lia. Qed.

Lemma Std_BitSetBigEndian_bit (w : nat) :
  forall (m : ram) (p : nat) (v : Z) (pos p' q : nat),
    Std_BitGet (Std_BitSetBigEndian m p v pos w) p' q =
    if in_field_be p pos w (abit p' q)
    then Z.testbit v (Z.of_nat (w - 1 - (be_lin (abit p' q)
                                          - be_lin (abit p pos))))
    else Std_BitGet m p' q.
Proof.
  unfold in_field_be.
  induction w as [| w IH]; intros m p v pos p' q; simpl.
  - destruct (Nat.leb_spec (be_lin (abit p pos)) (be_lin (abit p' q)));
      destruct (Nat.ltb_spec (be_lin (abit p' q)) (be_lin (abit p pos) + 0));
      simpl; lia || reflexivity.
  - rewrite IH, Std_BitGet_BitWrite, abit_be_next.
    set (a := be_lin (abit p pos)). set (x := be_lin (abit p' q)).
    destruct (Nat.eqb_spec (abit p' q) (abit p pos)) as [E | E].
    + assert (Ex : x = a) by (unfold x, a; now rewrite E).
      rewrite Ex.
      replace (Nat.leb (S a) a) with false
        by (symmetry; apply Nat.leb_gt; lia).
      rewrite Nat.leb_refl.
      replace (Nat.ltb a (a + S w)) with true
        by (symmetry; apply Nat.ltb_lt; lia).
      simpl. f_equal. lia.
    + assert (Ex : x <> a).
      { intros Ex. apply E. now apply be_lin_inj. }
      destruct (Nat.leb_spec (S a) x) as [L | L].
      * replace (Nat.leb a x) with true by (symmetry; apply Nat.leb_le; lia).
        replace (a + S w)%nat with (S a + w)%nat by lia.
        simpl. destruct (Nat.ltb_spec x (S (a + w))); [| reflexivity].
        f_equal. lia.
      * replace (Nat.leb a x) with false
          by (symmetry; apply Nat.leb_gt; lia).
        reflexivity.
Qed.

Lemma be_get_bit (w : nat) :
  forall (m : ram) (p pos : nat) (acc k : Z),
    0 <= k ->
    Z.testbit (be_get m p pos w acc) k =
    if k <? Z.of_nat w
    then Std_BitGet m p (be_lin (be_lin pos + (w - 1 - Z.to_nat k)))
    else Z.testbit acc (k - Z.of_nat w).
Proof.
  induction w as [| w IH]; intros m p pos acc k Hk.
  - simpl. replace (k <? 0) with false by (symmetry; apply Z.ltb_ge; lia).
    now rewrite Z.sub_0_r.
  - cbn [be_get]. rewrite IH by lia. rewrite be_lin_next.
    destruct (Z.ltb_spec k (Z.of_nat w)) as [L | L].
    + replace (k <? Z.of_nat (S w)) with true
        by (symmetry; apply Z.ltb_lt; lia).
      f_equal. f_equal. lia.
    + destruct (Z.eq_dec k (Z.of_nat w)) as [E | E].
      * replace (k <? Z.of_nat (S w)) with true
          by (symmetry; apply Z.ltb_lt; lia).
        replace (k - Z.of_nat w) with 0 by lia.
        rewrite Z.testbit_0_r.
        replace (S w - 1 - Z.to_nat k)%nat with 0%nat by lia.
        now rewrite Nat.add_0_r, be_lin_involutive.
      * replace (k <? Z.of_nat (S w)) with false
          by (symmetry; apply Z.ltb_ge; lia).
        replace (k - Z.of_nat w) with (Z.succ (k - Z.of_nat (S w))) by lia.
        now rewrite Z.testbit_succ_r by lia.
Qed.

Lemma BigEndian_roundtrip (m : ram) (p : nat) (v : Z) (start w : nat) :
  Std_BitGetBigEndian (Std_BitSetBigEndian m p v start w) p start w =
  v mod 2 ^ Z.of_nat w.
Proof.
  apply Z.bits_inj'. intros k Hk. unfold Std_BitGetBigEndian.
  rewrite be_get_bit, Z.testbit_mod_pow2 by lia.
  destruct (Z.ltb_spec k (Z.of_nat w)) as [L | L].
  - simpl. rewrite Std_BitSetBigEndian_bit. unfold in_field_be.
    rewrite !be_lin_abit, be_lin_involutive.
    set (a := be_lin start). unfold abit.
    replace (Nat.leb (8 * p + a) (8 * p + (a + (w - 1 - Z.to_nat k))))
      with true by (symmetry; apply Nat.leb_le; lia).
    replace (Nat.ltb (8 * p + (a + (w - 1 - Z.to_nat k))) (8 * p + a + w))
      with true by (symmetry; apply Nat.ltb_lt; lia).
    simpl. f_equal. lia.
  - rewrite Z.testbit_0_l. reflexivity.
Qed.

(** The scenarios of the specification: 0xABC in a big-endian field of 12
    bits at bit 13 of an empty buffer, and the same in a little-endian
    field. *)
Example big_endian_straddle :
  read_bytes (Std_BitSetBigEndian (fun _ => 0) 0 0xABC 13 12) 0 4
  = [0x00; 0x2A; 0xF0; 0x00] /\
  Std_BitGetBigEndian (Std_BitSetBigEndian (fun _ => 0) 0 0xABC 13 12) 0 13 12
  = 0xABC.
Proof. split; reflexivity. Qed.

Example little_endian_straddle :
  read_bytes (Std_BitSetLittleEndian (fun _ => 0xFF) 0 0xABC 13 12) 0 4
  = [0xFF; 0x9F; 0x57; 0xFF] /\
  Std_BitGetLittleEndian
    (Std_BitSetLittleEndian (fun _ => 0xFF) 0 0xABC 13 12) 0 13 12
  = 0xABC.
Proof. split; reflexivity. Qed.

(** ** Integer objects *)

Lemma le_bytes_length (n : nat) : forall v, length (le_bytes n v) = n.
Proof. induction n as [| n IH]; intros v; simpl; [| rewrite IH]; reflexivity. Qed.

Lemma le_value_le_bytes (n : nat) :
  forall v, le_value (le_bytes n v) = v mod 2 ^ (8 * Z.of_nat n).
Proof.
  induction n as [| n IH]; intros v.
  - simpl. now rewrite Z.mod_1_r.
  - cbn [le_bytes le_value]. rewrite IH.
    replace (8 * Z.of_nat (S n)) with (8 + 8 * Z.of_nat n) by lia.
    rewrite Z.pow_add_r by lia. change (2 ^ 8) with 256.
    rewrite Z.rem_mul_r by lia. reflexivity.
Qed.

Lemma host_bytes_length (be : bool) (n : nat) (v : Z) :
  length (host_bytes be n v) = n.
Proof.
  unfold host_bytes. destruct be; [rewrite length_rev |]; apply le_bytes_length.
Qed.

Lemma host_value_host_bytes (be : bool) (n : nat) (v : Z) :
  host_value be (host_bytes be n v) = v mod 2 ^ (8 * Z.of_nat n).
Proof.
  unfold host_value, host_bytes.
  destruct be; [rewrite rev_involutive |]; apply le_value_le_bytes.
Qed.

Lemma firstn_host_bytes (be : bool) (n : nat) (v : Z) (rest : list Z) :
  firstn n (host_bytes be n v ++ rest) = host_bytes be n v.
Proof.
  rewrite firstn_app, host_bytes_length, Nat.sub_diag. simpl.
  rewrite app_nil_r. apply firstn_all2. rewrite host_bytes_length. lia.
Qed.

Lemma load_uint_int_rep (be : bool) (n : nat) (x : Z) (rest : list Z) :
  load_uint be n (Some (int_rep be n x ++ rest)) =
  Some (x mod 2 ^ (8 * Z.of_nat n)).
Proof.
  unfold load_uint, int_rep.
  rewrite length_app, host_bytes_length.
  replace (Nat.ltb (n + length rest) n) with false
    by (symmetry; apply Nat.ltb_ge; lia).
  rewrite firstn_host_bytes, host_value_host_bytes.
  now rewrite Z.mod_mod by (apply Z.pow_nonzero; lia).
Qed.

Lemma int_val_int_rep (be : bool) (n : nat) (x : Z) (rest : list Z) :
  (0 < n)%nat ->
  - 2 ^ (8 * Z.of_nat n - 1) <= x < 2 ^ (8 * Z.of_nat n - 1) ->
  int_val be n (int_rep be n x ++ rest) = x.
Proof.
  intros Hn Hx. unfold int_val, int_rep.
  rewrite firstn_host_bytes, host_value_host_bytes.
  rewrite Z.mod_mod by (apply Z.pow_nonzero; lia).
  assert (E : 2 ^ (8 * Z.of_nat n) = 2 * 2 ^ (8 * Z.of_nat n - 1)).
  { rewrite <- Z.pow_succ_r by lia. f_equal. lia. }
  destruct (Z_lt_le_dec x 0) as [Neg | Pos].
  - replace (x mod 2 ^ (8 * Z.of_nat n)) with (x + 2 ^ (8 * Z.of_nat n)).
    + destruct (Z.ltb_spec (x + 2 ^ (8 * Z.of_nat n))
                           (2 ^ (8 * Z.of_nat n - 1))); lia.
    + apply Z.mod_unique with (q := -1); lia.
  - rewrite Z.mod_small by lia.
    destruct (Z.ltb_spec x (2 ^ (8 * Z.of_nat n - 1))); lia.
Qed.

(** ** Sign extension *)

Lemma testbit_sign (x n j : Z) :
  0 <= n <= j -> - 2 ^ n <= x < 2 ^ n -> Z.testbit x j = (x <? 0).
Proof.
  intros Hj Hx.
  assert (Hp : 2 ^ n <= 2 ^ j) by (apply Z.pow_le_mono_r; lia).
  destruct (Z.ltb_spec x 0) as [Neg | Pos].
  - replace x with (- (- x)) by lia.
    rewrite Z.bits_opp by lia.
    destruct (Z.eq_dec (Z.pred (- x)) 0) as [E | E].
    + rewrite E, Z.testbit_0_l. reflexivity.
    + rewrite Z.bits_above_log2; [reflexivity | lia |].
      apply Z.log2_lt_pow2; lia.
  - destruct (Z.eq_dec x 0) as [-> | E].
    + apply Z.testbit_0_l.
    + apply Z.bits_above_log2; [lia |]. apply Z.log2_lt_pow2; lia.
Qed.

Lemma testbit_field_mask (w j : Z) :
  1 <= w <= 32 -> 0 <= j ->
  Z.testbit (Z.shiftr 0xFFFFFFFF (32 - w)) j = (j <? w).
Proof.
  intros Hw Hj. rewrite Z.shiftr_spec by lia.
  change 0xFFFFFFFF with (Z.ones 32). rewrite Z.testbit_ones by lia.
  destruct (Z.leb_spec 0 (j + (32 - w))); destruct (Z.ltb_spec (j + (32 - w)) 32);
    destruct (Z.ltb_spec j w); simpl; lia || reflexivity.
Qed.

Lemma testbit_signmask (w j : Z) :
  1 <= w <= 32 -> 0 <= j ->
  Z.testbit (uint32_not (Z.shiftr (Z.shiftr 0xFFFFFFFF (32 - w)) 1)) j =
  (w - 1 <=? j) && (j <? 32).
Proof.
  intros Hw Hj. unfold uint32_not.
  rewrite Z.lxor_spec, Z.shiftr_spec, testbit_field_mask by lia.
  change 0xFFFFFFFF with (Z.ones 32). rewrite Z.testbit_ones by lia.
  destruct (Z.ltb_spec (j + 1) w); destruct (Z.leb_spec (w - 1) j);
    destruct (Z.leb_spec 0 j); destruct (Z.ltb_spec j 32);
    simpl; lia || reflexivity.
Qed.

(** The word that [comStoreSignalValue] narrows and stores for a signed
    kind: the field, with its top bit copied into the bits above it. *)
Lemma sign_extension (w N x : Z) :
  1 <= w <= 32 -> 0 <= N <= 32 ->
  - 2 ^ (w - 1) <= x < 2 ^ (w - 1) ->
  let mask := Z.shiftr 0xFFFFFFFF (32 - w) in
  let sigV := Z.land ((x mod 2 ^ N) mod 2 ^ w) mask in
  let signmask := uint32_not (Z.shiftr mask 1) in
  (if Z.land sigV signmask =? 0 then sigV else Z.lor sigV signmask)
    mod 2 ^ N = x mod 2 ^ N.
Proof.
  intros Hw HN Hx mask sigV signmask.
  set (g := (x mod 2 ^ N) mod 2 ^ w) in *.
  assert (Hg : forall j, 0 <= j ->
             Z.testbit g j = (j <? w) && ((j <? N) && Z.testbit x j)).
  { intros j Hj. unfold g. now rewrite !Z.testbit_mod_pow2 by lia. }
  assert (Hs : sigV = g).
  { apply Z.bits_inj'. intros j Hj. unfold sigV, mask.
    rewrite Z.land_spec, testbit_field_mask, Hg by lia.
    destruct (j <? w); simpl; [apply andb_true_r | reflexivity]. }
  assert (Hx' : forall j, w - 1 <= j -> Z.testbit x j = (x <? 0)).
  { intros j Hj. apply (testbit_sign x (w - 1) j); lia. }
  rewrite Hs.
  destruct (Z.testbit g (w - 1)) eqn:Hb.
  - (* the top bit of the field is set *)
    pose proof Hb as Hb'. rewrite Hg in Hb' by lia.
    apply andb_prop in Hb'. destruct Hb' as [_ Hb'].
    apply andb_prop in Hb'. destruct Hb' as [HwN Hneg].
    apply Z.ltb_lt in HwN. rewrite Hx' in Hneg by lia.
    destruct (Z.eqb_spec (Z.land g signmask) 0) as [E | _].
    + exfalso. apply (f_equal (fun z => Z.testbit z (w - 1))) in E.
      unfold signmask, mask in E.
      rewrite Z.land_spec, Hb, testbit_signmask, Z.testbit_0_l in E by lia.
      destruct (Z.leb_spec (w - 1) (w - 1)); destruct (Z.ltb_spec (w - 1) 32);
        simpl in E; lia || discriminate.
    + apply Z.bits_inj'. intros k Hk.
      rewrite !Z.testbit_mod_pow2 by lia.
      destruct (Z.ltb_spec k N) as [L | L]; [simpl | reflexivity].
      unfold signmask, mask.
      rewrite Z.lor_spec, testbit_signmask, Hg by lia.
      destruct (Z.leb_spec (w - 1) k) as [Hi | Lo].
      * rewrite Hx', Hneg by lia.
        replace (k <? 32) with true by (symmetry; apply Z.ltb_lt; lia).
        simpl. apply orb_true_r.
      * replace (k <? w) with true by (symmetry; apply Z.ltb_lt; lia).
        replace (k <? N) with true by (symmetry; apply Z.ltb_lt; lia).
        simpl. apply orb_false_r.
  - (* the top bit of the field is clear *)
    assert (E : Z.land g signmask = 0).
    { apply Z.bits_inj'. intros j Hj. unfold signmask, mask.
      rewrite Z.land_spec, testbit_signmask, Z.testbit_0_l by lia.
      destruct (Z.leb_spec (w - 1) j) as [Hi | Lo]; simpl;
        [| apply andb_false_r].
      destruct (Z.eq_dec j (w - 1)) as [-> | Ne].
      - now rewrite Hb.
      - rewrite Hg by lia.
        replace (j <? w) with false by (symmetry; apply Z.ltb_ge; lia).
        reflexivity. }
    rewrite E. simpl.
    apply Z.bits_inj'. intros k Hk.
    rewrite !Z.testbit_mod_pow2 by lia.
    destruct (Z.ltb_spec k N) as [L | L]; [simpl | reflexivity].
    rewrite Hg by lia.
    replace (k <? N) with true by (symmetry; apply Z.ltb_lt; lia).
    simpl.
    destruct (Z.ltb_spec k w) as [Lw | Lw]; [reflexivity | simpl].
    rewrite Hg in Hb by lia.
    replace (w - 1 <? w) with true in Hb by (symmetry; apply Z.ltb_lt; lia).
    replace (w - 1 <? N) with true in Hb by (symmetry; apply Z.ltb_lt; lia).
    simpl in Hb. rewrite Hx' in Hb by lia. rewrite Hx' by lia.
    now rewrite Hb.
Qed.

(** The sign extension in the words of the specification: the code tests
    the masked word against [~(mask >> 1)] and ORs that in; since the word
    has no bit above the field, this is to test the top bit of the field
    and to OR in the complement of the field mask. *)
Lemma sign_extension_by_mask_complement (w g : Z) :
  1 <= w <= 32 ->
  let mask := Z.shiftr 0xFFFFFFFF (32 - w) in
  let sigV := Z.land g mask in
  let signmask := uint32_not (Z.shiftr mask 1) in
  (if Z.land sigV signmask =? 0 then sigV else Z.lor sigV signmask) =
  (if Z.testbit sigV (w - 1) then Z.lor sigV (uint32_not mask) else sigV).
Proof.
  intros Hw mask sigV signmask.
  assert (Hs : forall j, 0 <= j ->
             Z.testbit sigV j = Z.testbit g j && (j <? w)).
  { intros j Hj. unfold sigV, mask.
    now rewrite Z.land_spec, testbit_field_mask by lia. }
  assert (Hm : forall j, 0 <= j ->
             Z.testbit (uint32_not mask) j = (w <=? j) && (j <? 32)).
  { intros j Hj. unfold uint32_not, mask.
    rewrite Z.lxor_spec, testbit_field_mask by lia.
    change 0xFFFFFFFF with (Z.ones 32). rewrite Z.testbit_ones by lia.
    destruct (Z.ltb_spec j w); destruct (Z.leb_spec w j);
      destruct (Z.leb_spec 0 j); destruct (Z.ltb_spec j 32);
      simpl; lia || reflexivity. }
  destruct (Z.testbit sigV (w - 1)) eqn:Hb.
  - destruct (Z.eqb_spec (Z.land sigV signmask) 0) as [E | _].
    + exfalso. apply (f_equal (fun z => Z.testbit z (w - 1))) in E.
      unfold signmask, mask in E.
      rewrite Z.land_spec, testbit_signmask, Z.testbit_0_l in E by lia.
      fold mask in E. fold sigV in E. rewrite Hb in E.
      destruct (Z.leb_spec (w - 1) (w - 1)); destruct (Z.ltb_spec (w - 1) 32);
        simpl in E; lia || discriminate.
    + apply Z.bits_inj'. intros j Hj.
      rewrite !Z.lor_spec, Hm by lia. unfold signmask, mask.
      rewrite testbit_signmask by lia.
      destruct (Z.eq_dec j (w - 1)) as [-> | Ne].
      * fold mask. fold sigV. now rewrite Hb.
      * f_equal.
        destruct (Z.leb_spec (w - 1) j); destruct (Z.leb_spec w j);
          simpl; lia || reflexivity.
  - destruct (Z.eqb_spec (Z.land sigV signmask) 0) as [_ | Ne];
      [reflexivity |].
    exfalso. apply Ne. apply Z.bits_inj'. intros j Hj.
    unfold signmask, mask.
    rewrite Z.land_spec, testbit_signmask, Z.testbit_0_l by lia.
    fold mask. fold sigV.
    destruct (Z.leb_spec (w - 1) j) as [Hi | Lo]; simpl;
      [| apply andb_false_r].
    destruct (Z.eq_dec j (w - 1)) as [-> | Ne'].
    + now rewrite Hb.
    + rewrite Hs by lia.
      replace (j <? w) with false by (symmetry; apply Z.ltb_ge; lia).
      now rewrite andb_false_r.
Qed.

(** ** Reading a field depends on the bits of the field only *)

Lemma Std_BitGetLittleEndian_ext (m m' : ram) (p start w : nat) :
  (forall k, (k < w)%nat ->
             Std_BitGet m' p (start + k) = Std_BitGet m p (start + k)) ->
  Std_BitGetLittleEndian m' p start w = Std_BitGetLittleEndian m p start w.
Proof.
  intros H. apply Z.bits_inj'. intros k Hk.
  rewrite !Std_BitGetLittleEndian_bit by lia.
  destruct (Z.ltb_spec k (Z.of_nat w)); [simpl | reflexivity].
  apply H. lia.
Qed.

Lemma Std_BitGetBigEndian_ext (m m' : ram) (p start w : nat) :
  (forall k, (k < w)%nat ->
             Std_BitGet m' p (be_lin (be_lin start + k)) =
             Std_BitGet m p (be_lin (be_lin start + k))) ->
  Std_BitGetBigEndian m' p start w = Std_BitGetBigEndian m p start w.
Proof.
  intros H. apply Z.bits_inj'. intros k Hk. unfold Std_BitGetBigEndian.
  rewrite !be_get_bit by lia.
  destruct (Z.ltb_spec k (Z.of_nat w)); [| reflexivity].
  apply H. lia.
Qed.

Lemma in_field_le_inside (p start w k : nat) :
  (k < w)%nat -> in_field_le p start w (abit p (start + k)) = true.
Proof.
  intros H. unfold in_field_le, abit.
  apply andb_true_intro. split; [apply Nat.leb_le | apply Nat.ltb_lt]; lia.
Qed.

Lemma in_field_be_inside (p start w k : nat) :
  (k < w)%nat ->
  in_field_be p start w (abit p (be_lin (be_lin start + k))) = true.
Proof.
  intros H. unfold in_field_be.
  rewrite !be_lin_abit, be_lin_involutive. unfold abit.
  apply andb_true_intro. split; [apply Nat.leb_le | apply Nat.ltb_lt]; lia.
Qed.

(** Setting or clearing a bit outside a field does not change what the
    field reads. *)
Lemma Std_BitGetLittleEndian_BitWrite (m : ram) (p start w p' u : nat)
      (b : bool) :
  in_field_le p start w (abit p' u) = false ->
  Std_BitGetLittleEndian (Std_BitWrite m p' u b) p start w =
  Std_BitGetLittleEndian m p start w.
Proof.
  intros H. apply Std_BitGetLittleEndian_ext. intros k Hk.
  rewrite Std_BitGet_BitWrite.
  destruct (Nat.eqb_spec (abit p (start + k)) (abit p' u)) as [E | E];
    [| reflexivity].
  rewrite <- E, in_field_le_inside in H by assumption. discriminate.
Qed.

Lemma Std_BitGetBigEndian_BitWrite (m : ram) (p start w p' u : nat)
      (b : bool) :
  in_field_be p start w (abit p' u) = false ->
  Std_BitGetBigEndian (Std_BitWrite m p' u b) p start w =
  Std_BitGetBigEndian m p start w.
Proof.
  intros H. apply Std_BitGetBigEndian_ext. intros k Hk.
  rewrite Std_BitGet_BitWrite.
  destruct (Nat.eqb_spec (abit p (be_lin (be_lin start + k))) (abit p' u))
    as [E | E]; [| reflexivity].
  rewrite <- E, in_field_be_inside in H by assumption. discriminate.
Qed.

(** ** Signed signals: what is sent is what is received *)

Lemma comGetSignalValue_int_rep (be : bool) (signal : Com_SignalConfigType)
      (x : Z) (rest : list Z) :
  (0 < type_size (type signal))%nat ->
  comGetSignalValue be signal
    (Some (int_rep be (type_size (type signal)) x ++ rest)) =
  Some (E_OK, x mod 2 ^ (8 * Z.of_nat (type_size (type signal)))).
Proof.
  intros H. unfold comGetSignalValue.
  destruct (type signal); simpl in H; try lia;
    cbn [type_size]; now rewrite load_uint_int_rep.
Qed.

Lemma comStoreSignalValue_signed (be : bool) (signal : Com_SignalConfigType)
      (x : Z) (dst : list Z) :
  let n := type_size (type signal) in
  let w := Z.of_nat (BitSize signal) in
  is_signed (type signal) = true ->
  1 <= w <= 32 ->
  - 2 ^ (w - 1) <= x < 2 ^ (w - 1) ->
  (n <= length dst)%nat ->
  comStoreSignalValue be signal ((x mod 2 ^ (8 * Z.of_nat n)) mod 2 ^ w)
                      (Some dst) =
  Some (E_OK, Some (int_rep be n x ++ skipn n dst)).
Proof.
  intros n w Hs Hw Hx Hd. unfold comStoreSignalValue, store_int, int_rep.
  fold w.
  assert (Hn : 0 <= 8 * Z.of_nat n <= 32).
  { unfold n. destruct (type signal); simpl; lia. }
  pose proof (sign_extension w (8 * Z.of_nat n) x Hw Hn Hx) as E.
  cbv zeta in E. subst n.
  destruct (type signal) eqn:Ht; try discriminate Hs; cbn [type_size] in *;
    match goal with
    | |- context [Nat.ltb (length dst) ?k] =>
        replace (Nat.ltb (length dst) k) with false
          by (symmetry; apply Nat.ltb_ge; exact Hd)
    end;
    now rewrite E.
Qed.

Lemma comSendSignalLittle_int_rep (be : bool) (signal : Com_SignalConfigType)
      (x : Z) (m : ram) :
  (0 < type_size (type signal))%nat ->
  comSendSignalLittle be signal
    (Some (int_rep be (type_size (type signal)) x)) m =
  Some (E_OK,
        Std_BitSetLittleEndian m (ptr signal)
          (x mod 2 ^ (8 * Z.of_nat (type_size (type signal))))
          (BitPosition signal) (BitSize signal)).
Proof.
  intros H. unfold comSendSignalLittle.
  rewrite <- (app_nil_r (int_rep _ _ _)).
  now rewrite comGetSignalValue_int_rep.
Qed.

Lemma comSendSignalBig_int_rep (be : bool) (signal : Com_SignalConfigType)
      (x : Z) (m : ram) :
  (0 < type_size (type signal))%nat ->
  comSendSignalBig be signal
    (Some (int_rep be (type_size (type signal)) x)) m =
  Some (E_OK,
        Std_BitSetBigEndian m (ptr signal)
          (x mod 2 ^ (8 * Z.of_nat (type_size (type signal))))
          (BitPosition signal) (BitSize signal)).
Proof.
  intros H. unfold comSendSignalBig.
  rewrite <- (app_nil_r (int_rep _ _ _)).
  now rewrite comGetSignalValue_int_rep.
Qed.

Lemma is_signed_size (t : Com_SignalTypeType) :
  is_signed t = true -> (0 < type_size t)%nat /\ is_UINT8N t = false.
Proof. destruct t; simpl; intros H; try discriminate H; split; lia || reflexivity. Qed.

(** C1.  A signed signal (S8, S16, S32) in a field of 1 to 32 bits returns
    on reception the value that was sent, for every value in the signed
    range of the field width: the field is read back, masked, and its top
    bit is copied into the bits above it before the word is narrowed to the
    type of the signal.  This holds for the little-endian and the
    big-endian packing, and for the whole send and receive path when the
    update bit of the signal, if it has one, is not a bit of its own
    field. *)
Theorem signed_signal_roundtrip
        (be : bool) (signal : Com_SignalConfigType) (x : Z) (dst : list Z)
        (m : ram) :
  is_signed (type signal) = true ->
  1 <= Z.of_nat (BitSize signal) <= 32 ->
  - 2 ^ (Z.of_nat (BitSize signal) - 1) <= x
    < 2 ^ (Z.of_nat (BitSize signal) - 1) ->
  - 2 ^ (8 * Z.of_nat (type_size (type signal)) - 1) <= x
    < 2 ^ (8 * Z.of_nat (type_size (type signal)) - 1) ->
  (type_size (type signal) <= length dst)%nat ->
  (exists m1,
      comSendSignalLittle be signal
        (Some (int_rep be (type_size (type signal)) x)) m = Some (E_OK, m1) /\
      comReceiveSignalLittle be signal (Some dst) m1 =
      Some (E_OK, Some (int_rep be (type_size (type signal)) x
                        ++ skipn (type_size (type signal)) dst))) /\
  (exists m1,
      comSendSignalBig be signal
        (Some (int_rep be (type_size (type signal)) x)) m = Some (E_OK, m1) /\
      comReceiveSignalBig be signal (Some dst) m1 =
      Some (E_OK, Some (int_rep be (type_size (type signal)) x
                        ++ skipn (type_size (type signal)) dst))) /\
  (Endianness signal <> OPAQUE ->
   ubit_outside_field signal = true ->
   exists m1 m2,
     comSendSignal be signal
       (Some (int_rep be (type_size (type signal)) x)) m = Some (E_OK, m1) /\
     comReceiveSignal be signal (Some dst) m1 =
     Some (E_OK, m2, Some (int_rep be (type_size (type signal)) x
                           ++ skipn (type_size (type signal)) dst))) /\
  int_val be (type_size (type signal))
          (int_rep be (type_size (type signal)) x
           ++ skipn (type_size (type signal)) dst) = x.
Proof.
  intros Hs Hw Hx Ht Hd.
  destruct (is_signed_size _ Hs) as [Hn Hu].
  pose proof (comStoreSignalValue_signed be signal x dst Hs Hw Hx Hd) as St.
  cbv zeta in St.
  assert (L : comReceiveSignalLittle be signal (Some dst)
                (Std_BitSetLittleEndian m (ptr signal)
                   (x mod 2 ^ (8 * Z.of_nat (type_size (type signal))))
                   (BitPosition signal) (BitSize signal)) =
              Some (E_OK, Some (int_rep be (type_size (type signal)) x
                                ++ skipn (type_size (type signal)) dst))).
  { unfold comReceiveSignalLittle. now rewrite LittleEndian_roundtrip. }
  assert (B : comReceiveSignalBig be signal (Some dst)
                (Std_BitSetBigEndian m (ptr signal)
                   (x mod 2 ^ (8 * Z.of_nat (type_size (type signal))))
                   (BitPosition signal) (BitSize signal)) =
              Some (E_OK, Some (int_rep be (type_size (type signal)) x
                                ++ skipn (type_size (type signal)) dst))).
  { unfold comReceiveSignalBig. now rewrite BigEndian_roundtrip. }
  split; [| split; [| split]].
  - eexists. split; [now apply comSendSignalLittle_int_rep | exact L].
  - eexists. split; [now apply comSendSignalBig_int_rep | exact B].
  - intros He Hub. unfold comSendSignal, comReceiveSignal.
    rewrite Hu. unfold ubit_outside_field, sig_field in Hub. rewrite Hu in Hub.
    replace (Nat.eqb (type_size (type signal)) 0) with false in Hub
      by (symmetry; apply Nat.eqb_neq; lia).
    cbn [COM_USE_SIGNAL_UPDATE_BIT].
    destruct (Endianness signal) eqn:Ee; [| | congruence]; cbn [is_OPAQUE orb].
    + rewrite comSendSignalBig_int_rep by assumption.
      destruct (UpdateBit signal) as [u |].
      * cbn [is_OPAQUE orb] in Hub. apply negb_true_iff in Hub.
        do 2 eexists. split; [reflexivity |].
        rewrite Std_BitGet_BitSet, Nat.eqb_refl.
        unfold comReceiveSignalBig.
        change (Std_BitClear ?a ?b ?c) with (Std_BitWrite a b c false).
        change (Std_BitSet ?a ?b ?c) with (Std_BitWrite a b c true).
        rewrite !Std_BitGetBigEndian_BitWrite by assumption.
        unfold comReceiveSignalBig in B. rewrite B. reflexivity.
      * do 2 eexists. split; [reflexivity |]. now rewrite B.
    + rewrite comSendSignalLittle_int_rep by assumption.
      destruct (UpdateBit signal) as [u |].
      * cbn [is_OPAQUE orb] in Hub. apply negb_true_iff in Hub.
        do 2 eexists. split; [reflexivity |].
        rewrite Std_BitGet_BitSet, Nat.eqb_refl.
        unfold comReceiveSignalLittle.
        change (Std_BitClear ?a ?b ?c) with (Std_BitWrite a b c false).
        change (Std_BitSet ?a ?b ?c) with (Std_BitWrite a b c true).
        rewrite !Std_BitGetLittleEndian_BitWrite by assumption.
        unfold comReceiveSignalLittle in L. rewrite L. reflexivity.
      * do 2 eexists. split; [reflexivity |]. now rewrite L.
  - apply int_val_int_rep; assumption.
Qed.

(** ** The update bit *)

Lemma comSendSignal_sets_update_bit (be : bool)
      (signal : Com_SignalConfigType) (u : nat) (src : cptr) (m m1 : ram)
      (ret : Std_ReturnType) :
  UpdateBit signal = Some u ->
  comSendSignal be signal src m = Some (ret, m1) ->
  Std_BitGet m1 (ptr signal) u = true.
Proof.
  intros Hu H. unfold comSendSignal in H. rewrite Hu in H.
  cbn [COM_USE_SIGNAL_UPDATE_BIT] in H.
  match type of H with
  | match ?w with _ => _ end = _ => destruct w as [[r m'] |]
  end; [| discriminate].
  injection H as _ <-. now rewrite Std_BitGet_BitSet, Nat.eqb_refl.
Qed.

(** With the bit set, reception clears it and then reads as a signal
    without update bit does. *)
Lemma comReceiveSignal_gate_open (be : bool) (signal : Com_SignalConfigType)
      (u : nat) (p : cptr) (m : ram) :
  UpdateBit signal = Some u ->
  Std_BitGet m (ptr signal) u = true ->
  comReceiveSignal be signal p m =
  comReceiveSignal be (no_update_bit signal) p (Std_BitClear m (ptr signal) u).
Proof.
  intros Hu Hb. unfold comReceiveSignal.
  rewrite Hu. cbn [COM_USE_SIGNAL_UPDATE_BIT]. rewrite Hb. reflexivity.
Qed.

Lemma comReceiveSignal_gate_closed (be : bool) (signal : Com_SignalConfigType)
      (u : nat) (p : cptr) (m : ram) :
  UpdateBit signal = Some u ->
  Std_BitGet m (ptr signal) u = false ->
  comReceiveSignal be signal p m = Some (E_NOT_OK, m, p).
Proof.
  intros Hu Hb. unfold comReceiveSignal.
  rewrite Hu. cbn [COM_USE_SIGNAL_UPDATE_BIT]. rewrite Hb. reflexivity.
Qed.

(** ** The scheduler loops, one I-PDU at a time *)

Lemma quiet_refl (i : nat) (s : Com_State) : quiet i s s.
Proof.
  repeat split. exists []. split; [reflexivity | constructor].
Qed.

Lemma quiet_trans (i : nat) (s1 s2 s3 : Com_State) :
  quiet i s1 s2 -> quiet i s2 s3 -> quiet i s1 s3.
Proof.
  intros (G1 & R1 & T1 & e1 & E1 & F1) (G2 & R2 & T2 & e2 & E2 & F2).
  repeat split; try congruence.
  exists (e2 ++ e1). split.
  - rewrite E2, E1. apply app_assoc.
  - apply Forall_app. split; assumption.
Qed.

Lemma quiet_tx_count (i : nat) (s s' : Com_State) :
  quiet i s s' -> tx_count i (trace s') = tx_count i (trace s).
Proof.
  intros (_ & _ & _ & evs & -> & F). unfold tx_count.
  rewrite filter_app, length_app.
  replace (filter (is_transmit_of i) evs) with (@nil Com_Event);
    [reflexivity |].
  symmetry. induction F as [| e evs He _ IH]; [reflexivity |].
  simpl. destruct e; simpl in *; try exact IH.
  apply Nat.eqb_neq in He. now rewrite He.
Qed.

Lemma quiet_timeout_count (i : nat) (s s' : Com_State) :
  quiet i s s' -> timeout_count i (trace s') = timeout_count i (trace s).
Proof.
  intros (_ & _ & _ & evs & -> & F). unfold timeout_count.
  rewrite filter_app, length_app.
  replace (filter (is_timeout_of i) evs) with (@nil Com_Event);
    [reflexivity |].
  symmetry. induction F as [| e evs He _ IH]; [reflexivity |].
  simpl. destruct e; simpl in *; try exact IH.
  apply Nat.eqb_neq in He. now rewrite He.
Qed.

Lemma quiet_emit (i : nat) (s : Com_State) (e : Com_Event) :
  event_pdu e <> i -> quiet i s (emit s e).
Proof.
  intros H. repeat split. exists [e]. split; [reflexivity |].
  constructor; [exact H | constructor].
Qed.

Lemma quiet_notify (i j : nat) (s : Com_State) (cb : option Com_CallbackType)
      (ev : nat -> Com_CallbackType -> Com_Event) :
  (forall f, event_pdu (ev j f) = j) ->
  j <> i -> quiet i s (notify s cb (ev j)).
Proof.
  intros He H. destruct cb as [f |]; simpl.
  - apply quiet_emit. now rewrite He.
  - apply quiet_refl.
Qed.

Lemma quiet_set_txTimer (i j t : nat) (s : Com_State) :
  j <> i -> quiet i s (set_txTimer s j t).
Proof.
  intros H. repeat split.
  - simpl. apply Nat.eqb_neq in H. rewrite Nat.eqb_sym in H. now rewrite H.
  - exists []. split; [reflexivity | constructor].
Qed.

Lemma quiet_set_rxTimer (i j t : nat) (s : Com_State) :
  j <> i -> quiet i s (set_rxTimer s j t).
Proof.
  intros H. repeat split.
  - simpl. apply Nat.eqb_neq in H. rewrite Nat.eqb_sym in H. now rewrite H.
  - exists []. split; [reflexivity | constructor].
Qed.

Lemma quiet_set_pduRam (i : nat) (s : Com_State) (m : ram) :
  quiet i s (set_pduRam s m).
Proof.
  repeat split. exists []. split; [reflexivity | constructor].
Qed.

Section Loops.

Variable PduR_ComTransmit : list Com_Event -> nat -> list Z -> Std_ReturnType.

Lemma Com_MainFunctionTx_body_quiet (i j : nat) (p : Com_IPduConfigType)
      (s : Com_State) :
  j <> i -> quiet i s (Com_MainFunctionTx_body PduR_ComTransmit j p s).
Proof.
  intros H. unfold Com_MainFunctionTx_body.
  destruct (txConfig p) as [tx |]; [| apply quiet_refl].
  destruct (group_active s p); [| apply quiet_refl].
  destruct (Nat.ltb 0 (txTimer s j)); [| apply quiet_refl].
  cbv zeta.
  set (s1 := set_txTimer s j (txTimer s j - 1)).
  assert (Q1 : quiet i s s1) by (apply quiet_set_txTimer; exact H).
  destruct (Nat.eqb (txTimer s1 j) 0); [| exact Q1].
  apply (quiet_trans i s s1); [exact Q1 |].
  unfold transmit. cbv zeta.
  match goal with
  | |- context [PduR_ComTransmit ?a ?b ?c] =>
      destruct (PduR_ComTransmit a b c) eqn:Er
  end.
  - cbn [COM_USE_SIGNAL_UPDATE_BIT].
    match goal with
    | |- quiet _ _ (set_pduRam (set_txTimer (emit _ ?e) _ ?t) _) =>
        apply (quiet_trans i s1 (emit s1 e)); [now apply quiet_emit |];
        apply (quiet_trans i (emit s1 e) (set_txTimer (emit s1 e) j t));
        [now apply quiet_set_txTimer | apply quiet_set_pduRam]
    end.
  - match goal with
    | |- quiet _ _ (set_txTimer (emit _ ?e) _ ?t) =>
        apply (quiet_trans i s1 (emit s1 e)); [now apply quiet_emit |];
        now apply quiet_set_txTimer
    end.
Qed.

Lemma Com_MainFunctionTx_body_inactive (j : nat) (p : Com_IPduConfigType)
      (s : Com_State) :
  group_active s p = false ->
  Com_MainFunctionTx_body PduR_ComTransmit j p s = s.
Proof.
  intros H. unfold Com_MainFunctionTx_body. rewrite H.
  now destruct (txConfig p).
Qed.

Lemma group_active_quiet (i : nat) (s s' : Com_State)
      (p : Com_IPduConfigType) :
  quiet i s s' -> group_active s' p = group_active s p.
Proof. intros (G & _). unfold group_active. now rewrite G. Qed.

(** A pass over I-PDUs other than [i] does not concern [i]. *)
Lemma Com_MainFunctionTx_loop_quiet (i : nat) (pdus : list Com_IPduConfigType) :
  forall (k : nat) (s : Com_State),
    (i < k \/ k + length pdus <= i)%nat ->
    quiet i s (Com_MainFunctionTx_loop PduR_ComTransmit pdus k s).
Proof.
  induction pdus as [| p rest IH]; intros k s H; simpl.
  - apply quiet_refl.
  - apply (quiet_trans i s (Com_MainFunctionTx_body PduR_ComTransmit k p s)).
    + apply Com_MainFunctionTx_body_quiet. simpl in H. lia.
    + apply IH. simpl in H. lia.
Qed.

Lemma Com_MainFunctionTx_loop_app (l1 l2 : list Com_IPduConfigType) :
  forall (k : nat) (s : Com_State),
    Com_MainFunctionTx_loop PduR_ComTransmit (l1 ++ l2) k s =
    Com_MainFunctionTx_loop PduR_ComTransmit l2 (k + length l1)
      (Com_MainFunctionTx_loop PduR_ComTransmit l1 k s).
Proof.
  induction l1 as [| p l1 IH]; intros k s; simpl.
  - now rewrite Nat.add_0_r.
  - rewrite IH. f_equal. lia.
Qed.

(** A pass handles I-PDU [i] once, between the I-PDUs before it and those
    after it. *)
Lemma Com_MainFunctionTx_loop_at (pdus : list Com_IPduConfigType) (i : nat)
      (p : Com_IPduConfigType) (s : Com_State) :
  nth_error pdus i = Some p ->
  exists s1,
    quiet i s s1 /\
    quiet i (Com_MainFunctionTx_body PduR_ComTransmit i p s1)
          (Com_MainFunctionTx_loop PduR_ComTransmit pdus 0 s).
Proof.
  intros H. destruct (nth_error_split _ _ H) as (l1 & l2 & -> & Hl).
  rewrite Com_MainFunctionTx_loop_app. simpl. rewrite Hl.
  exists (Com_MainFunctionTx_loop PduR_ComTransmit l1 0 s). split.
  - apply Com_MainFunctionTx_loop_quiet. lia.
  - apply Com_MainFunctionTx_loop_quiet. lia.
Qed.

Lemma Com_MainFunctionRx_body_quiet (i j : nat) (p : Com_IPduConfigType)
      (s : Com_State) :
  j <> i -> quiet i s (Com_MainFunctionRx_body j p s).
Proof.
  intros H. unfold Com_MainFunctionRx_body.
  destruct (rxConfig p) as [rx |]; [| apply quiet_refl].
  destruct (group_active s p); [| apply quiet_refl].
  destruct (Nat.ltb 0 (rxTimer s j)); [| apply quiet_refl].
  cbv zeta.
  set (s1 := set_rxTimer s j (rxTimer s j - 1)).
  assert (Q1 : quiet i s s1) by (apply quiet_set_rxTimer; exact H).
  destruct (Nat.eqb (rxTimer s1 j) 0); [| exact Q1].
  apply (quiet_trans i s s1); [exact Q1 |].
  apply quiet_notify; [reflexivity | exact H].
Qed.

Lemma Com_MainFunctionRx_loop_quiet (i : nat) (pdus : list Com_IPduConfigType) :
  forall (k : nat) (s : Com_State),
    (i < k \/ k + length pdus <= i)%nat ->
    quiet i s (Com_MainFunctionRx_loop pdus k s).
Proof.
  induction pdus as [| p rest IH]; intros k s H; simpl.
  - apply quiet_refl.
  - apply (quiet_trans i s (Com_MainFunctionRx_body k p s)).
    + apply Com_MainFunctionRx_body_quiet. simpl in H. lia.
    + apply IH. simpl in H. lia.
Qed.

Lemma Com_MainFunctionRx_loop_app (l1 l2 : list Com_IPduConfigType) :
  forall (k : nat) (s : Com_State),
    Com_MainFunctionRx_loop (l1 ++ l2) k s =
    Com_MainFunctionRx_loop l2 (k + length l1)
      (Com_MainFunctionRx_loop l1 k s).
Proof.
  induction l1 as [| p l1 IH]; intros k s; simpl.
  - now rewrite Nat.add_0_r.
  - rewrite IH. f_equal. lia.
Qed.

Lemma Com_MainFunctionRx_loop_at (pdus : list Com_IPduConfigType) (i : nat)
      (p : Com_IPduConfigType) (s : Com_State) :
  nth_error pdus i = Some p ->
  exists s1,
    quiet i s s1 /\
    quiet i (Com_MainFunctionRx_body i p s1)
          (Com_MainFunctionRx_loop pdus 0 s).
Proof.
  intros H. destruct (nth_error_split _ _ H) as (l1 & l2 & -> & Hl).
  rewrite Com_MainFunctionRx_loop_app. simpl. rewrite Hl.
  exists (Com_MainFunctionRx_loop l1 0 s). split.
  - apply Com_MainFunctionRx_loop_quiet. lia.
  - apply Com_MainFunctionRx_loop_quiet. lia.
Qed.

End Loops.

(** ** I-PDU groups *)

(** C4.  While the group mask of an I-PDU does not intersect the group
    status, a call of [Com_MainFunctionTx] leaves the timer of the I-PDU
    as it is and produces no event for it (no call of [PduR_ComTransmit]
    in particular), and [Com_RxIndication] for it changes nothing: no byte
    is copied, no timer is set, and no callback is called. *)
Theorem group_gating
        (PduR_ComTransmit : list Com_Event -> nat -> list Z -> Std_ReturnType)
        (cfg : Com_ConfigType) (i : nat) (pdu : Com_IPduConfigType)
        (s : Com_State) (info : PduInfoType) :
  nth_error (IPduConfigs cfg) i = Some pdu ->
  Z.land (GroupStatus s) (GroupRefMask pdu) = 0 ->
  (txTimer (Com_MainFunctionTx PduR_ComTransmit cfg s) i = txTimer s i /\
   exists evs,
     trace (Com_MainFunctionTx PduR_ComTransmit cfg s) = evs ++ trace s /\
     Forall (fun e => event_pdu e <> i) evs) /\
  Com_RxIndication cfg i info s = Some s.
Proof.
  intros Hi Hg.
  assert (Ha : group_active s pdu = false).
  { unfold group_active. rewrite Hg. reflexivity. }
  split.
  - unfold Com_MainFunctionTx. cbn [COM_USE_CAN].
    destruct (Com_MainFunctionTx_loop_at PduR_ComTransmit _ _ _ s Hi)
      as (s1 & Q1 & Q2).
    rewrite Com_MainFunctionTx_body_inactive in Q2
      by (now rewrite (group_active_quiet i s s1 pdu Q1)).
    destruct (quiet_trans _ _ _ _ Q1 Q2) as (_ & _ & T & E).
    split; assumption.
  - unfold Com_RxIndication. rewrite Hi, Ha.
    now destruct (rxConfig pdu).
Qed.

(** ** The transmission schedule *)

Lemma tx_due_spec (off C t : nat) :
  tx_due off C t = true <-> exists k, t = (off + k * C)%nat.
Proof.
  unfold tx_due. split.
  - intros H. apply andb_prop in H. destruct H as [Hle H].
    apply Nat.leb_le in Hle.
    destruct (Nat.eqb_spec C 0) as [-> | HC].
    + apply Nat.eqb_eq in H. exists 0%nat. lia.
    + apply Nat.eqb_eq in H.
      exists ((t - off) / C)%nat.
      pose proof (Nat.div_mod_eq (t - off) C). lia.
  - intros [k ->]. apply andb_true_intro. split; [apply Nat.leb_le; lia |].
    destruct (Nat.eqb_spec C 0) as [-> | HC].
    + apply Nat.eqb_eq. lia.
    + apply Nat.eqb_eq.
      replace (off + k * C - off)%nat with (k * C)%nat by lia.
      now apply Nat.Div0.mod_mul.
Qed.

(** One tick of the timer of a TX I-PDU whose transmissions succeed. *)
Lemma tx_timer_at_step (off C n : nat) :
  (off = 0 -> C = 0)%nat ->
  (tx_timer_at off C n = 0 ->
   tx_due off C (S n) = false /\ tx_timer_at off C (S n) = 0)%nat /\
  (tx_timer_at off C n = 1 ->
   tx_due off C (S n) = true /\ tx_timer_at off C (S n) = C)%nat /\
  (1 < tx_timer_at off C n ->
   tx_due off C (S n) = false /\
   tx_timer_at off C (S n) = tx_timer_at off C n - 1)%nat.
Proof.
  intros H0. unfold tx_timer_at, tx_due.
  destruct (Nat.ltb_spec n off) as [Lt | Ge].
  - (* before the first transmission *)
    destruct (Nat.ltb_spec (S n) off) as [Lt' | Ge'].
    + replace (Nat.leb off (S n)) with false
        by (symmetry; apply Nat.leb_gt; lia).
      repeat split; simpl; lia.
    + assert (E : S n = off) by lia.
      replace (Nat.leb off (S n)) with true
        by (symmetry; apply Nat.leb_le; lia).
      rewrite E, Nat.sub_diag.
      destruct (Nat.eqb_spec C 0) as [-> | HC].
      * rewrite Nat.eqb_refl. repeat split; simpl; lia.
      * rewrite Nat.Div0.mod_0_l. repeat split; simpl; lia.
  - replace (Nat.ltb (S n) off) with false
      by (symmetry; apply Nat.ltb_ge; lia).
    replace (Nat.leb off (S n)) with true
      by (symmetry; apply Nat.leb_le; lia).
    destruct (Nat.eqb_spec C 0) as [-> | HC].
    + replace (Nat.eqb (S n) off) with false
        by (symmetry; apply Nat.eqb_neq; lia).
      repeat split; simpl; lia.
    + pose proof (Nat.div_mod_eq (n - off) C) as D.
      pose proof (Nat.mod_upper_bound (n - off) C HC) as U.
      set (q := ((n - off) / C)%nat) in *.
      set (r := ((n - off) mod C)%nat) in *.
      destruct (Nat.eq_dec (S r) C) as [E | E].
      * assert (M : ((S n - off) mod C = 0)%nat).
        { symmetry. apply Nat.mod_unique with (q := S q); nia. }
        rewrite M. simpl. repeat split; lia.
      * assert (M : ((S n - off) mod C = S r)%nat).
        { symmetry. apply Nat.mod_unique with (q := q); nia. }
        rewrite M. simpl. repeat split; lia.
Qed.

(** ** Starting a group *)

Section Start.

Variable CPU_BIG_ENDIAN : bool.

Lemma group_bit (mask : Z) (id : nat) :
  Z.land mask (Z.shiftl 1 (Z.of_nat id)) <> 0 <->
  Z.testbit mask (Z.of_nat id) = true.
Proof.
  rewrite Z.shiftl_1_l. split.
  - intros H. destruct (Z.testbit mask (Z.of_nat id)) eqn:Hb; [reflexivity |].
    exfalso. apply H. apply Z.bits_inj'. intros k Hk.
    rewrite Z.land_spec, Z.pow2_bits_eqb, Z.testbit_0_l by lia.
    destruct (Z.eqb_spec (Z.of_nat id) k) as [<- | _];
      [now rewrite Hb | apply andb_false_r].
  - intros Hb E. apply (f_equal (fun z => Z.testbit z (Z.of_nat id))) in E.
    rewrite Z.land_spec, Hb, Z.pow2_bits_eqb, Z.eqb_refl, Z.testbit_0_l in E
      by lia.
    discriminate.
Qed.

(** An I-PDU of a group is active once the bit of the group is set. *)
Lemma group_active_started (s : Com_State) (p : Com_IPduConfigType)
      (id : nat) :
  Z.testbit (GroupRefMask p) (Z.of_nat id) = true ->
  Z.testbit (GroupStatus s) (Z.of_nat id) = true ->
  group_active s p = true.
Proof.
  intros Hm Hs. unfold group_active. apply negb_true_iff, Z.eqb_neq.
  intros E. apply (f_equal (fun z => Z.testbit z (Z.of_nat id))) in E.
  rewrite Z.land_spec, Hm, Hs, Z.testbit_0_l in E. discriminate.
Qed.

Lemma Com_IpduGroupStart_body_quiet (id : nat) (initialize : bool)
      (i j : nat) (p : Com_IPduConfigType) (s s' : Com_State) :
  j <> i ->
  Com_IpduGroupStart_body CPU_BIG_ENDIAN id initialize j p s = Some s' ->
  quiet i s s'.
Proof.
  intros H. unfold Com_IpduGroupStart_body.
  destruct (int_shl1 id) as [bit |]; [| discriminate].
  destruct (Z.land (GroupRefMask p) bit =? 0).
  - intros E. injection E as <-. apply quiet_refl.
  - assert (Q : forall s1 s2, quiet i s s1 ->
                match rxConfig p, txConfig p with
                | Some rx, _ =>
                    if Nat.ltb 0 (FirstTimeout rx)
                    then Some (set_rxTimer s1 j (FirstTimeout rx))
                    else Some (set_rxTimer s1 j (Timeout rx))
                | None, Some tx =>
                    if Nat.ltb 0 (FirstTime tx)
                    then Some (set_txTimer s1 j (FirstTime tx))
                    else Some (set_txTimer s1 j (CycleTime tx))
                | None, None => Some s1
                end = Some s2 -> quiet i s s2).
    { intros s1 s2 Q1 E. apply (quiet_trans i s s1); [exact Q1 |].
      destruct (rxConfig p) as [rx |]; [| destruct (txConfig p) as [tx |]].
      - destruct (Nat.ltb 0 (FirstTimeout rx)); injection E as <-;
          now apply quiet_set_rxTimer.
      - destruct (Nat.ltb 0 (FirstTime tx)); injection E as <-;
          now apply quiet_set_txTimer.
      - injection E as <-. apply quiet_refl. }
    destruct initialize.
    + destruct (comIPduDataInit CPU_BIG_ENDIAN p (pduRam s)) as [m |];
        [| discriminate].
      apply Q. apply quiet_set_pduRam.
    + apply Q. apply quiet_refl.
Qed.

Lemma Com_IpduGroupStart_loop_quiet (id : nat) (initialize : bool) (i : nat)
      (pdus : list Com_IPduConfigType) :
  forall (k : nat) (s s' : Com_State),
    (i < k \/ k + length pdus <= i)%nat ->
    Com_IpduGroupStart_loop CPU_BIG_ENDIAN id initialize pdus k s = Some s' ->
    quiet i s s'.
Proof.
  induction pdus as [| p rest IH]; intros k s s' H E; simpl in E.
  - injection E as <-. apply quiet_refl.
  - destruct (Com_IpduGroupStart_body CPU_BIG_ENDIAN id initialize k p s)
      as [s1 |] eqn:E1; [| discriminate].
    apply (quiet_trans i s s1).
    + apply (Com_IpduGroupStart_body_quiet id initialize i k p s s1);
        [simpl in H; lia | exact E1].
    + apply (IH (S k)); [simpl in H; lia | exact E].
Qed.

Lemma Com_IpduGroupStart_loop_app (id : nat) (initialize : bool)
      (l1 l2 : list Com_IPduConfigType) :
  forall (k : nat) (s : Com_State),
    Com_IpduGroupStart_loop CPU_BIG_ENDIAN id initialize (l1 ++ l2) k s =
    match Com_IpduGroupStart_loop CPU_BIG_ENDIAN id initialize l1 k s with
    | Some s1 =>
        Com_IpduGroupStart_loop CPU_BIG_ENDIAN id initialize l2
                                (k + length l1) s1
    | None => None
    end.
Proof.
  induction l1 as [| p l1 IH]; intros k s; simpl.
  - now rewrite Nat.add_0_r.
  - destruct (Com_IpduGroupStart_body CPU_BIG_ENDIAN id initialize k p s)
      as [s1 |]; [| reflexivity].
    rewrite IH. now replace (S k + length l1)%nat with (k + S (length l1))%nat
      by lia.
Qed.

Lemma Com_IpduGroupStart_loop_at (id : nat) (initialize : bool)
      (pdus : list Com_IPduConfigType) (i : nat) (p : Com_IPduConfigType)
      (s s' : Com_State) :
  nth_error pdus i = Some p ->
  Com_IpduGroupStart_loop CPU_BIG_ENDIAN id initialize pdus 0 s = Some s' ->
  exists s1 s2,
    quiet i s s1 /\
    Com_IpduGroupStart_body CPU_BIG_ENDIAN id initialize i p s1 = Some s2 /\
    quiet i s2 s'.
Proof.
  intros H E. destruct (nth_error_split _ _ H) as (l1 & l2 & -> & Hl).
  rewrite Com_IpduGroupStart_loop_app in E.
  destruct (Com_IpduGroupStart_loop CPU_BIG_ENDIAN id initialize l1 0 s)
    as [s1 |] eqn:E1; [| discriminate].
  simpl in E. rewrite Hl in E.
  destruct (Com_IpduGroupStart_body CPU_BIG_ENDIAN id initialize i p s1)
    as [s2 |] eqn:E2; [| discriminate].
  exists s1, s2. split; [| split; [exact E2 |]].
  - apply (Com_IpduGroupStart_loop_quiet id initialize i l1 0 s s1);
      [lia | exact E1].
  - apply (Com_IpduGroupStart_loop_quiet id initialize i l2 (S i) s2 s');
      [lia | exact E].
Qed.

(** What the start of a group establishes for one of its I-PDUs: the
    I-PDU is active and its timer holds the initial offset. *)
Lemma Com_IpduGroupStart_arms (cfg : Com_ConfigType) (id : nat)
      (initialize : bool) (i : nat) (p : Com_IPduConfigType)
      (s s0 : Com_State) :
  (id < numOfGroups cfg)%nat ->
  nth_error (IPduConfigs cfg) i = Some p ->
  Z.land (GroupRefMask p) (Z.shiftl 1 (Z.of_nat id)) <> 0 ->
  Com_IpduGroupStart CPU_BIG_ENDIAN cfg id initialize s = Some s0 ->
  group_active s0 p = true /\
  match rxConfig p, txConfig p with
  | Some rx, _ => rxTimer s0 i = rx_offset rx
  | None, Some tx => txTimer s0 i = tx_offset tx
  | None, None => True
  end.
Proof.
  intros Hid Hi Hm E. unfold Com_IpduGroupStart in E.
  replace (Nat.ltb id (numOfGroups cfg)) with true in E
    by (symmetry; apply Nat.ltb_lt; exact Hid).
  destruct (int_shl1 id) as [bit |] eqn:Hbit; [| discriminate].
  destruct (int_shl1_inv _ _ Hbit) as [Hlt ->].
  destruct (Com_IpduGroupStart_loop_at _ _ _ _ _ _ _ Hi E)
    as (s1 & s2 & Q1 & E2 & Q2).
  unfold Com_IpduGroupStart_body in E2. rewrite Hbit in E2.
  replace (Z.land (GroupRefMask p) (Z.shiftl 1 (Z.of_nat id)) =? 0)
    with false in E2 by (symmetry; apply Z.eqb_neq; exact Hm).
  assert (Q12 : exists s1', quiet i s1 s1' /\
            match rxConfig p, txConfig p with
            | Some rx, _ =>
                if Nat.ltb 0 (FirstTimeout rx)
                then Some (set_rxTimer s1' i (FirstTimeout rx))
                else Some (set_rxTimer s1' i (Timeout rx))
            | None, Some tx =>
                if Nat.ltb 0 (FirstTime tx)
                then Some (set_txTimer s1' i (FirstTime tx))
                else Some (set_txTimer s1' i (CycleTime tx))
            | None, None => Some s1'
            end = Some s2).
  { destruct initialize.
    - destruct (comIPduDataInit CPU_BIG_ENDIAN p (pduRam s1)) as [m |];
        [| discriminate].
      exists (set_pduRam s1 m). split; [apply quiet_set_pduRam | exact E2].
    - exists s1. split; [apply quiet_refl | exact E2]. }
  destruct Q12 as (s1' & Q1' & E2').
  pose proof (quiet_trans _ _ _ _ Q1 Q1') as Qa.
  destruct Qa as (Ga & _ & _ & ea & Ea & Fa).
  destruct Q2 as (G2 & R2 & T2 & e2 & Ee2 & F2).
  assert (Hs2 : GroupStatus s2 = GroupStatus s1' /\
                match rxConfig p, txConfig p with
                | Some rx, _ => rxTimer s2 i = rx_offset rx
                | None, Some tx => txTimer s2 i = tx_offset tx
                | None, None => True
                end).
  { unfold rx_offset, tx_offset.
    destruct (rxConfig p) as [rx |]; [| destruct (txConfig p) as [tx |]].
    - destruct (Nat.ltb 0 (FirstTimeout rx)); injection E2' as <-; simpl;
        rewrite Nat.eqb_refl; repeat split; reflexivity.
    - destruct (Nat.ltb 0 (FirstTime tx)); injection E2' as <-; simpl;
        rewrite Nat.eqb_refl; repeat split; reflexivity.
    - injection E2' as <-. repeat split; reflexivity. }
  destruct Hs2 as (Gs & Tm).
  split.
  - apply (group_active_started s0 p id).
    + now apply group_bit.
    + rewrite G2, Gs, Ga. simpl.
      rewrite Z.lor_spec, Z.shiftl_1_l, Z.pow2_bits_eqb, Z.eqb_refl by lia.
      apply orb_true_r.
  - destruct (rxConfig p); [congruence |].
    destruct (txConfig p); [congruence | exact I].
Qed.

End Start.

(** ** The cyclic transmission *)

Section Cycle.

Variable PduR_ComTransmit : list Com_Event -> nat -> list Z -> Std_ReturnType.
Hypothesis transmit_ok : forall h id sdu, PduR_ComTransmit h id sdu = E_OK.

Lemma tx_count_emit_transmit (i id : nat) (sdu : list Z) (r : Std_ReturnType)
      (tr : list Com_Event) :
  tx_count i (EvTransmit i id sdu r :: tr) = S (tx_count i tr).
Proof. unfold tx_count. simpl. now rewrite Nat.eqb_refl. Qed.

(** One I-PDU in one pass, by the value of its timer. *)
Lemma Com_MainFunctionTx_body_ok (i : nat) (p : Com_IPduConfigType)
      (tx : Com_IPduTxConfigType) (s : Com_State) :
  txConfig p = Some tx ->
  group_active s p = true ->
  GroupStatus (Com_MainFunctionTx_body PduR_ComTransmit i p s)
  = GroupStatus s /\
  (txTimer s i = 0%nat ->
   txTimer (Com_MainFunctionTx_body PduR_ComTransmit i p s) i = 0%nat /\
   tx_count i (trace (Com_MainFunctionTx_body PduR_ComTransmit i p s))
   = tx_count i (trace s)) /\
  (txTimer s i = 1%nat ->
   txTimer (Com_MainFunctionTx_body PduR_ComTransmit i p s) i = CycleTime tx /\
   tx_count i (trace (Com_MainFunctionTx_body PduR_ComTransmit i p s))
   = S (tx_count i (trace s))) /\
  ((1 < txTimer s i)%nat ->
   txTimer (Com_MainFunctionTx_body PduR_ComTransmit i p s) i
   = (txTimer s i - 1)%nat /\
   tx_count i (trace (Com_MainFunctionTx_body PduR_ComTransmit i p s))
   = tx_count i (trace s)).
Proof.
  intros Htx Ha. unfold Com_MainFunctionTx_body. rewrite Htx, Ha.
  destruct (Nat.ltb_spec 0 (txTimer s i)) as [Pos | Zero].
  - cbv zeta. cbn [txTimer set_txTimer]. rewrite Nat.eqb_refl.
    destruct (Nat.eqb_spec (txTimer s i - 1) 0) as [E | E].
    + unfold transmit. cbv zeta. rewrite transmit_ok.
      cbn [COM_USE_SIGNAL_UPDATE_BIT].
      cbn [GroupStatus txTimer trace set_pduRam set_txTimer emit].
      rewrite Nat.eqb_refl, tx_count_emit_transmit.
      repeat split; intros; lia || reflexivity.
    + cbn [GroupStatus txTimer trace set_txTimer]. rewrite Nat.eqb_refl.
      repeat split; intros; lia || reflexivity.
  - repeat split; intros; lia || reflexivity.
Qed.

(** The same for a whole pass of [Com_MainFunctionTx]. *)
Lemma Com_MainFunctionTx_ok (cfg : Com_ConfigType) (i : nat)
      (p : Com_IPduConfigType) (tx : Com_IPduTxConfigType) (s : Com_State) :
  nth_error (IPduConfigs cfg) i = Some p ->
  txConfig p = Some tx ->
  group_active s p = true ->
  group_active (Com_MainFunctionTx PduR_ComTransmit cfg s) p = true /\
  (txTimer s i = 0%nat ->
   txTimer (Com_MainFunctionTx PduR_ComTransmit cfg s) i = 0%nat /\
   tx_count i (trace (Com_MainFunctionTx PduR_ComTransmit cfg s))
   = tx_count i (trace s)) /\
  (txTimer s i = 1%nat ->
   txTimer (Com_MainFunctionTx PduR_ComTransmit cfg s) i = CycleTime tx /\
   tx_count i (trace (Com_MainFunctionTx PduR_ComTransmit cfg s))
   = S (tx_count i (trace s))) /\
  ((1 < txTimer s i)%nat ->
   txTimer (Com_MainFunctionTx PduR_ComTransmit cfg s) i
   = (txTimer s i - 1)%nat /\
   tx_count i (trace (Com_MainFunctionTx PduR_ComTransmit cfg s))
   = tx_count i (trace s)).
Proof.
  intros Hi Htx Ha. unfold Com_MainFunctionTx. cbn [COM_USE_CAN].
  destruct (Com_MainFunctionTx_loop_at PduR_ComTransmit _ _ _ s Hi)
    as (s1 & Q1 & Q2).
  assert (Ha1 : group_active s1 p = true)
    by (now rewrite (group_active_quiet i s s1 p Q1)).
  destruct (Com_MainFunctionTx_body_ok i p tx s1 Htx Ha1)
    as (G & B0 & B1 & B2).
  pose proof (quiet_tx_count _ _ _ Q1) as C1.
  pose proof (quiet_tx_count _ _ _ Q2) as C2.
  destruct Q1 as (G1 & _ & T1 & _). destruct Q2 as (G2 & _ & T2 & _).
  rewrite T2, C2. rewrite T1 in B0, B1, B2. rewrite C1 in B0, B1, B2.
  split; [| split; [exact B0 | split; [exact B1 | exact B2]]].
  unfold group_active in *. rewrite G2, G. exact Ha1.
Qed.

Lemma tx_offset_zero (tx : Com_IPduTxConfigType) :
  tx_offset tx = 0%nat -> CycleTime tx = 0%nat.
Proof.
  unfold tx_offset. destruct (Nat.ltb_spec 0 (FirstTime tx)); lia.
Qed.

(** The timer of an active TX I-PDU follows [tx_timer_at], and a pass
    transmits it exactly when the tick is due. *)
Lemma Com_MainFunctionTx_schedule (cfg : Com_ConfigType) (i : nat)
      (p : Com_IPduConfigType) (tx : Com_IPduTxConfigType) (s0 : Com_State) :
  nth_error (IPduConfigs cfg) i = Some p ->
  txConfig p = Some tx ->
  group_active s0 p = true ->
  txTimer s0 i = tx_offset tx ->
  forall n,
    group_active (Nat.iter n (Com_MainFunctionTx PduR_ComTransmit cfg) s0) p
    = true /\
    txTimer (Nat.iter n (Com_MainFunctionTx PduR_ComTransmit cfg) s0) i
    = tx_timer_at (tx_offset tx) (CycleTime tx) n /\
    tx_count i (trace (Nat.iter (S n)
                         (Com_MainFunctionTx PduR_ComTransmit cfg) s0))
    = (tx_count i (trace (Nat.iter n
                            (Com_MainFunctionTx PduR_ComTransmit cfg) s0))
       + if tx_due (tx_offset tx) (CycleTime tx) (S n) then 1 else 0)%nat.
Proof.
  intros Hi Htx Ha Ht.
  pose proof (tx_offset_zero tx) as Hz.
  assert (Inv : forall n,
    group_active (Nat.iter n (Com_MainFunctionTx PduR_ComTransmit cfg) s0) p
    = true /\
    txTimer (Nat.iter n (Com_MainFunctionTx PduR_ComTransmit cfg) s0) i
    = tx_timer_at (tx_offset tx) (CycleTime tx) n).
  { induction n as [| n [IHa IHt]].
    - simpl. split; [exact Ha |]. rewrite Ht. unfold tx_timer_at.
      destruct (Nat.ltb_spec 0 (tx_offset tx)) as [L | L]; [lia |].
      rewrite Hz by lia. simpl. lia.
    - rewrite Nat.iter_succ.
      destruct (Com_MainFunctionTx_ok cfg i p tx _ Hi Htx IHa)
        as (A & B0 & B1 & B2).
      split; [exact A |].
      destruct (tx_timer_at_step (tx_offset tx) (CycleTime tx) n Hz)
        as (S0 & S1 & S2).
      rewrite IHt in B0, B1, B2.
      destruct (tx_timer_at (tx_offset tx) (CycleTime tx) n)
        as [| [| t]] eqn:Et.
      + destruct (B0 eq_refl) as [-> _]. destruct (S0 eq_refl) as [_ E].
        now rewrite E.
      + destruct (B1 eq_refl) as [-> _]. destruct (S1 eq_refl) as [_ E].
        now rewrite E.
      + destruct B2 as [-> _]; [lia |]. destruct S2 as [_ E]; [lia |].
        now rewrite E. }
  intros n. destruct (Inv n) as [IHa IHt].
  split; [exact IHa | split; [exact IHt |]].
  rewrite Nat.iter_succ.
  destruct (Com_MainFunctionTx_ok cfg i p tx _ Hi Htx IHa)
    as (_ & B0 & B1 & B2).
  destruct (tx_timer_at_step (tx_offset tx) (CycleTime tx) n Hz)
    as (S0 & S1 & S2).
  rewrite IHt in B0, B1, B2.
  destruct (tx_timer_at (tx_offset tx) (CycleTime tx) n) as [| [| t]] eqn:Et.
  - destruct (B0 eq_refl) as [_ ->]. destruct (S0 eq_refl) as [-> _]. lia.
  - destruct (B1 eq_refl) as [_ ->]. destruct (S1 eq_refl) as [-> _]. lia.
  - destruct B2 as [_ ->]; [lia |]. destruct S2 as [-> _]; [lia |]. lia.
Qed.

End Cycle.

(** C5.  After the start of one of its groups a TX I-PDU is transmitted
    by [Com_MainFunctionTx] exactly once in every tick that is the initial
    offset plus a multiple of the cycle time, and in no other tick, when
    every call of [PduR_ComTransmit] returns [E_OK]; the initial offset is
    [FirstTime] when that is positive and [CycleTime] otherwise. *)
Theorem cycle_honesty
        (be : bool)
        (PduR_ComTransmit : list Com_Event -> nat -> list Z -> Std_ReturnType)
        (cfg : Com_ConfigType) (id : nat) (initialize : bool) (i : nat)
        (pdu : Com_IPduConfigType) (tx : Com_IPduTxConfigType)
        (s s0 : Com_State) :
  (forall h k sdu, PduR_ComTransmit h k sdu = E_OK) ->
  (id < numOfGroups cfg)%nat ->
  nth_error (IPduConfigs cfg) i = Some pdu ->
  rxConfig pdu = None ->
  txConfig pdu = Some tx ->
  Z.land (GroupRefMask pdu) (Z.shiftl 1 (Z.of_nat id)) <> 0 ->
  Com_IpduGroupStart be cfg id initialize s = Some s0 ->
  txTimer s0 i = (if Nat.ltb 0 (FirstTime tx)
                  then FirstTime tx else CycleTime tx) /\
  forall n,
    ((exists k, S n = ((if Nat.ltb 0 (FirstTime tx)
                        then FirstTime tx else CycleTime tx)
                       + k * CycleTime tx)%nat) ->
     tx_count i (trace (Nat.iter (S n)
                          (Com_MainFunctionTx PduR_ComTransmit cfg) s0))
     = S (tx_count i (trace (Nat.iter n
                               (Com_MainFunctionTx PduR_ComTransmit cfg) s0))))
    /\
    (~ (exists k, S n = ((if Nat.ltb 0 (FirstTime tx)
                          then FirstTime tx else CycleTime tx)
                         + k * CycleTime tx)%nat) ->
     tx_count i (trace (Nat.iter (S n)
                          (Com_MainFunctionTx PduR_ComTransmit cfg) s0))
     = tx_count i (trace (Nat.iter n
                            (Com_MainFunctionTx PduR_ComTransmit cfg) s0))).
Proof.
  intros Hok Hid Hi Hrx Htx Hm Hstart.
  destruct (Com_IpduGroupStart_arms be cfg id initialize i pdu s s0
              Hid Hi Hm Hstart) as [Ha Ht].
  rewrite Hrx, Htx in Ht.
  split; [exact Ht |].
  intros n.
  destruct (Com_MainFunctionTx_schedule PduR_ComTransmit Hok cfg i pdu tx s0
              Hi Htx Ha Ht n) as (_ & _ & Hc).
  fold (tx_offset tx).
  pose proof (tx_due_spec (tx_offset tx) (CycleTime tx) (S n)) as Hd.
  destruct (tx_due (tx_offset tx) (CycleTime tx) (S n)).
  - split; [intros _; lia |].
    intros Hn. exfalso. apply Hn, Hd. reflexivity.
  - split; [| intros _; lia].
    intros Hk. apply Hd in Hk. discriminate.
Qed.

(** ** Reception timeout *)

Lemma timeout_count_notify (i : nat) (s : Com_State)
      (cb : option Com_CallbackType) :
  timeout_count i (trace (notify s cb (EvRxTOut i))) =
  (timeout_count i (trace s) + match cb with Some _ => 1 | None => 0 end)%nat.
Proof.
  destruct cb as [f |]; unfold timeout_count; simpl.
  - rewrite Nat.eqb_refl. simpl. lia.
  - lia.
Qed.

(** One RX I-PDU in one pass. *)
Lemma Com_MainFunctionRx_body_step (i : nat) (p : Com_IPduConfigType)
      (rx : Com_IPduRxConfigType) (s : Com_State) :
  rxConfig p = Some rx ->
  group_active s p = true ->
  GroupStatus (Com_MainFunctionRx_body i p s) = GroupStatus s /\
  rxTimer (Com_MainFunctionRx_body i p s) i = (rxTimer s i - 1)%nat /\
  timeout_count i (trace (Com_MainFunctionRx_body i p s)) =
  (timeout_count i (trace s)
   + if Nat.eqb (rxTimer s i) 1
     then match RxTOut rx with Some _ => 1 | None => 0 end
     else 0)%nat.
Proof.
  intros Hrx Ha. unfold Com_MainFunctionRx_body. rewrite Hrx, Ha.
  destruct (Nat.ltb_spec 0 (rxTimer s i)) as [Pos | Zero].
  - cbv zeta. cbn [rxTimer set_rxTimer]. rewrite Nat.eqb_refl.
    destruct (Nat.eqb_spec (rxTimer s i - 1) 0) as [E | E].
    + rewrite timeout_count_notify.
      replace (Nat.eqb (rxTimer s i) 1) with true
        by (symmetry; apply Nat.eqb_eq; lia).
      destruct (RxTOut rx);
        cbn [notify emit GroupStatus rxTimer trace set_rxTimer];
        rewrite ?Nat.eqb_refl; repeat split; lia.
    + replace (Nat.eqb (rxTimer s i) 1) with false
        by (symmetry; apply Nat.eqb_neq; lia).
      cbn [GroupStatus rxTimer trace set_rxTimer]. rewrite ?Nat.eqb_refl.
      repeat split; lia.
  - replace (Nat.eqb (rxTimer s i) 1) with false
      by (symmetry; apply Nat.eqb_neq; lia).
    repeat split; lia.
Qed.

Lemma Com_MainFunctionRx_step (cfg : Com_ConfigType) (i : nat)
      (p : Com_IPduConfigType) (rx : Com_IPduRxConfigType) (s : Com_State) :
  nth_error (IPduConfigs cfg) i = Some p ->
  rxConfig p = Some rx ->
  group_active s p = true ->
  group_active (Com_MainFunctionRx cfg s) p = true /\
  rxTimer (Com_MainFunctionRx cfg s) i = (rxTimer s i - 1)%nat /\
  timeout_count i (trace (Com_MainFunctionRx cfg s)) =
  (timeout_count i (trace s)
   + if Nat.eqb (rxTimer s i) 1
     then match RxTOut rx with Some _ => 1 | None => 0 end
     else 0)%nat.
Proof.
  intros Hi Hrx Ha. unfold Com_MainFunctionRx.
  destruct (Com_MainFunctionRx_loop_at _ _ _ s Hi) as (s1 & Q1 & Q2).
  assert (Ha1 : group_active s1 p = true)
    by (now rewrite (group_active_quiet i s s1 p Q1)).
  destruct (Com_MainFunctionRx_body_step i p rx s1 Hrx Ha1) as (G & T & C).
  pose proof (quiet_timeout_count _ _ _ Q1) as C1.
  pose proof (quiet_timeout_count _ _ _ Q2) as C2.
  destruct Q1 as (G1 & R1 & _ & _). destruct Q2 as (G2 & R2 & _ & _).
  rewrite R2, C2, T, C, R1, C1.
  split; [| split; reflexivity].
  unfold group_active in *. rewrite G2, G. exact Ha1.
Qed.

(** C6.  After the start of one of its groups, and with no frame
    received, the timer of an RX I-PDU goes down by one in every pass of
    [Com_MainFunctionRx] until it is 0 and stays 0 from then on; the timeout
    notification is called in the pass in which the timer reaches 0, that
    is once, and in no other pass.  A frame of sufficient length sets the
    timer again, to [Timeout]. *)
Theorem rx_timeout_once
        (be : bool) (cfg : Com_ConfigType) (id : nat) (initialize : bool)
        (i : nat) (pdu : Com_IPduConfigType) (rx : Com_IPduRxConfigType)
        (s s0 : Com_State) :
  (id < numOfGroups cfg)%nat ->
  nth_error (IPduConfigs cfg) i = Some pdu ->
  rxConfig pdu = Some rx ->
  Z.land (GroupRefMask pdu) (Z.shiftl 1 (Z.of_nat id)) <> 0 ->
  Com_IpduGroupStart be cfg id initialize s = Some s0 ->
  rxTimer s0 i = (if Nat.ltb 0 (FirstTimeout rx)
                  then FirstTimeout rx else Timeout rx) /\
  forall n,
    rxTimer (Nat.iter n (Com_MainFunctionRx cfg) s0) i
    = (rxTimer s0 i - n)%nat /\
    timeout_count i (trace (Nat.iter n (Com_MainFunctionRx cfg) s0))
    = (timeout_count i (trace s0)
       + match RxTOut rx with
         | Some _ =>
             if (Nat.ltb 0 (rxTimer s0 i) && Nat.leb (rxTimer s0 i) n)%bool
             then 1 else 0
         | None => 0
         end)%nat /\
    forall (sdu : list Z) (len : nat),
      (IPdu_length pdu <= len)%nat ->
      (IPdu_length pdu <= length sdu)%nat ->
      exists s',
        Com_RxIndication cfg i {| SduDataPtr := Some sdu; SduLength := len |}
                         (Nat.iter n (Com_MainFunctionRx cfg) s0) = Some s' /\
        rxTimer s' i = Timeout rx.
Proof.
  intros Hid Hi Hrx Hm Hstart.
  destruct (Com_IpduGroupStart_arms be cfg id initialize i pdu s s0
              Hid Hi Hm Hstart) as [Ha Ht].
  rewrite Hrx in Ht.
  split; [exact Ht |].
  assert (Inv : forall n,
    group_active (Nat.iter n (Com_MainFunctionRx cfg) s0) pdu = true /\
    rxTimer (Nat.iter n (Com_MainFunctionRx cfg) s0) i
    = (rxTimer s0 i - n)%nat /\
    timeout_count i (trace (Nat.iter n (Com_MainFunctionRx cfg) s0))
    = (timeout_count i (trace s0)
       + match RxTOut rx with
         | Some _ =>
             if (Nat.ltb 0 (rxTimer s0 i) && Nat.leb (rxTimer s0 i) n)%bool
             then 1 else 0
         | None => 0
         end)%nat).
  { induction n as [| n (IHa & IHt & IHc)].
    - simpl. split; [exact Ha | split; [lia |]].
      destruct (RxTOut rx); [| lia].
      destruct (Nat.ltb_spec 0 (rxTimer s0 i));
        destruct (Nat.leb_spec (rxTimer s0 i) 0); simpl; lia.
    - rewrite Nat.iter_succ.
      destruct (Com_MainFunctionRx_step cfg i pdu rx _ Hi Hrx IHa)
        as (A & T & C).
      split; [exact A | split; [rewrite T, IHt; lia |]].
      rewrite C, IHc, IHt.
      destruct (RxTOut rx);
        [| destruct (Nat.eqb (rxTimer s0 i - n) 1); simpl; lia].
      destruct (Nat.eqb_spec (rxTimer s0 i - n) 1);
        destruct (Nat.ltb_spec 0 (rxTimer s0 i));
        destruct (Nat.leb_spec (rxTimer s0 i) n);
        destruct (Nat.leb_spec (rxTimer s0 i) (S n)); simpl; lia. }
  intros n. destruct (Inv n) as (IHa & IHt & IHc).
  split; [exact IHt | split; [exact IHc |]].
  intros sdu len Hlen Hobj.
  unfold Com_RxIndication. rewrite Hi, Hrx, IHa.
  cbn [SduLength SduDataPtr].
  replace (Nat.leb (IPdu_length pdu) len) with true
    by (symmetry; apply Nat.leb_le; exact Hlen).
  unfold memcpy_to_ram.
  replace (Nat.ltb (length sdu) (IPdu_length pdu)) with false
    by (symmetry; apply Nat.ltb_ge; exact Hobj).
  eexists. split; [reflexivity |].
  destruct (RxNotification rx); simpl; now rewrite Nat.eqb_refl.
Qed.

(** ** Group-start initialisation and the update bits *)

Lemma Std_BitGet_write_bytes (m : ram) (a : nat) (bs : list Z) (p q : nat) :
  (Nat.leb (8 * a) (abit p q)
   && Nat.ltb (abit p q) (8 * (a + length bs)))%bool = false ->
  Std_BitGet (write_bytes m a bs) p q = Std_BitGet m p q.
Proof.
  intros H. unfold Std_BitGet, write_bytes.
  replace (Nat.leb a (p + q / 8) && Nat.ltb (p + q / 8) (a + length bs))%bool
    with false; [reflexivity |].
  symmetry. rewrite <- H. unfold abit. split8 q.
  destruct (Nat.leb_spec a (p + q0)); destruct (Nat.ltb_spec (p + q0) (a + length bs));
    destruct (Nat.leb_spec (8 * a) (8 * p + q));
    destruct (Nat.ltb_spec (8 * p + q) (8 * (a + length bs)));
    simpl; lia || reflexivity.
Qed.

Section Init.

Variable CPU_BIG_ENDIAN : bool.

Lemma comGetSignalValue_result (signal : Com_SignalConfigType) (src : cptr)
      (r : Std_ReturnType) (v : Z) :
  comGetSignalValue CPU_BIG_ENDIAN signal src = Some (r, v) ->
  (r = E_NOT_OK /\ type_size (type signal) = 0%nat) \/
  (r = E_OK /\ (0 < type_size (type signal))%nat).
Proof.
  unfold comGetSignalValue. intros H.
  destruct (type signal); simpl;
    try (injection H as <- _; left; split; reflexivity);
    match type of H with
    | match ?l with _ => _ end = _ => destruct l; [| discriminate]
    end; injection H as <- _; right; split; lia || reflexivity.
Qed.

Lemma comSendSignalLittle_result (signal : Com_SignalConfigType) (src : cptr)
      (m m1 : ram) (r : Std_ReturnType) :
  comSendSignalLittle CPU_BIG_ENDIAN signal src m = Some (r, m1) ->
  (r = E_NOT_OK /\ m1 = m) \/
  (r = E_OK /\ (0 < type_size (type signal))%nat /\
   exists v, m1 = Std_BitSetLittleEndian m (ptr signal) v
                    (BitPosition signal) (BitSize signal)).
Proof.
  unfold comSendSignalLittle. intros H.
  destruct (comGetSignalValue CPU_BIG_ENDIAN signal src) as [[r0 v] |] eqn:G;
    [| discriminate].
  destruct (comGetSignalValue_result _ _ _ _ G) as [[-> _] | [-> Hn]].
  - injection H as <- <-. now left.
  - injection H as <- <-. right. split; [reflexivity | split; [exact Hn |]].
    now exists v.
Qed.

Lemma comSendSignalBig_result (signal : Com_SignalConfigType) (src : cptr)
      (m m1 : ram) (r : Std_ReturnType) :
  comSendSignalBig CPU_BIG_ENDIAN signal src m = Some (r, m1) ->
  (r = E_NOT_OK /\ m1 = m) \/
  (r = E_OK /\ (0 < type_size (type signal))%nat /\
   exists v, m1 = Std_BitSetBigEndian m (ptr signal) v
                    (BitPosition signal) (BitSize signal)).
Proof.
  unfold comSendSignalBig. intros H.
  destruct (comGetSignalValue CPU_BIG_ENDIAN signal src) as [[r0 v] |] eqn:G;
    [| discriminate].
  destruct (comGetSignalValue_result _ _ _ _ G) as [[-> _] | [-> Hn]].
  - injection H as <- <-. now left.
  - injection H as <- <-. right. split; [reflexivity | split; [exact Hn |]].
    now exists v.
Qed.

(** The send path leaves a set bit set, unless the bit is a data bit of
    the signal. *)
Lemma comSendSignal_keeps_set_bit (signal : Com_SignalConfigType)
      (src : cptr) (m m' : ram) (r : Std_ReturnType) (p q : nat) :
  comSendSignal CPU_BIG_ENDIAN signal src m = Some (r, m') ->
  sig_field signal (abit p q) = false ->
  Std_BitGet m p q = true ->
  Std_BitGet m' p q = true.
Proof.
  intros H Hf Hb. unfold comSendSignal in H. unfold sig_field in Hf.
  cbn [COM_USE_SIGNAL_UPDATE_BIT] in H.
  assert (W : forall m1,
             Std_BitGet m1 p q = true ->
             Std_BitGet match UpdateBit signal with
                        | Some u => Std_BitSet m1 (ptr signal) u
                        | None => m1
                        end p q = true).
  { intros m1 H1. destruct (UpdateBit signal) as [u |]; [| exact H1].
    rewrite Std_BitGet_BitSet, H1.
    destruct (Nat.eqb (abit p q) (abit (ptr signal) u)); reflexivity. }
  destruct (is_UINT8N (type signal) || is_OPAQUE (Endianness signal))%bool
    eqn:Hc.
  - unfold memcpy_to_ram in H. destruct src as [bs |]; [| discriminate].
    destruct (Nat.ltb_spec (length bs) (BitSize signal / 8)) as [L | L];
      [discriminate |].
    assert (E : Std_BitGet (write_bytes m (ptr signal)
                              (firstn (BitSize signal / 8) bs)) p q = true).
    { rewrite Std_BitGet_write_bytes; [exact Hb |].
      rewrite length_firstn, Nat.min_l by exact L. exact Hf. }
    apply W in E.
    destruct (UpdateBit signal); injection H as _ <-; exact E.
  - apply orb_false_iff in Hc. destruct Hc as [_ Ho].
    destruct (Endianness signal) eqn:He; [| | discriminate Ho].
    + destruct (comSendSignalBig CPU_BIG_ENDIAN signal src m)
        as [[r1 m1] |] eqn:Hs; [| discriminate].
      assert (E : Std_BitGet m1 p q = true).
      { destruct (comSendSignalBig_result _ _ _ _ _ Hs)
          as [[_ ->] | (_ & Hn & v & ->)]; [exact Hb |].
        replace (Nat.eqb (type_size (type signal)) 0) with false in Hf
          by (symmetry; apply Nat.eqb_neq; lia).
        now rewrite Std_BitSetBigEndian_bit, Hf. }
      apply W in E.
      destruct (UpdateBit signal); injection H as _ <-; exact E.
    + destruct (comSendSignalLittle CPU_BIG_ENDIAN signal src m)
        as [[r1 m1] |] eqn:Hs; [| discriminate].
      assert (E : Std_BitGet m1 p q = true).
      { destruct (comSendSignalLittle_result _ _ _ _ _ Hs)
          as [[_ ->] | (_ & Hn & v & ->)]; [exact Hb |].
        replace (Nat.eqb (type_size (type signal)) 0) with false in Hf
          by (symmetry; apply Nat.eqb_neq; lia).
        now rewrite Std_BitSetLittleEndian_bit, Hf. }
      apply W in E.
      destruct (UpdateBit signal); injection H as _ <-; exact E.
Qed.

End Init.

Section GroupInit.

Variable CPU_BIG_ENDIAN : bool.

Lemma comIPduDataInit_loop_keeps (l : list Com_SignalConfigType) (p q : nat) :
  forall (m m' : ram),
    comIPduDataInit_loop CPU_BIG_ENDIAN l m = Some m' ->
    (forall s', In s' l -> sig_field s' (abit p q) = false) ->
    Std_BitGet m p q = true ->
    Std_BitGet m' p q = true.
Proof.
  induction l as [| h rest IH]; intros m m' H Hf Hb; simpl in H.
  - now injection H as <-.
  - destruct (comSendSignal CPU_BIG_ENDIAN h (initPtr h) m)
      as [[r m1] |] eqn:Hs; [| discriminate].
    apply (IH m1 m' H).
    + intros s' Hin. apply Hf. now right.
    + apply (comSendSignal_keeps_set_bit CPU_BIG_ENDIAN h _ m m1 r p q Hs);
        [apply Hf; now left | exact Hb].
Qed.

Lemma comIPduDataInit_loop_app (l1 l2 : list Com_SignalConfigType) :
  forall m,
    comIPduDataInit_loop CPU_BIG_ENDIAN (l1 ++ l2) m =
    match comIPduDataInit_loop CPU_BIG_ENDIAN l1 m with
    | Some m1 => comIPduDataInit_loop CPU_BIG_ENDIAN l2 m1
    | None => None
    end.
Proof.
  induction l1 as [| h l1 IH]; intros m; simpl; [reflexivity |].
  destruct (comSendSignal CPU_BIG_ENDIAN h (initPtr h) m) as [[r m1] |];
    [apply IH | reflexivity].
Qed.

(** The PDU RAM after one I-PDU of the start loop. *)
Lemma Com_IpduGroupStart_body_ram (id i : nat) (p : Com_IPduConfigType)
      (s : Com_State) :
  (id < 31)%nat ->
  match comIPduDataInit_loop CPU_BIG_ENDIAN (init_signals_of [p] id)
                             (pduRam s) with
  | Some m =>
      exists s', Com_IpduGroupStart_body CPU_BIG_ENDIAN id true i p s = Some s'
                 /\ pduRam s' = m
  | None => Com_IpduGroupStart_body CPU_BIG_ENDIAN id true i p s = None
  end.
Proof.
  intros Hlt.
  unfold Com_IpduGroupStart_body, init_signals_of, comIPduDataInit.
  rewrite (int_shl1_defined id Hlt). simpl.
  rewrite app_nil_r.
  destruct (Z.land (GroupRefMask p) (Z.shiftl 1 (Z.of_nat id)) =? 0).
  - simpl. now exists s.
  - destruct (comIPduDataInit_loop CPU_BIG_ENDIAN (signals p) (pduRam s))
      as [m |]; [| reflexivity].
    destruct (rxConfig p) as [rx |]; [| destruct (txConfig p) as [tx |]].
    + destruct (Nat.ltb 0 (FirstTimeout rx)); eexists; split; reflexivity.
    + destruct (Nat.ltb 0 (FirstTime tx)); eexists; split; reflexivity.
    + eexists; split; reflexivity.
Qed.

(** The PDU RAM after the start loop is the RAM after the initialisation
    of the signals of the group, and the loop fails only if that does. *)
Lemma Com_IpduGroupStart_loop_ram (id : nat) (pdus : list Com_IPduConfigType) :
  (id < 31)%nat ->
  forall (k : nat) (s : Com_State),
    match comIPduDataInit_loop CPU_BIG_ENDIAN (init_signals_of pdus id)
                               (pduRam s) with
    | Some m =>
        exists s',
          Com_IpduGroupStart_loop CPU_BIG_ENDIAN id true pdus k s = Some s'
          /\ pduRam s' = m
    | None => Com_IpduGroupStart_loop CPU_BIG_ENDIAN id true pdus k s = None
    end.
Proof.
  intros Hlt.
  induction pdus as [| p rest IH]; intros k s.
  - simpl. now exists s.
  - replace (init_signals_of (p :: rest) id)
      with (init_signals_of [p] id ++ init_signals_of rest id)
      by (unfold init_signals_of; simpl; now rewrite app_nil_r).
    rewrite comIPduDataInit_loop_app.
    pose proof (Com_IpduGroupStart_body_ram id k p s Hlt) as B.
    cbn [Com_IpduGroupStart_loop].
    destruct (comIPduDataInit_loop CPU_BIG_ENDIAN (init_signals_of [p] id)
                                   (pduRam s)) as [m1 |].
    + destruct B as (s1 & -> & <-). apply IH.
    + now rewrite B.
Qed.

Lemma comSendSignal_total (signal : Com_SignalConfigType) (m : ram) :
  init_ok signal = true ->
  exists r m',
    comSendSignal CPU_BIG_ENDIAN signal (initPtr signal) m = Some (r, m').
Proof.
  unfold init_ok, reads_source, sig_size, comSendSignal.
  cbn [COM_USE_SIGNAL_UPDATE_BIT].
  intros H.
  destruct (is_UINT8N (type signal) || is_OPAQUE (Endianness signal))%bool
    eqn:Hc.
  - destruct (initPtr signal) as [bs |]; [| discriminate H].
    unfold memcpy_to_ram. apply Nat.leb_le in H.
    replace (Nat.ltb (length bs) (BitSize signal / 8)) with false
      by (symmetry; apply Nat.ltb_ge; exact H).
    destruct (UpdateBit signal); do 2 eexists; reflexivity.
  - apply orb_false_iff in Hc. destruct Hc as [_ Ho].
    assert (G : exists r v,
               comGetSignalValue CPU_BIG_ENDIAN signal (initPtr signal)
               = Some (r, v)).
    { unfold comGetSignalValue, load_uint.
      destruct (initPtr signal) as [bs |].
      - apply Nat.leb_le in H.
        destruct (type signal); cbn [type_size] in H;
          try (do 2 eexists; reflexivity);
          match goal with
          | |- context [Nat.ltb (length bs) ?n] =>
              replace (Nat.ltb (length bs) n) with false
                by (symmetry; apply Nat.ltb_ge; exact H)
          end; do 2 eexists; reflexivity.
      - simpl in H. apply negb_true_iff in H.
        destruct (type signal); simpl in H; try discriminate H;
          do 2 eexists; reflexivity. }
    destruct G as (r & v & G).
    destruct (Endianness signal); [| | discriminate Ho];
      unfold comSendSignalBig, comSendSignalLittle; rewrite G;
      destruct r; destruct (UpdateBit signal); do 2 eexists; reflexivity.
Qed.

Lemma comIPduDataInit_loop_total (l : list Com_SignalConfigType) :
  forall m,
    forallb init_ok l = true ->
    exists m', comIPduDataInit_loop CPU_BIG_ENDIAN l m = Some m'.
Proof.
  induction l as [| h rest IH]; intros m H; simpl.
  - now exists m.
  - simpl in H. apply andb_prop in H. destruct H as [Hh Hr].
    destruct (comSendSignal_total h m Hh) as (r & m1 & ->).
    now apply IH.
Qed.

End GroupInit.

Lemma init_signals_of_app (l1 l2 : list Com_IPduConfigType) (id : nat) :
  init_signals_of (l1 ++ l2) id
  = init_signals_of l1 id ++ init_signals_of l2 id.
Proof. unfold init_signals_of. apply flat_map_app. Qed.

(** C10.  After [Com_IpduGroupStart] with [initialize] set, a signal with
    an update bit in an I-PDU of the group has its update bit set, because
    the initialisation sends each signal through the send path; so the next
    reception of the signal finds the bit set: it clears the bit and reads
    as a signal without update bit does.  This holds for every signal
    whose update bit is not a data bit of a signal that is initialised
    after it: a signal later in the signal list of its I-PDU, or a signal
    of a later I-PDU of the group.  The start returns when each initial
    value is an object of the size of its signal. *)
Theorem group_start_sets_update_bits
        (be : bool) (cfg : Com_ConfigType) (id : nat) (s : Com_State) :
  (id < numOfGroups cfg)%nat ->
  (id < 31)%nat ->
  forallb init_ok (init_signals cfg id) = true ->
  exists s0,
    Com_IpduGroupStart be cfg id true s = Some s0 /\
    forall (before after : list Com_IPduConfigType)
           (pdu : Com_IPduConfigType)
           (earlier later : list Com_SignalConfigType)
           (signal : Com_SignalConfigType) (u : nat),
      IPduConfigs cfg = before ++ pdu :: after ->
      Z.land (GroupRefMask pdu) (Z.shiftl 1 (Z.of_nat id)) <> 0 ->
      signals pdu = earlier ++ signal :: later ->
      UpdateBit signal = Some u ->
      forallb (fun c => negb (sig_field c (abit (ptr signal) u)))
              (later ++ init_signals_of after id) = true ->
      Std_BitGet (pduRam s0) (ptr signal) u = true /\
      forall dst,
        comReceiveSignal be signal dst (pduRam s0) =
        comReceiveSignal be (no_update_bit signal) dst
                         (Std_BitClear (pduRam s0) (ptr signal) u).
Proof.
  intros Hid Hlt Hinit. unfold Com_IpduGroupStart.
  replace (Nat.ltb id (numOfGroups cfg)) with true
    by (symmetry; apply Nat.ltb_lt; exact Hid).
  rewrite (int_shl1_defined id Hlt).
  set (s1 := set_GroupStatus s
               (Z.lor (GroupStatus s) (Z.shiftl 1 (Z.of_nat id)))).
  destruct (comIPduDataInit_loop_total be (init_signals cfg id) (pduRam s1)
              Hinit) as [m' Hm'].
  pose proof (Com_IpduGroupStart_loop_ram be id (IPduConfigs cfg) Hlt 0 s1)
    as R.
  unfold init_signals in *. rewrite Hm' in R.
  destruct R as (s0 & Hs0 & Hram).
  exists s0. split; [exact Hs0 |].
  intros before after pdu earlier later signal u Hp Hmask Hsig Hu Hkept.
  assert (Hb : Std_BitGet (pduRam s0) (ptr signal) u = true).
  { rewrite Hram. rewrite Hp, init_signals_of_app in Hm'.
    replace (init_signals_of (pdu :: after) id)
      with (signals pdu ++ init_signals_of after id) in Hm'.
    2:{ unfold init_signals_of. simpl.
        now replace (Z.land (GroupRefMask pdu) (Z.shiftl 1 (Z.of_nat id)) =? 0)
          with false by (symmetry; apply Z.eqb_neq; exact Hmask). }
    rewrite Hsig, <- app_assoc in Hm'. cbn [app] in Hm'.
    rewrite comIPduDataInit_loop_app in Hm'.
    destruct (comIPduDataInit_loop be (init_signals_of before id) (pduRam s1))
      as [ma |]; [| discriminate].
    rewrite comIPduDataInit_loop_app in Hm'.
    destruct (comIPduDataInit_loop be earlier ma) as [mb |];
      [| discriminate].
    cbn [comIPduDataInit_loop] in Hm'.
    destruct (comSendSignal be signal (initPtr signal) mb)
      as [[r mc] |] eqn:Hs; [| discriminate].
    apply (comIPduDataInit_loop_keeps be _ (ptr signal) u mc m' Hm').
    - intros c Hc. rewrite forallb_forall in Hkept.
      now apply negb_true_iff, Hkept.
    - apply (comSendSignal_sets_update_bit _ _ _ _ _ _ _ Hu Hs). }
  split; [exact Hb |].
  intros dst. now apply comReceiveSignal_gate_open.
Qed.

(** ** Trigger transmit *)

(** C9.  For every PDU id below [numOfIPdus] and every SDU buffer of at
    least the length of the I-PDU, [Com_TriggerTransmit] copies the PDU
    buffer into the SDU and returns [E_OK], whatever the group status and
    whether the I-PDU has an RX or a TX configuration; the state of the
    stack (timers, PDU RAM, events) is unchanged. *)
Theorem trigger_transmit_any_pdu
        (cfg : Com_ConfigType) (id : nat) (s : Com_State) :
  (id < numOfIPdus cfg)%nat ->
  exists pdu,
    nth_error (IPduConfigs cfg) id = Some pdu /\
    forall (sdu : list Z) (len : nat),
      (IPdu_length pdu <= len)%nat ->
      (len <= length sdu)%nat ->
      Com_TriggerTransmit cfg id {| SduDataPtr := Some sdu; SduLength := len |}
                          s =
      Some (E_OK, s,
            Some (read_bytes (pduRam s) (IPdu_ptr pdu) (IPdu_length pdu)
                  ++ skipn (IPdu_length pdu) sdu)).
Proof.
  intros Hid. unfold numOfIPdus in Hid.
  destruct (nth_error (IPduConfigs cfg) id) as [pdu |] eqn:E.
  - exists pdu. split; [reflexivity |].
    intros sdu len Hl Hc. unfold Com_TriggerTransmit. rewrite E.
    cbn [SduLength SduDataPtr].
    replace (Nat.leb (IPdu_length pdu) len) with true
      by (symmetry; apply Nat.leb_le; exact Hl).
    unfold memcpy_from_ram.
    replace (Nat.ltb (length sdu) (IPdu_length pdu)) with false
      by (symmetry; apply Nat.ltb_ge; lia).
    reflexivity.
  - apply nth_error_None in E. lia.
Qed.

(** ** Where the code departs from its specification *)

(** A signal of a kind that the send path does not support: the send
    returns [E_NOT_OK] and writes no data, but it sets the update bit. *)
Lemma comSendSignal_unsupported (be : bool) (signal : Com_SignalConfigType)
      (src : cptr) (m : ram) :
  reads_source signal = false ->
  comSendSignal be signal src m =
  Some (E_NOT_OK,
        match UpdateBit signal with
        | Some u => Std_BitSet m (ptr signal) u
        | None => m
        end).
Proof.
  unfold reads_source, comSendSignal. intros H.
  apply orb_false_iff in H. destruct H as [H Hn].
  rewrite H. apply orb_false_iff in H. destruct H as [_ Ho].
  apply Nat.ltb_ge in Hn.
  cbn [COM_USE_SIGNAL_UPDATE_BIT].
  unfold comSendSignalBig, comSendSignalLittle, comGetSignalValue.
  destruct (Endianness signal); [| | discriminate Ho];
    destruct (type signal); simpl in Hn; try lia;
    destruct (UpdateBit signal); reflexivity.
Qed.

(** C3.  [Com_SendSignal] on the signal of an unsupported kind of the
    sample configuration returns [E_NOT_OK], and yet the PDU buffer is not
    as it was: update bit 24 of the signal is set. *)
Theorem unsupported_send_sets_update_bit :
  exists s1,
    Com_SendSignal false sample_cfg 1 (Some [0x55]) sample_reset
    = Some (E_NOT_OK, s1) /\
    read_bytes (pduRam sample_reset) 0 4 = [0; 0; 0; 0] /\
    read_bytes (pduRam s1) 0 4 = [0; 0; 0; 1] /\
    Std_BitGet (pduRam sample_reset) 0 24 = false /\
    Std_BitGet (pduRam s1) 0 24 = true.
Proof.
  eexists. split; [reflexivity |]. repeat split.
Qed.

(** A null source is dereferenced by every kind whose source is read. *)
Lemma comSendSignal_null (be : bool) (signal : Com_SignalConfigType)
      (m : ram) :
  reads_source signal = true ->
  comSendSignal be signal None m = None.
Proof.
  unfold reads_source, comSendSignal. intros H.
  destruct (is_UINT8N (type signal) || is_OPAQUE (Endianness signal))%bool
    eqn:Hc; [reflexivity |].
  apply orb_false_iff in Hc. destruct Hc as [_ Ho].
  simpl in H. apply Nat.ltb_lt in H.
  unfold comSendSignalBig, comSendSignalLittle, comGetSignalValue.
  destruct (Endianness signal); [| | discriminate Ho];
    destruct (type signal); simpl in H; try lia; reflexivity.
Qed.

(** C7.  [Com_SendSignal] does not test its source pointer:
    with a null source the signed signal of the sample configuration is a
    null dereference (a fault), where [Com_ReceiveSignal] returns
    [E_NOT_OK] and changes nothing; for the signal of an unsupported kind
    the send returns [E_NOT_OK] after it has set update bit 24 in the PDU
    buffer. *)
Theorem null_source_not_checked :
  Com_SendSignal false sample_cfg 0 None sample_reset = None /\
  Com_ReceiveSignal false sample_cfg 0 None sample_reset
  = Some (E_NOT_OK, sample_reset, None) /\
  exists s1,
    Com_SendSignal false sample_cfg 1 None sample_reset
    = Some (E_NOT_OK, s1) /\
    read_bytes (pduRam sample_reset) 0 4 = [0; 0; 0; 0] /\
    read_bytes (pduRam s1) 0 4 = [0; 0; 0; 1].
Proof.
  split; [reflexivity | split; [reflexivity |]].
  eexists. split; [reflexivity |]. split; reflexivity.
Qed.

(** What the triggered send and the timer-driven send of a due I-PDU have
    in common, and where they differ: the same request to the lower layer
    and the same timer afterwards; the triggered send leaves the PDU RAM as
    it is, the timer-driven send clears the update bits after a
    successful transmission. *)
Lemma Com_TriggerIPDUSend_and_timer_send
      (PduR_ComTransmit : list Com_Event -> nat -> list Z -> Std_ReturnType)
      (cfg : Com_ConfigType) (i : nat) (p : Com_IPduConfigType)
      (tx : Com_IPduTxConfigType) (s : Com_State) :
  nth_error (IPduConfigs cfg) i = Some p ->
  txConfig p = Some tx ->
  group_active s p = true ->
  txTimer s i = 1%nat ->
  fst (Com_TriggerIPDUSend PduR_ComTransmit cfg i s) = E_OK /\
  trace (snd (Com_TriggerIPDUSend PduR_ComTransmit cfg i s))
  = trace (Com_MainFunctionTx_body PduR_ComTransmit i p s) /\
  txTimer (snd (Com_TriggerIPDUSend PduR_ComTransmit cfg i s)) i
  = txTimer (Com_MainFunctionTx_body PduR_ComTransmit i p s) i /\
  pduRam (snd (Com_TriggerIPDUSend PduR_ComTransmit cfg i s)) = pduRam s /\
  pduRam (Com_MainFunctionTx_body PduR_ComTransmit i p s)
  = match PduR_ComTransmit (trace s) (TxPduId tx)
            (read_bytes (pduRam s) (IPdu_ptr p) (IPdu_length p)) with
    | E_OK => comTxClearUpdateBit p (pduRam s)
    | E_NOT_OK => pduRam s
    end.
Proof.
  intros Hi Htx Ha Ht.
  unfold Com_TriggerIPDUSend, Com_MainFunctionTx_body, transmit.
  rewrite Hi, Htx, Ha, Ht. cbv zeta.
  cbn [Nat.ltb Nat.leb Nat.sub txTimer set_txTimer pduRam trace].
  rewrite Nat.eqb_refl. cbn [Nat.eqb].
  destruct (PduR_ComTransmit (trace s) (TxPduId tx)
              (read_bytes (pduRam s) (IPdu_ptr p) (IPdu_length p)));
    cbn [COM_USE_SIGNAL_UPDATE_BIT fst snd trace txTimer pduRam
         set_txTimer set_pduRam emit];
    rewrite ?Nat.eqb_refl; repeat split; reflexivity.
Qed.

(** C8.  In the sample configuration, with the TX I-PDU one tick before
    it is due and the update bit of its signal set: the timer-driven send
    of [Com_MainFunctionTx] transmits, sets the timer to the cycle time and
    clears the update bit; [Com_TriggerIPDUSend] transmits the same SDU and
    sets the timer to the cycle time, but leaves the update bit set. *)
Theorem trigger_send_keeps_update_bits :
  txTimer sample_due 0 = 1%nat /\
  Std_BitGet (pduRam sample_due) 0 12 = true /\
  (txTimer (Com_MainFunctionTx always_ok sample_cfg sample_due) 0 = 5%nat /\
   trace (Com_MainFunctionTx always_ok sample_cfg sample_due)
   = [EvTransmit 0 7 [52; 18; 0; 1] E_OK] /\
   Std_BitGet (pduRam (Com_MainFunctionTx always_ok sample_cfg sample_due))
              0 12 = false) /\
  (fst (Com_TriggerIPDUSend always_ok sample_cfg 0 sample_due) = E_OK /\
   txTimer (snd (Com_TriggerIPDUSend always_ok sample_cfg 0 sample_due)) 0
   = 5%nat /\
   trace (snd (Com_TriggerIPDUSend always_ok sample_cfg 0 sample_due))
   = [EvTransmit 0 7 [52; 18; 0; 1] E_OK] /\
   Std_BitGet (pduRam (snd (Com_TriggerIPDUSend always_ok sample_cfg 0
                                                sample_due)))
              0 12 = true).
Proof.
  repeat split.
Qed.

(** The update bit of a signal does not survive the initialisation of a
    byte array that lies over it: after the start of group 0 of the
    overlaid configuration the update bit of [overlay_flag] is clear, and
    the reception of the signal is refused with [E_NOT_OK]. *)
Lemma group_start_update_bit_overwritten :
  (0 < numOfGroups overlay_cfg)%nat /\
  In overlay_pdu (IPduConfigs overlay_cfg) /\
  Z.land (GroupRefMask overlay_pdu) (Z.shiftl 1 (Z.of_nat 0)) <> 0 /\
  In overlay_flag (signals overlay_pdu) /\
  UpdateBit overlay_flag = Some 7%nat /\
  exists s0,
    Com_IpduGroupStart false overlay_cfg 0 true sample_reset = Some s0 /\
    Std_BitGet (pduRam s0) (ptr overlay_flag) 7 = false /\
    comReceiveSignal false overlay_flag (Some [0]) (pduRam s0)
    = Some (E_NOT_OK, pduRam s0, Some [0]).
Proof.
  split; [simpl; lia |].
  split; [simpl; now left |].
  split; [vm_compute; discriminate |].
  split; [simpl; now left |].
  split; [reflexivity |].
  eexists. split; [reflexivity |]. split; reflexivity.
Qed.

(** * The theorems at the sample configuration *)

Lemma signed_signal_roundtrip_witness :
  is_signed (type sample_speed) = true /\
  1 <= Z.of_nat (BitSize sample_speed) <= 32 /\
  - 2 ^ (Z.of_nat (BitSize sample_speed) - 1) <= -1
    < 2 ^ (Z.of_nat (BitSize sample_speed) - 1) /\
  - 2 ^ (8 * Z.of_nat (type_size (type sample_speed)) - 1) <= -1
    < 2 ^ (8 * Z.of_nat (type_size (type sample_speed)) - 1) /\
  (type_size (type sample_speed) <= length [0; 0])%nat /\
  Endianness sample_speed <> OPAQUE /\
  ubit_outside_field sample_speed = true /\
  exists m1 m2,
    comSendSignal false sample_speed (Some [255; 255]) (pduRam sample_reset)
    = Some (E_OK, m1) /\
    comReceiveSignal false sample_speed (Some [0; 0]) m1
    = Some (E_OK, m2, Some [255; 255]).
Proof.
  assert (H1 : is_signed (type sample_speed) = true) by reflexivity.
  assert (H2 : 1 <= Z.of_nat (BitSize sample_speed) <= 32) by (cbn; lia).
  assert (H3 : - 2 ^ (Z.of_nat (BitSize sample_speed) - 1) <= -1
               < 2 ^ (Z.of_nat (BitSize sample_speed) - 1))
    by (cbn; lia).
  assert (H4 : - 2 ^ (8 * Z.of_nat (type_size (type sample_speed)) - 1) <= -1
               < 2 ^ (8 * Z.of_nat (type_size (type sample_speed)) - 1))
    by (cbn; lia).
  assert (H5 : (type_size (type sample_speed) <= length [0; 0])%nat)
    by (cbn; lia).
  assert (H6 : Endianness sample_speed <> OPAQUE) by discriminate.
  assert (H7 : ubit_outside_field sample_speed = true) by reflexivity.
  repeat (split; [assumption |]).
  destruct (signed_signal_roundtrip false sample_speed (-1) [0; 0]
              (pduRam sample_reset) H1 H2 H3 H4 H5) as (_ & _ & R & _).
  destruct (R H6 H7) as (m1 & m2 & A & B).
  exists m1, m2. split; [exact A | exact B].
Defined.

Lemma group_gating_witness :
  nth_error (IPduConfigs sample_cfg) 0 = Some sample_tx_pdu /\
  Z.land (GroupStatus sample_stopped) (GroupRefMask sample_tx_pdu) = 0 /\
  nth_error (IPduConfigs sample_cfg) 1 = Some sample_rx_pdu /\
  Z.land (GroupStatus sample_stopped) (GroupRefMask sample_rx_pdu) = 0 /\
  (* the TX I-PDU is due, and the started group transmits it *)
  txTimer sample_stopped 0 = 1%nat /\
  tx_count 0 (trace (Com_MainFunctionTx always_ok sample_cfg sample_due))
  = S (tx_count 0 (trace sample_due)) /\
  (* the stopped group does not *)
  (txTimer (Com_MainFunctionTx always_ok sample_cfg sample_stopped) 0
   = txTimer sample_stopped 0 /\
   exists evs,
     trace (Com_MainFunctionTx always_ok sample_cfg sample_stopped)
     = evs ++ trace sample_stopped /\
     Forall (fun e => event_pdu e <> 0%nat) evs) /\
  (* a frame for the RX I-PDU is taken by the started group *)
  (exists s',
      Com_RxIndication sample_cfg 1
        {| SduDataPtr := Some [0xAB; 0xCD]; SduLength := 2 |} sample_due
      = Some s' /\
      rxTimer s' 1 = 4%nat /\ rxTimer sample_due 1 = 1%nat /\
      read_bytes (pduRam s') 8 2 = [0xAB; 0xCD]) /\
  (* and dropped by the stopped group *)
  Com_RxIndication sample_cfg 1
    {| SduDataPtr := Some [0xAB; 0xCD]; SduLength := 2 |} sample_stopped
  = Some sample_stopped.
Proof.
  assert (H1 : nth_error (IPduConfigs sample_cfg) 0 = Some sample_tx_pdu)
    by reflexivity.
  assert (H2 : Z.land (GroupStatus sample_stopped)
                      (GroupRefMask sample_tx_pdu) = 0) by reflexivity.
  assert (H3 : nth_error (IPduConfigs sample_cfg) 1 = Some sample_rx_pdu)
    by reflexivity.
  assert (H4 : Z.land (GroupStatus sample_stopped)
                      (GroupRefMask sample_rx_pdu) = 0) by reflexivity.
  assert (H5 : txTimer sample_stopped 0 = 1%nat) by reflexivity.
  assert (H6 : tx_count 0 (trace (Com_MainFunctionTx always_ok sample_cfg
                                    sample_due))
               = S (tx_count 0 (trace sample_due))) by reflexivity.
  repeat (split; [assumption |]).
  destruct (group_gating always_ok sample_cfg 0 sample_tx_pdu sample_stopped
              {| SduDataPtr := Some [0xAB; 0xCD]; SduLength := 2 |} H1 H2)
    as (T & _).
  destruct (group_gating always_ok sample_cfg 1 sample_rx_pdu sample_stopped
              {| SduDataPtr := Some [0xAB; 0xCD]; SduLength := 2 |} H3 H4)
    as (_ & R).
  split; [exact T |]. split; [| exact R].
  eexists. split; [reflexivity |]. repeat split.
Defined.

Lemma cycle_honesty_witness :
  (forall h k sdu, always_ok h k sdu = E_OK) /\
  (0 < numOfGroups sample_cfg)%nat /\
  nth_error (IPduConfigs sample_cfg) 0 = Some sample_tx_pdu /\
  rxConfig sample_tx_pdu = None /\
  txConfig sample_tx_pdu = Some sample_tx /\
  Z.land (GroupRefMask sample_tx_pdu) (Z.shiftl 1 (Z.of_nat 0)) <> 0 /\
  Com_IpduGroupStart false sample_cfg 0 true sample_reset
  = Some sample_started /\
  tx_count 0 (trace (Nat.iter 7 (Com_MainFunctionTx always_ok sample_cfg)
                              sample_started))
  = S (tx_count 0 (trace (Nat.iter 6 (Com_MainFunctionTx always_ok sample_cfg)
                                   sample_started))) /\
  tx_count 0 (trace (Nat.iter 6 (Com_MainFunctionTx always_ok sample_cfg)
                              sample_started))
  = tx_count 0 (trace (Nat.iter 5 (Com_MainFunctionTx always_ok sample_cfg)
                                sample_started)).
Proof.
  assert (H1 : forall h k sdu, always_ok h k sdu = E_OK)
    by (intros; reflexivity).
  assert (H2 : (0 < numOfGroups sample_cfg)%nat) by (cbn; lia).
  assert (H3 : nth_error (IPduConfigs sample_cfg) 0 = Some sample_tx_pdu)
    by reflexivity.
  assert (H4 : rxConfig sample_tx_pdu = None) by reflexivity.
  assert (H5 : txConfig sample_tx_pdu = Some sample_tx) by reflexivity.
  assert (H6 : Z.land (GroupRefMask sample_tx_pdu)
                      (Z.shiftl 1 (Z.of_nat 0)) <> 0)
    by (vm_compute; discriminate).
  assert (H7 : Com_IpduGroupStart false sample_cfg 0 true sample_reset
               = Some sample_started) by (vm_compute; reflexivity).
  repeat (split; [assumption |]).
  destruct (cycle_honesty false always_ok sample_cfg 0 true 0 sample_tx_pdu
              sample_tx sample_reset sample_started H1 H2 H3 H4 H5 H6 H7)
    as (_ & Hn).
  split.
  - apply (proj1 (Hn 6%nat)). exists 1%nat. reflexivity.
  - apply (proj2 (Hn 5%nat)). intros [k Hk]. simpl in Hk. lia.
Defined.

Lemma rx_timeout_once_witness :
  (0 < numOfGroups sample_cfg)%nat /\
  nth_error (IPduConfigs sample_cfg) 1 = Some sample_rx_pdu /\
  rxConfig sample_rx_pdu = Some sample_rx /\
  Z.land (GroupRefMask sample_rx_pdu) (Z.shiftl 1 (Z.of_nat 0)) <> 0 /\
  Com_IpduGroupStart false sample_cfg 0 true sample_reset
  = Some sample_started /\
  (IPdu_length sample_rx_pdu <= 2)%nat /\
  (IPdu_length sample_rx_pdu <= length [0xAB; 0xCD])%nat /\
  rxTimer sample_started 1 = 1%nat /\
  rxTimer (Nat.iter 3 (Com_MainFunctionRx sample_cfg) sample_started) 1
  = (rxTimer sample_started 1 - 3)%nat /\
  timeout_count 1 (trace (Nat.iter 3 (Com_MainFunctionRx sample_cfg)
                                   sample_started))
  = (timeout_count 1 (trace sample_started) + 1)%nat /\
  exists s',
    Com_RxIndication sample_cfg 1
      {| SduDataPtr := Some [0xAB; 0xCD]; SduLength := 2 |}
      (Nat.iter 3 (Com_MainFunctionRx sample_cfg) sample_started) = Some s' /\
    rxTimer s' 1 = Timeout sample_rx.
Proof.
  assert (H1 : (0 < numOfGroups sample_cfg)%nat) by (cbn; lia).
  assert (H2 : nth_error (IPduConfigs sample_cfg) 1 = Some sample_rx_pdu)
    by reflexivity.
  assert (H3 : rxConfig sample_rx_pdu = Some sample_rx) by reflexivity.
  assert (H4 : Z.land (GroupRefMask sample_rx_pdu)
                      (Z.shiftl 1 (Z.of_nat 0)) <> 0)
    by (vm_compute; discriminate).
  assert (H5 : Com_IpduGroupStart false sample_cfg 0 true sample_reset
               = Some sample_started) by (vm_compute; reflexivity).
  assert (H6 : (IPdu_length sample_rx_pdu <= 2)%nat) by (cbn; lia).
  assert (H7 : (IPdu_length sample_rx_pdu <= length [0xAB; 0xCD])%nat)
    by (cbn; lia).
  repeat (split; [assumption |]).
  destruct (rx_timeout_once false sample_cfg 0 true 1 sample_rx_pdu sample_rx
              sample_reset sample_started H1 H2 H3 H4 H5) as (A & Hn).
  split; [exact A |].
  destruct (Hn 3%nat) as (T & C & R).
  split; [exact T |]. split; [rewrite C; reflexivity |].
  exact (R [0xAB; 0xCD] 2%nat H6 H7).
Defined.

Lemma trigger_transmit_any_pdu_witness :
  (1 < numOfIPdus sample_cfg)%nat /\
  exists pdu,
    nth_error (IPduConfigs sample_cfg) 1 = Some pdu /\
    forall (sdu : list Z) (len : nat),
      (IPdu_length pdu <= len)%nat ->
      (len <= length sdu)%nat ->
      Com_TriggerTransmit sample_cfg 1
        {| SduDataPtr := Some sdu; SduLength := len |} sample_reset =
      Some (E_OK, sample_reset,
            Some (read_bytes (pduRam sample_reset) (IPdu_ptr pdu)
                             (IPdu_length pdu)
                  ++ skipn (IPdu_length pdu) sdu)).
Proof.
  assert (H1 : (1 < numOfIPdus sample_cfg)%nat) by (cbn; lia).
  split; [exact H1 |].
  exact (trigger_transmit_any_pdu sample_cfg 1 sample_reset H1).
Defined.

Lemma group_start_sets_update_bits_witness :
  (0 < numOfGroups sample_cfg)%nat /\
  (0 < 31)%nat /\
  forallb init_ok (init_signals sample_cfg 0) = true /\
  exists s0,
    Com_IpduGroupStart false sample_cfg 0 true sample_reset = Some s0 /\
    Std_BitGet (pduRam s0) (ptr sample_speed) 12 = true /\
    Std_BitGet (pduRam s0) (ptr sample_block) 24 = true.
Proof.
  assert (H1 : (0 < numOfGroups sample_cfg)%nat) by (cbn; lia).
  assert (H2 : (0 < 31)%nat) by lia.
  assert (H3 : forallb init_ok (init_signals sample_cfg 0) = true)
    by reflexivity.
  repeat (split; [assumption |]).
  destruct (group_start_sets_update_bits false sample_cfg 0 sample_reset
              H1 H2 H3) as (s0 & E & B).
  exists s0. split; [exact E |]. split.
  - apply (B [] [sample_rx_pdu] sample_tx_pdu [] [sample_block]
             sample_speed 12%nat).
    + reflexivity.
    + vm_compute. discriminate.
    + reflexivity.
    + reflexivity.
    + reflexivity.
  - apply (B [] [sample_rx_pdu] sample_tx_pdu [sample_speed] []
             sample_block 24%nat).
    + reflexivity.
    + vm_compute. discriminate.
    + reflexivity.
    + reflexivity.
    + reflexivity.
Defined.

(** * Further properties of the signal packer *)

(** ** Scalar signals in general *)

(** A scalar signal whose update bit is not a bit of its field: what is
    received after a send is the word that was sent, cut to the width of
    the field and stored by [comStoreSignalValue]. *)
Lemma scalar_send_receive (be : bool) (signal : Com_SignalConfigType)
      (src : cptr) (v : Z) (m : ram) :
  (0 < type_size (type signal))%nat ->
  Endianness signal <> OPAQUE ->
  ubit_outside_field signal = true ->
  comGetSignalValue be signal src = Some (E_OK, v) ->
  exists m1 m2,
    comSendSignal be signal src m = Some (E_OK, m1) /\
    forall be' dst,
      comReceiveSignal be' signal dst m1 =
      match comStoreSignalValue be' signal
              (v mod 2 ^ Z.of_nat (BitSize signal)) dst with
      | Some (r, p) => Some (r, m2, p)
      | None => None
      end.
Proof.
  intros Hn He Hub Hg.
  assert (Hu : is_UINT8N (type signal) = false)
    by (destruct (type signal); simpl in Hn; lia || reflexivity).
  unfold comSendSignal, comReceiveSignal. rewrite Hu.
  unfold ubit_outside_field, sig_field in Hub. rewrite Hu in Hub.
  replace (Nat.eqb (type_size (type signal)) 0) with false in Hub
    by (symmetry; apply Nat.eqb_neq; lia).
  cbn [COM_USE_SIGNAL_UPDATE_BIT].
  unfold comSendSignalBig, comSendSignalLittle,
    comReceiveSignalBig, comReceiveSignalLittle.
  destruct (Endianness signal) eqn:Ee; [| | congruence];
    cbn [is_OPAQUE orb] in *; rewrite Hg;
    destruct (UpdateBit signal) as [u |].
  - apply negb_true_iff in Hub.
    do 2 eexists. split; [reflexivity |]. intros be' dst.
    rewrite Std_BitGet_BitSet, Nat.eqb_refl.
    change (Std_BitClear ?a ?b ?c) with (Std_BitWrite a b c false).
    change (Std_BitSet ?a ?b ?c) with (Std_BitWrite a b c true).
    rewrite !Std_BitGetBigEndian_BitWrite by assumption.
    rewrite BigEndian_roundtrip.
    destruct (comStoreSignalValue be' signal _ dst) as [[r p] |]; reflexivity.
  - do 2 eexists. split; [reflexivity |]. intros be' dst.
    rewrite BigEndian_roundtrip.
    destruct (comStoreSignalValue be' signal _ dst) as [[r p] |]; reflexivity.
  - apply negb_true_iff in Hub.
    do 2 eexists. split; [reflexivity |]. intros be' dst.
    rewrite Std_BitGet_BitSet, Nat.eqb_refl.
    change (Std_BitClear ?a ?b ?c) with (Std_BitWrite a b c false).
    change (Std_BitSet ?a ?b ?c) with (Std_BitWrite a b c true).
    rewrite !Std_BitGetLittleEndian_BitWrite by assumption.
    rewrite LittleEndian_roundtrip.
    destruct (comStoreSignalValue be' signal _ dst) as [[r p] |]; reflexivity.
  - do 2 eexists. split; [reflexivity |]. intros be' dst.
    rewrite LittleEndian_roundtrip.
    destruct (comStoreSignalValue be' signal _ dst) as [[r p] |]; reflexivity.
Qed.

(** The word that [comStoreSignalValue] stores for an unsigned kind is the
    masked field. *)
Lemma comStoreSignalValue_unsigned (be : bool) (signal : Com_SignalConfigType)
      (g : Z) (dst : list Z) :
  is_signed (type signal) = false ->
  (0 < type_size (type signal))%nat ->
  1 <= Z.of_nat (BitSize signal) <= 32 ->
  (type_size (type signal) <= length dst)%nat ->
  comStoreSignalValue be signal g (Some dst) =
  Some (E_OK,
        Some (int_rep be (type_size (type signal))
                      (g mod 2 ^ Z.of_nat (BitSize signal))
              ++ skipn (type_size (type signal)) dst)).
Proof.
  intros Hs Hn Hw Hd. unfold comStoreSignalValue, store_int, int_rep.
  assert (Hm : Z.land g (Z.shiftr 0xFFFFFFFF (32 - Z.of_nat (BitSize signal)))
               = g mod 2 ^ Z.of_nat (BitSize signal)).
  { rewrite <- Z.land_ones by lia. f_equal.
    apply Z.bits_inj'. intros j Hj.
    rewrite testbit_field_mask, Z.testbit_ones by lia.
    destruct (Z.leb_spec 0 j); [reflexivity | lia]. }
  rewrite Hm.
  destruct (type signal); try discriminate Hs; simpl in Hn; try lia;
    cbn [type_size] in *;
    match goal with
    | |- context [Nat.ltb (length dst) ?k] =>
        replace (Nat.ltb (length dst) k) with false
          by (symmetry; apply Nat.ltb_ge; exact Hd)
    end; reflexivity.
Qed.

(** X1.  An unsigned signal (U8, U16, U32) comes back cut to the width of its
    field: the value itself when it fits into the field, its low bits
    otherwise. *)
Theorem unsigned_signal_roundtrip
        (be : bool) (signal : Com_SignalConfigType) (x : Z) (dst : list Z)
        (m : ram) :
  is_signed (type signal) = false ->
  (0 < type_size (type signal))%nat ->
  Endianness signal <> OPAQUE ->
  ubit_outside_field signal = true ->
  1 <= Z.of_nat (BitSize signal) <= 32 ->
  0 <= x < 2 ^ (8 * Z.of_nat (type_size (type signal))) ->
  (type_size (type signal) <= length dst)%nat ->
  exists m1 m2,
    comSendSignal be signal
      (Some (int_rep be (type_size (type signal)) x)) m = Some (E_OK, m1) /\
    comReceiveSignal be signal (Some dst) m1 =
    Some (E_OK, m2,
          Some (int_rep be (type_size (type signal))
                        (x mod 2 ^ Z.of_nat (BitSize signal))
                ++ skipn (type_size (type signal)) dst)) /\
    host_value be (int_rep be (type_size (type signal))
                           (x mod 2 ^ Z.of_nat (BitSize signal)))
    = x mod 2 ^ Z.of_nat (BitSize signal) /\
    (x < 2 ^ Z.of_nat (BitSize signal) ->
     x mod 2 ^ Z.of_nat (BitSize signal) = x).
Proof.
  intros Hs Hn He Hub Hw Hx Hd.
  assert (Hg : comGetSignalValue be signal
                 (Some (int_rep be (type_size (type signal)) x))
               = Some (E_OK, x)).
  { rewrite <- (app_nil_r (int_rep _ _ _)).
    rewrite comGetSignalValue_int_rep by assumption.
    now rewrite Z.mod_small by lia. }
  destruct (scalar_send_receive be signal _ x m Hn He Hub Hg)
    as (m1 & m2 & Hsend & Hrecv).
  exists m1, m2. split; [exact Hsend |]. split; [| split].
  - rewrite Hrecv, comStoreSignalValue_unsigned by assumption.
    now rewrite Z.mod_mod by (apply Z.pow_nonzero; lia).
  - unfold int_rep. rewrite host_value_host_bytes.
    rewrite Z.mod_mod by (apply Z.pow_nonzero; lia).
    apply Z.mod_small.
    pose proof (Z.mod_pos_bound x (2 ^ Z.of_nat (BitSize signal))
                  ltac:(apply Z.pow_pos_nonneg; lia)).
    pose proof (Z.mod_le x (2 ^ Z.of_nat (BitSize signal))
                  ltac:(lia) ltac:(apply Z.pow_pos_nonneg; lia)).
    lia.
  - intros Hlt. apply Z.mod_small. lia.
Qed.

Lemma mod_pow2_mod_pow2 (a w N : Z) :
  0 <= w <= N -> (a mod 2 ^ N) mod 2 ^ w = a mod 2 ^ w.
Proof.
  intros H. apply Z.bits_inj'. intros j Hj.
  rewrite !Z.testbit_mod_pow2 by lia.
  destruct (Z.ltb_spec j w); destruct (Z.ltb_spec j N);
    simpl; lia || reflexivity.
Qed.

Lemma swrap_range (w x : Z) :
  1 <= w -> - 2 ^ (w - 1) <= swrap w x < 2 ^ (w - 1).
Proof.
  intros Hw. unfold swrap.
  assert (E : 2 ^ w = 2 * 2 ^ (w - 1)).
  { rewrite <- Z.pow_succ_r by lia. f_equal. lia. }
  pose proof (Z.mod_pos_bound (x + 2 ^ (w - 1)) (2 ^ w)
                ltac:(apply Z.pow_pos_nonneg; lia)).
  lia.
Qed.

Lemma swrap_mod (w x : Z) : 1 <= w -> swrap w x mod 2 ^ w = x mod 2 ^ w.
Proof.
  intros Hw. unfold swrap.
  rewrite Zminus_mod_idemp_l. f_equal. lia.
Qed.

Lemma swrap_id (w x : Z) :
  1 <= w -> - 2 ^ (w - 1) <= x < 2 ^ (w - 1) -> swrap w x = x.
Proof.
  intros Hw Hx. unfold swrap.
  assert (E : 2 ^ w = 2 * 2 ^ (w - 1)).
  { rewrite <- Z.pow_succ_r by lia. f_equal. lia. }
  rewrite Z.mod_small by lia. lia.
Qed.

(** X2.  A signed signal (S8, S16, S32) in a field that is not wider than its
    type comes back wrapped into the signed range of the field: the value
    received agrees with the value sent on the bits of the field, and it is
    the value sent when that is in the range. *)
Theorem signed_signal_wraps
        (be : bool) (signal : Com_SignalConfigType) (x : Z) (dst : list Z)
        (m : ram) :
  is_signed (type signal) = true ->
  Endianness signal <> OPAQUE ->
  ubit_outside_field signal = true ->
  1 <= Z.of_nat (BitSize signal) <= 8 * Z.of_nat (type_size (type signal)) ->
  - 2 ^ (8 * Z.of_nat (type_size (type signal)) - 1) <= x
    < 2 ^ (8 * Z.of_nat (type_size (type signal)) - 1) ->
  (type_size (type signal) <= length dst)%nat ->
  exists m1 m2 out,
    comSendSignal be signal
      (Some (int_rep be (type_size (type signal)) x)) m = Some (E_OK, m1) /\
    comReceiveSignal be signal (Some dst) m1 = Some (E_OK, m2, Some out) /\
    int_val be (type_size (type signal)) out
    = swrap (Z.of_nat (BitSize signal)) x /\
    (int_val be (type_size (type signal)) out - x)
      mod 2 ^ Z.of_nat (BitSize signal) = 0 /\
    - 2 ^ (Z.of_nat (BitSize signal) - 1)
      <= int_val be (type_size (type signal)) out
      < 2 ^ (Z.of_nat (BitSize signal) - 1).
Proof.
  intros Hs He Hub Hw Hx Hd.
  destruct (is_signed_size _ Hs) as [Hn _].
  set (n := type_size (type signal)) in *.
  set (w := Z.of_nat (BitSize signal)) in *.
  assert (Hn32 : 8 * Z.of_nat n <= 32)
    by (unfold n; destruct (type signal); simpl; lia).
  assert (Hg : comGetSignalValue be signal (Some (int_rep be n x))
               = Some (E_OK, x mod 2 ^ (8 * Z.of_nat n))).
  { rewrite <- (app_nil_r (int_rep _ _ _)).
    unfold n. now rewrite comGetSignalValue_int_rep. }
  destruct (scalar_send_receive be signal _ _ m Hn He Hub Hg)
    as (m1 & m2 & Hsend & Hrecv).
  pose proof (swrap_range w x ltac:(lia)) as Hr.
  assert (Hst : comStoreSignalValue be signal
                  ((x mod 2 ^ (8 * Z.of_nat n)) mod 2 ^ w) (Some dst)
                = Some (E_OK, Some (int_rep be n (swrap w x) ++ skipn n dst))).
  { pose proof (comStoreSignalValue_signed be signal (swrap w x) dst Hs) as St.
    cbv zeta in St. fold n in St. fold w in St.
    specialize (St ltac:(lia) Hr Hd).
    replace ((x mod 2 ^ (8 * Z.of_nat n)) mod 2 ^ w)
      with ((swrap w x mod 2 ^ (8 * Z.of_nat n)) mod 2 ^ w); [exact St |].
    rewrite !mod_pow2_mod_pow2 by lia. now rewrite swrap_mod by lia. }
  assert (Hv : int_val be n (int_rep be n (swrap w x) ++ skipn n dst)
               = swrap w x).
  { apply int_val_int_rep; [assumption |].
    assert (2 ^ (w - 1) <= 2 ^ (8 * Z.of_nat n - 1))
      by (apply Z.pow_le_mono_r; lia).
    lia. }
  exists m1, m2, (int_rep be n (swrap w x) ++ skipn n dst).
  split; [exact Hsend |]. split; [| split; [exact Hv | split]].
  - rewrite Hrecv. fold w. now rewrite Hst.
  - rewrite Hv. rewrite Zminus_mod, swrap_mod, <- Zminus_mod by lia.
    rewrite Z.sub_diag. apply Z.mod_0_l. apply Z.pow_nonzero; lia.
  - rewrite Hv. exact Hr.
Qed.

(** ** Byte arrays and opaque signals *)

Lemma read_bytes_ext (m m' : ram) (a n : nat) :
  (forall x, (a <= x < a + n)%nat -> m' x = m x) ->
  read_bytes m' a n = read_bytes m a n.
Proof.
  intros H. unfold read_bytes. apply map_ext_in.
  intros x Hx. apply in_seq in Hx. now apply H.
Qed.

Lemma read_bytes_write_bytes (m : ram) (bs : list Z) :
  forall a, read_bytes (write_bytes m a bs) a (length bs) = bs.
Proof.
  unfold read_bytes, write_bytes.
  induction bs as [| b t IH]; intros a; [reflexivity |].
  cbn [length seq map]. f_equal.
  - replace (Nat.leb a a && Nat.ltb a (a + S (length t)))%bool with true.
    + now rewrite Nat.sub_diag.
    + symmetry. apply andb_true_intro.
      split; [apply Nat.leb_le | apply Nat.ltb_lt]; lia.
  - etransitivity; [| exact (IH (S a))]. apply map_ext_in.
    intros x Hx. apply in_seq in Hx.
    replace (Nat.leb a x && Nat.ltb x (a + S (length t)))%bool with true
      by (symmetry; apply andb_true_intro;
          split; [apply Nat.leb_le | apply Nat.ltb_lt]; lia).
    replace (Nat.leb (S a) x && Nat.ltb x (S a + length t))%bool with true
      by (symmetry; apply andb_true_intro;
          split; [apply Nat.leb_le | apply Nat.ltb_lt]; lia).
    replace (x - a)%nat with (S (x - S a)) by lia. reflexivity.
Qed.

Lemma write_bytes_outside (m : ram) (a x : nat) (bs : list Z) :
  (x < a \/ a + length bs <= x)%nat -> write_bytes m a bs x = m x.
Proof.
  intros H. unfold write_bytes.
  destruct (Nat.leb_spec a x); destruct (Nat.ltb_spec x (a + length bs));
    simpl; lia || reflexivity.
Qed.

(** A byte copy through the send path and back. *)
Lemma opaque_send_receive
        (be : bool) (signal : Com_SignalConfigType) (src dst : list Z)
        (m : ram) :
  (is_UINT8N (type signal) || is_OPAQUE (Endianness signal))%bool = true ->
  ubit_outside_field signal = true ->
  (BitSize signal / 8 <= length src)%nat ->
  (BitSize signal / 8 <= length dst)%nat ->
  exists m1 m2,
    comSendSignal be signal (Some src) m = Some (E_OK, m1) /\
    read_bytes m1 (ptr signal) (BitSize signal / 8)
    = firstn (BitSize signal / 8) src /\
    comReceiveSignal be signal (Some dst) m1 =
    Some (E_OK, m2,
          Some (firstn (BitSize signal / 8) src
                ++ skipn (BitSize signal / 8) dst)) /\
    read_bytes m2 (ptr signal) (BitSize signal / 8)
    = firstn (BitSize signal / 8) src.
Proof.
  intros Hk Hub Hs Hd.
  set (n := (BitSize signal / 8)%nat) in *.
  unfold comSendSignal, comReceiveSignal. rewrite Hk.
  unfold memcpy_to_ram, memcpy_from_ram. fold n.
  replace (Nat.ltb (length src) n) with false
    by (symmetry; apply Nat.ltb_ge; exact Hs).
  replace (Nat.ltb (length dst) n) with false
    by (symmetry; apply Nat.ltb_ge; exact Hd).
  cbn [COM_USE_SIGNAL_UPDATE_BIT].
  assert (Hl : length (firstn n src) = n)
    by (rewrite length_firstn; lia).
  assert (Hw : read_bytes (write_bytes m (ptr signal) (firstn n src))
                          (ptr signal) n = firstn n src).
  { rewrite <- Hl at 2. apply read_bytes_write_bytes. }
  unfold ubit_outside_field, sig_field in Hub. rewrite Hk in Hub. fold n in Hub.
  destruct (UpdateBit signal) as [u |].
  - apply negb_true_iff in Hub.
    assert (Hc : (ptr signal + n <= ptr signal + u / 8)%nat).
    { unfold abit in Hub. split8 u.
      destruct (Nat.leb_spec (8 * ptr signal) (8 * ptr signal + u));
        destruct (Nat.ltb_spec (8 * ptr signal + u) (8 * (ptr signal + n)));
        simpl in Hub; try discriminate; lia. }
    set (m0 := write_bytes m (ptr signal) (firstn n src)) in *.
    assert (H1 : read_bytes (Std_BitSet m0 (ptr signal) u) (ptr signal) n
                 = firstn n src).
    { rewrite <- Hw. apply read_bytes_ext. intros x Hx.
      unfold Std_BitSet. apply upd_other. lia. }
    assert (H2 : read_bytes (Std_BitClear (Std_BitSet m0 (ptr signal) u)
                                          (ptr signal) u) (ptr signal) n
                 = firstn n src).
    { rewrite <- H1. apply read_bytes_ext. intros x Hx.
      unfold Std_BitClear. apply upd_other. lia. }
    do 2 eexists. split; [reflexivity |]. split; [exact H1 |].
    rewrite Std_BitGet_BitSet, Nat.eqb_refl, H2.
    split; [reflexivity | exact H2].
  - do 2 eexists. split; [reflexivity |]. split; [exact Hw |].
    rewrite Hw. split; [reflexivity | exact Hw].
Qed.

(** X3.  A signal that is sent by byte copy (kind UINT8N, or opaque): the
    [BitSize / 8] bytes of the source land verbatim at [ptr], whatever the
    bit position says, and come back verbatim on reception, when the update
    bit of the signal is not in these bytes. *)
Theorem opaque_signal_passthrough
        (be : bool) (signal : Com_SignalConfigType) (src dst : list Z)
        (m : ram) :
  (is_UINT8N (type signal) || is_OPAQUE (Endianness signal))%bool = true ->
  ubit_outside_field signal = true ->
  (BitSize signal / 8 <= length src)%nat ->
  (BitSize signal / 8 <= length dst)%nat ->
  exists m1 m2,
    comSendSignal be signal (Some src) m = Some (E_OK, m1) /\
    read_bytes m1 (ptr signal) (BitSize signal / 8)
    = firstn (BitSize signal / 8) src /\
    comReceiveSignal be signal (Some dst) m1 =
    Some (E_OK, m2,
          Some (firstn (BitSize signal / 8) src
                ++ skipn (BitSize signal / 8) dst)) /\
    read_bytes m2 (ptr signal) (BitSize signal / 8)
    = firstn (BitSize signal / 8) src.
Proof.
  apply opaque_send_receive.
Qed.

(** ** What the send path leaves alone *)

(** The bits that a send leaves alone. *)
Lemma comSendSignal_other_bits (CPU_BIG_ENDIAN : bool)
        (signal : Com_SignalConfigType) (src : cptr) (m m' : ram)
        (r : Std_ReturnType) (p q : nat) :
  comSendSignal CPU_BIG_ENDIAN signal src m = Some (r, m') ->
  sig_field signal (abit p q) = false ->
  (forall u, UpdateBit signal = Some u -> abit p q <> abit (ptr signal) u) ->
  Std_BitGet m' p q = Std_BitGet m p q.
Proof.
  intros H Hf Hu. unfold comSendSignal in H. unfold sig_field in Hf.
  cbn [COM_USE_SIGNAL_UPDATE_BIT] in H.
  assert (W : forall m1 r1,
             match UpdateBit signal with
             | Some u => Some (r1, Std_BitSet m1 (ptr signal) u)
             | None => Some (r1, m1)
             end = Some (r, m') ->
             Std_BitGet m' p q = Std_BitGet m1 p q).
  { intros m1 r1 E. destruct (UpdateBit signal) as [u |];
      injection E as _ <-; [| reflexivity].
    rewrite Std_BitGet_BitSet.
    destruct (Nat.eqb_spec (abit p q) (abit (ptr signal) u)) as [E | _];
      [| reflexivity].
    exfalso. now apply (Hu u). }
  destruct (is_UINT8N (type signal) || is_OPAQUE (Endianness signal))%bool
    eqn:Hc.
  - unfold memcpy_to_ram in H. destruct src as [bs |]; [| discriminate].
    destruct (Nat.ltb_spec (length bs) (BitSize signal / 8)) as [L | L];
      [discriminate |].
    apply W in H. rewrite H.
    apply Std_BitGet_write_bytes.
    rewrite length_firstn, Nat.min_l by exact L. exact Hf.
  - apply orb_false_iff in Hc. destruct Hc as [_ Ho].
    destruct (Endianness signal) eqn:He; [| | discriminate Ho].
    + destruct (comSendSignalBig CPU_BIG_ENDIAN signal src m)
        as [[r1 m1] |] eqn:Hs; [| discriminate].
      apply W in H. rewrite H.
      destruct (comSendSignalBig_result _ _ _ _ _ _ Hs)
        as [[_ ->] | (_ & Hn & v & ->)]; [reflexivity |].
      replace (Nat.eqb (type_size (type signal)) 0) with false in Hf
        by (symmetry; apply Nat.eqb_neq; lia).
      now rewrite Std_BitSetBigEndian_bit, Hf.
    + destruct (comSendSignalLittle CPU_BIG_ENDIAN signal src m)
        as [[r1 m1] |] eqn:Hs; [| discriminate].
      apply W in H. rewrite H.
      destruct (comSendSignalLittle_result _ _ _ _ _ _ Hs)
        as [[_ ->] | (_ & Hn & v & ->)]; [reflexivity |].
      replace (Nat.eqb (type_size (type signal)) 0) with false in Hf
        by (symmetry; apply Nat.eqb_neq; lia).
      now rewrite Std_BitSetLittleEndian_bit, Hf.
Qed.

(** X4.  [comSendSignal] changes no bit other than the data bits of the signal
    and its update bit. *)
Theorem comSendSignal_frame (CPU_BIG_ENDIAN : bool)
        (signal : Com_SignalConfigType) (src : cptr) (m m' : ram)
        (r : Std_ReturnType) (p q : nat) :
  comSendSignal CPU_BIG_ENDIAN signal src m = Some (r, m') ->
  sig_field signal (abit p q) = false ->
  (forall u, UpdateBit signal = Some u -> abit p q <> abit (ptr signal) u) ->
  Std_BitGet m' p q = Std_BitGet m p q.
Proof.
  apply comSendSignal_other_bits.
Qed.

(** ** The packer at the sample configuration *)

Lemma unsigned_signal_roundtrip_witness :
  is_signed (type sample_door) = false /\
  (0 < type_size (type sample_door))%nat /\
  Endianness sample_door <> OPAQUE /\
  ubit_outside_field sample_door = true /\
  1 <= Z.of_nat (BitSize sample_door) <= 32 /\
  0 <= 0x5A < 2 ^ (8 * Z.of_nat (type_size (type sample_door))) /\
  (type_size (type sample_door) <= length [0])%nat /\
  exists m1 m2,
    comSendSignal false sample_door (Some [0x5A]) (pduRam sample_reset)
    = Some (E_OK, m1) /\
    comReceiveSignal false sample_door (Some [0]) m1
    = Some (E_OK, m2, Some [0x5A]).
Proof.
  assert (H1 : is_signed (type sample_door) = false) by reflexivity.
  assert (H2 : (0 < type_size (type sample_door))%nat) by (cbn; lia).
  assert (H3 : Endianness sample_door <> OPAQUE) by discriminate.
  assert (H4 : ubit_outside_field sample_door = true) by reflexivity.
  assert (H5 : 1 <= Z.of_nat (BitSize sample_door) <= 32) by (cbn; lia).
  assert (H6 : 0 <= 0x5A < 2 ^ (8 * Z.of_nat (type_size (type sample_door))))
    by (cbn; lia).
  assert (H7 : (type_size (type sample_door) <= length [0])%nat)
    by (cbn; lia).
  repeat (split; [assumption |]).
  destruct (unsigned_signal_roundtrip false sample_door 0x5A [0]
              (pduRam sample_reset) H1 H2 H3 H4 H5 H6 H7)
    as (m1 & m2 & A & B & _).
  exists m1, m2. split; [exact A | exact B].
Defined.

Lemma signed_signal_wraps_witness :
  is_signed (type sample_speed) = true /\
  Endianness sample_speed <> OPAQUE /\
  ubit_outside_field sample_speed = true /\
  1 <= Z.of_nat (BitSize sample_speed)
    <= 8 * Z.of_nat (type_size (type sample_speed)) /\
  - 2 ^ (8 * Z.of_nat (type_size (type sample_speed)) - 1) <= 3000
    < 2 ^ (8 * Z.of_nat (type_size (type sample_speed)) - 1) /\
  (type_size (type sample_speed) <= length [0; 0])%nat /\
  exists m1 m2 out,
    comSendSignal false sample_speed (Some (int_rep false 2 3000))
                  (pduRam sample_reset) = Some (E_OK, m1) /\
    comReceiveSignal false sample_speed (Some [0; 0]) m1
    = Some (E_OK, m2, Some out) /\
    int_val false 2 out = -1096.
Proof.
  assert (H1 : is_signed (type sample_speed) = true) by reflexivity.
  assert (H2 : Endianness sample_speed <> OPAQUE) by discriminate.
  assert (H3 : ubit_outside_field sample_speed = true) by reflexivity.
  assert (H4 : 1 <= Z.of_nat (BitSize sample_speed)
               <= 8 * Z.of_nat (type_size (type sample_speed)))
    by (cbn; lia).
  assert (H5 : - 2 ^ (8 * Z.of_nat (type_size (type sample_speed)) - 1)
               <= 3000
               < 2 ^ (8 * Z.of_nat (type_size (type sample_speed)) - 1))
    by (cbn; lia).
  assert (H6 : (type_size (type sample_speed) <= length [0; 0])%nat)
    by (cbn; lia).
  repeat (split; [assumption |]).
  destruct (signed_signal_wraps false sample_speed 3000 [0; 0]
              (pduRam sample_reset) H1 H2 H3 H4 H5 H6)
    as (m1 & m2 & out & A & B & C & _).
  exists m1, m2, out. split; [exact A | split; [exact B | exact C]].
Defined.

Lemma opaque_signal_passthrough_witness :
  (is_UINT8N (type sample_vin) || is_OPAQUE (Endianness sample_vin))%bool
  = true /\
  ubit_outside_field sample_vin = true /\
  (BitSize sample_vin / 8 <= length [1; 2; 3; 4])%nat /\
  (BitSize sample_vin / 8 <= length [0; 0; 0; 9])%nat /\
  exists m1 m2,
    comSendSignal false sample_vin (Some [1; 2; 3; 4]) (pduRam sample_reset)
    = Some (E_OK, m1) /\
    read_bytes m1 16 3 = [1; 2; 3] /\
    comReceiveSignal false sample_vin (Some [0; 0; 0; 9]) m1
    = Some (E_OK, m2, Some [1; 2; 3; 9]) /\
    read_bytes m2 16 3 = [1; 2; 3].
Proof.
  assert (H1 : (is_UINT8N (type sample_vin)
                || is_OPAQUE (Endianness sample_vin))%bool = true)
    by reflexivity.
  assert (H2 : ubit_outside_field sample_vin = true) by reflexivity.
  assert (H3 : (BitSize sample_vin / 8 <= length [1; 2; 3; 4])%nat)
    by (cbn; lia).
  assert (H4 : (BitSize sample_vin / 8 <= length [0; 0; 0; 9])%nat)
    by (cbn; lia).
  repeat (split; [assumption |]).
  exact (opaque_signal_passthrough false sample_vin [1; 2; 3; 4] [0; 0; 0; 9]
           (pduRam sample_reset) H1 H2 H3 H4).
Defined.

Lemma comSendSignal_frame_witness :
  comSendSignal false sample_speed (Some [0xFF; 0xFF]) (pduRam sample_reset)
  = Some (E_OK, pduRam sample_sent) /\
  sig_field sample_speed (abit 0 13) = false /\
  (forall u, UpdateBit sample_speed = Some u ->
             abit 0 13 <> abit (ptr sample_speed) u) /\
  Std_BitGet (pduRam sample_sent) 0 13 = Std_BitGet (pduRam sample_reset) 0 13.
Proof.
  assert (H1 : comSendSignal false sample_speed (Some [0xFF; 0xFF])
                             (pduRam sample_reset)
               = Some (E_OK, pduRam sample_sent)) by reflexivity.
  assert (H2 : sig_field sample_speed (abit 0 13) = false) by reflexivity.
  assert (H3 : forall u, UpdateBit sample_speed = Some u ->
                         abit 0 13 <> abit (ptr sample_speed) u).
  { intros u E. injection E as <-. discriminate. }
  repeat (split; [assumption |]).
  exact (comSendSignal_frame false sample_speed (Some [0xFF; 0xFF])
           (pduRam sample_reset) (pduRam sample_sent) E_OK 0 13 H1 H2 H3).
Defined.

(** * Further properties of the scheduler *)

(** ** Update bits after a transmission *)

Lemma comTxClearUpdateBit_loop_bits (sigs : list Com_SignalConfigType)
      (a q : nat) :
  forall m,
    Std_BitGet (comTxClearUpdateBit_loop sigs m) a q
    = (Std_BitGet m a q && negb (update_bit_at sigs (abit a q)))%bool.
Proof.
  induction sigs as [| signal rest IH]; intros m; simpl.
  - now rewrite andb_true_r.
  - rewrite IH. destruct (UpdateBit signal) as [u |]; [| reflexivity].
    rewrite Std_BitGet_BitClear.
    destruct (Nat.eqb (abit a q) (abit (ptr signal) u)); simpl;
      [now rewrite andb_false_r | reflexivity].
Qed.

(** X10.  [comTxClearUpdateBit] clears the update bits of the signals of the
    I-PDU and changes no other bit of the PDU RAM. *)
Theorem comTxClearUpdateBit_bits (p : Com_IPduConfigType) (m : ram)
        (a q : nat) :
  Std_BitGet (comTxClearUpdateBit p m) a q
  = (Std_BitGet m a q && negb (update_bit_at (signals p) (abit a q)))%bool.
Proof. apply comTxClearUpdateBit_loop_bits. Qed.

Lemma update_bit_at_In (sigs : list Com_SignalConfigType)
      (signal : Com_SignalConfigType) (u : nat) :
  In signal sigs -> UpdateBit signal = Some u ->
  update_bit_at sigs (abit (ptr signal) u) = true.
Proof.
  intros Hin Hu. unfold update_bit_at. apply existsb_exists.
  exists signal. split; [exact Hin |]. rewrite Hu. apply Nat.eqb_refl.
Qed.

Lemma group_active_land (s : Com_State) (p : Com_IPduConfigType) :
  Z.land (GroupStatus s) (GroupRefMask p) <> 0 -> group_active s p = true.
Proof.
  intros H. unfold group_active. apply negb_true_iff. now apply Z.eqb_neq.
Qed.

Section TxRam.

Variable PduR_ComTransmit : list Com_Event -> nat -> list Z -> Std_ReturnType.

(** The transmission loop sets no bit of the PDU RAM. *)
Lemma Com_MainFunctionTx_body_no_set (j : nat) (p : Com_IPduConfigType)
      (s : Com_State) (a q : nat) :
  Std_BitGet (pduRam (Com_MainFunctionTx_body PduR_ComTransmit j p s)) a q
  = true ->
  Std_BitGet (pduRam s) a q = true.
Proof.
  unfold Com_MainFunctionTx_body.
  destruct (txConfig p) as [tx |]; [| easy].
  destruct (group_active s p); [| easy].
  destruct (Nat.ltb 0 (txTimer s j)); [| easy].
  cbv zeta. destruct (Nat.eqb _ 0); [| easy].
  unfold transmit. cbv zeta.
  match goal with
  | |- context [PduR_ComTransmit ?x ?y ?z] => destruct (PduR_ComTransmit x y z)
  end; [| easy].
  cbn [COM_USE_SIGNAL_UPDATE_BIT pduRam set_pduRam set_txTimer emit].
  unfold comTxClearUpdateBit. rewrite comTxClearUpdateBit_loop_bits.
  intros H. now apply andb_true_iff in H.
Qed.

Lemma Com_MainFunctionTx_loop_no_set (pdus : list Com_IPduConfigType)
      (a q : nat) :
  forall (k : nat) (s : Com_State),
    Std_BitGet (pduRam (Com_MainFunctionTx_loop PduR_ComTransmit pdus k s)) a q
    = true ->
    Std_BitGet (pduRam s) a q = true.
Proof.
  induction pdus as [| p rest IH]; intros k s H; simpl in H.
  - exact H.
  - apply (Com_MainFunctionTx_body_no_set k p). now apply (IH (S k)).
Qed.

Lemma Com_MainFunctionTx_body_sent (i : nat) (p : Com_IPduConfigType)
      (tx : Com_IPduTxConfigType) (s : Com_State) :
  txConfig p = Some tx ->
  group_active s p = true ->
  txTimer s i = 1%nat ->
  (forall h sdu, PduR_ComTransmit h (TxPduId tx) sdu = E_OK) ->
  pduRam (Com_MainFunctionTx_body PduR_ComTransmit i p s)
  = comTxClearUpdateBit p (pduRam s).
Proof.
  intros Htx Ha Ht Hok. unfold Com_MainFunctionTx_body.
  rewrite Htx, Ha, Ht. cbn [Nat.ltb Nat.leb]. cbv zeta.
  cbn [txTimer set_txTimer]. rewrite Nat.eqb_refl. cbn [Nat.sub Nat.eqb].
  unfold transmit. cbv zeta. rewrite Hok. reflexivity.
Qed.

End TxRam.

(** X11.  When the timer of a TX I-PDU of an enabled group fires in a pass of
    [Com_MainFunctionTx] and the lower layer accepts the I-PDU, every
    update bit of a signal of the I-PDU is clear after the pass. *)
Theorem Com_MainFunctionTx_clears_update_bits
        (PduR_ComTransmit : list Com_Event -> nat -> list Z -> Std_ReturnType)
        (cfg : Com_ConfigType) (i : nat) (p : Com_IPduConfigType)
        (tx : Com_IPduTxConfigType) (s : Com_State)
        (signal : Com_SignalConfigType) (u : nat) :
  nth_error (IPduConfigs cfg) i = Some p ->
  txConfig p = Some tx ->
  Z.land (GroupStatus s) (GroupRefMask p) <> 0 ->
  txTimer s i = 1%nat ->
  (forall h sdu, PduR_ComTransmit h (TxPduId tx) sdu = E_OK) ->
  In signal (signals p) ->
  UpdateBit signal = Some u ->
  Std_BitGet (pduRam (Com_MainFunctionTx PduR_ComTransmit cfg s))
             (ptr signal) u = false.
Proof.
  intros Hi Htx Hg Ht Hok Hin Hu.
  unfold Com_MainFunctionTx. cbn [COM_USE_CAN].
  destruct (nth_error_split _ _ Hi) as (l1 & l2 & E & Hl).
  rewrite E, Com_MainFunctionTx_loop_app. simpl. rewrite Hl.
  set (s1 := Com_MainFunctionTx_loop PduR_ComTransmit l1 0 s).
  assert (Q : quiet i s s1)
    by (apply Com_MainFunctionTx_loop_quiet; lia).
  assert (Ha : group_active s1 p = true).
  { rewrite (group_active_quiet i s s1 p Q). now apply group_active_land. }
  assert (Ht1 : txTimer s1 i = 1%nat).
  { destruct Q as (_ & _ & T & _). now rewrite T. }
  apply not_true_is_false. intros B.
  apply Com_MainFunctionTx_loop_no_set in B.
  rewrite (Com_MainFunctionTx_body_sent _ i p tx s1 Htx Ha Ht1 Hok) in B.
  unfold comTxClearUpdateBit in B. rewrite comTxClearUpdateBit_loop_bits in B.
  rewrite (update_bit_at_In _ _ _ Hin Hu) in B.
  now rewrite andb_false_r in B.
Qed.

Lemma Com_MainFunctionTx_clears_update_bits_witness :
  nth_error (IPduConfigs sample_cfg) 0 = Some sample_tx_pdu /\
  txConfig sample_tx_pdu = Some sample_tx /\
  Z.land (GroupStatus sample_due) (GroupRefMask sample_tx_pdu) <> 0 /\
  txTimer sample_due 0 = 1%nat /\
  (forall h sdu, always_ok h (TxPduId sample_tx) sdu = E_OK) /\
  In sample_speed (signals sample_tx_pdu) /\
  UpdateBit sample_speed = Some 12%nat /\
  Std_BitGet (pduRam sample_due) (ptr sample_speed) 12 = true /\
  Std_BitGet (pduRam (Com_MainFunctionTx always_ok sample_cfg sample_due))
             (ptr sample_speed) 12 = false.
Proof.
  assert (H1 : nth_error (IPduConfigs sample_cfg) 0 = Some sample_tx_pdu)
    by reflexivity.
  assert (H2 : txConfig sample_tx_pdu = Some sample_tx) by reflexivity.
  assert (H3 : Z.land (GroupStatus sample_due) (GroupRefMask sample_tx_pdu)
               <> 0) by (vm_compute; discriminate).
  assert (H4 : txTimer sample_due 0 = 1%nat) by reflexivity.
  assert (H5 : forall h sdu, always_ok h (TxPduId sample_tx) sdu = E_OK)
    by reflexivity.
  assert (H6 : In sample_speed (signals sample_tx_pdu))
    by (simpl; left; reflexivity).
  assert (H7 : UpdateBit sample_speed = Some 12%nat) by reflexivity.
  assert (H8 : Std_BitGet (pduRam sample_due) (ptr sample_speed) 12 = true)
    by (vm_compute; reflexivity).
  repeat (split; [assumption |]).
  exact (Com_MainFunctionTx_clears_update_bits always_ok sample_cfg 0
           sample_tx_pdu sample_tx sample_due sample_speed 12
           H1 H2 H3 H4 H5 H6 H7).
Defined.

(** ** The transmission timer under any lower layer *)

Section TxAny.

Variable PduR_ComTransmit : list Com_Event -> nat -> list Z -> Std_ReturnType.

(** One TX I-PDU in one pass, by the value of its timer. *)
Lemma Com_MainFunctionTx_body_any (i : nat) (p : Com_IPduConfigType)
      (tx : Com_IPduTxConfigType) (s : Com_State) :
  txConfig p = Some tx ->
  group_active s p = true ->
  GroupStatus (Com_MainFunctionTx_body PduR_ComTransmit i p s)
  = GroupStatus s /\
  (txTimer s i = 0%nat ->
   txTimer (Com_MainFunctionTx_body PduR_ComTransmit i p s) i = 0%nat /\
   tx_count i (trace (Com_MainFunctionTx_body PduR_ComTransmit i p s))
   = tx_count i (trace s)) /\
  (txTimer s i = 1%nat ->
   tx_count i (trace (Com_MainFunctionTx_body PduR_ComTransmit i p s))
   = S (tx_count i (trace s)) /\
   (txTimer (Com_MainFunctionTx_body PduR_ComTransmit i p s) i = CycleTime tx
    \/ txTimer (Com_MainFunctionTx_body PduR_ComTransmit i p s) i = 1%nat) /\
   ((forall h sdu, PduR_ComTransmit h (TxPduId tx) sdu = E_NOT_OK) ->
    txTimer (Com_MainFunctionTx_body PduR_ComTransmit i p s) i = 1%nat)) /\
  ((1 < txTimer s i)%nat ->
   txTimer (Com_MainFunctionTx_body PduR_ComTransmit i p s) i
   = (txTimer s i - 1)%nat /\
   tx_count i (trace (Com_MainFunctionTx_body PduR_ComTransmit i p s))
   = tx_count i (trace s)).
Proof.
  intros Htx Ha. unfold Com_MainFunctionTx_body. rewrite Htx, Ha.
  destruct (Nat.ltb_spec 0 (txTimer s i)) as [Pos | Zero].
  - cbv zeta. cbn [txTimer set_txTimer]. rewrite Nat.eqb_refl.
    destruct (Nat.eqb_spec (txTimer s i - 1) 0) as [E | E].
    + unfold transmit. cbv zeta.
      match goal with
      | |- context [PduR_ComTransmit ?x ?y ?z] =>
          destruct (PduR_ComTransmit x y z) eqn:Er
      end.
      * cbn [COM_USE_SIGNAL_UPDATE_BIT].
        cbn [GroupStatus txTimer trace set_pduRam set_txTimer emit].
        rewrite Nat.eqb_refl, tx_count_emit_transmit.
        repeat split; intros; try lia; try reflexivity;
          try (left; reflexivity).
        match goal with
        | R : forall h sdu, _ = E_NOT_OK |- _ => now rewrite R in Er
        end.
      * cbn [GroupStatus txTimer trace set_txTimer emit].
        rewrite Nat.eqb_refl, tx_count_emit_transmit.
        repeat split; intros; try lia; try reflexivity;
          try (right; reflexivity).
    + cbn [GroupStatus txTimer trace set_txTimer]. rewrite Nat.eqb_refl.
      repeat split; intros; try lia; try reflexivity.
  - repeat split; intros; try lia; try reflexivity.
Qed.

(** The same for a whole pass of [Com_MainFunctionTx]. *)
Lemma Com_MainFunctionTx_any (cfg : Com_ConfigType) (i : nat)
      (p : Com_IPduConfigType) (tx : Com_IPduTxConfigType) (s : Com_State) :
  nth_error (IPduConfigs cfg) i = Some p ->
  txConfig p = Some tx ->
  group_active s p = true ->
  group_active (Com_MainFunctionTx PduR_ComTransmit cfg s) p = true /\
  (txTimer s i = 0%nat ->
   txTimer (Com_MainFunctionTx PduR_ComTransmit cfg s) i = 0%nat /\
   tx_count i (trace (Com_MainFunctionTx PduR_ComTransmit cfg s))
   = tx_count i (trace s)) /\
  (txTimer s i = 1%nat ->
   tx_count i (trace (Com_MainFunctionTx PduR_ComTransmit cfg s))
   = S (tx_count i (trace s)) /\
   (txTimer (Com_MainFunctionTx PduR_ComTransmit cfg s) i = CycleTime tx
    \/ txTimer (Com_MainFunctionTx PduR_ComTransmit cfg s) i = 1%nat) /\
   ((forall h sdu, PduR_ComTransmit h (TxPduId tx) sdu = E_NOT_OK) ->
    txTimer (Com_MainFunctionTx PduR_ComTransmit cfg s) i = 1%nat)) /\
  ((1 < txTimer s i)%nat ->
   txTimer (Com_MainFunctionTx PduR_ComTransmit cfg s) i
   = (txTimer s i - 1)%nat /\
   tx_count i (trace (Com_MainFunctionTx PduR_ComTransmit cfg s))
   = tx_count i (trace s)).
Proof.
  intros Hi Htx Ha. unfold Com_MainFunctionTx. cbn [COM_USE_CAN].
  destruct (Com_MainFunctionTx_loop_at PduR_ComTransmit _ _ _ s Hi)
    as (s1 & Q1 & Q2).
  assert (Ha1 : group_active s1 p = true)
    by (now rewrite (group_active_quiet i s s1 p Q1)).
  destruct (Com_MainFunctionTx_body_any i p tx s1 Htx Ha1)
    as (G & B0 & B1 & B2).
  pose proof (quiet_tx_count _ _ _ Q1) as C1.
  pose proof (quiet_tx_count _ _ _ Q2) as C2.
  destruct Q1 as (G1 & _ & T1 & _). destruct Q2 as (G2 & _ & T2 & _).
  rewrite T2, C2. rewrite T1 in B0, B1, B2. rewrite C1 in B0, B1, B2.
  split; [| split; [exact B0 | split; [exact B1 | exact B2]]].
  unfold group_active in *. rewrite G2, G. exact Ha1.
Qed.

End TxAny.

(** The timer of a TX I-PDU over several passes, for any lower layer. *)
Lemma Com_MainFunctionTx_iter_any
        (PduR_ComTransmit : list Com_Event -> nat -> list Z -> Std_ReturnType)
        (cfg : Com_ConfigType) (i : nat) (p : Com_IPduConfigType)
        (tx : Com_IPduTxConfigType) (s : Com_State) :
  nth_error (IPduConfigs cfg) i = Some p ->
  txConfig p = Some tx ->
  group_active s p = true ->
  (forall n,
      (n < txTimer s i)%nat \/ txTimer s i = 0%nat ->
      txTimer (Nat.iter n (Com_MainFunctionTx PduR_ComTransmit cfg) s) i
      = (txTimer s i - n)%nat /\
      tx_count i (trace
        (Nat.iter n (Com_MainFunctionTx PduR_ComTransmit cfg) s))
      = tx_count i (trace s)) /\
  ((0 < txTimer s i)%nat ->
   tx_count i (trace (Nat.iter (txTimer s i)
                        (Com_MainFunctionTx PduR_ComTransmit cfg) s))
   = S (tx_count i (trace s)) /\
   (txTimer (Nat.iter (txTimer s i)
               (Com_MainFunctionTx PduR_ComTransmit cfg) s) i = CycleTime tx
    \/ txTimer (Nat.iter (txTimer s i)
                  (Com_MainFunctionTx PduR_ComTransmit cfg) s) i = 1%nat)).
Proof.
  intros Hi Htx Hg.
  assert (Inv : forall n,
    group_active
      (Nat.iter n (Com_MainFunctionTx PduR_ComTransmit cfg) s) p = true /\
    ((n < txTimer s i)%nat \/ txTimer s i = 0%nat ->
     txTimer
       (Nat.iter n (Com_MainFunctionTx PduR_ComTransmit cfg) s) i
     = (txTimer s i - n)%nat /\
     tx_count i (trace
       (Nat.iter n (Com_MainFunctionTx PduR_ComTransmit cfg) s))
     = tx_count i (trace s))).
  { induction n as [| n [IHa IH]].
    - simpl. split; [exact Hg |]. intros _. split; [lia | reflexivity].
    - rewrite Nat.iter_succ.
      destruct (Com_MainFunctionTx_any PduR_ComTransmit cfg i p tx _
                  Hi Htx IHa) as (A & B0 & _ & B2).
      split; [exact A |]. intros H.
      destruct IH as [IHt IHc]; [lia |].
      destruct H as [H | H].
      + destruct B2 as [-> ->]; [lia |]. split; [lia | exact IHc].
      + destruct B0 as [-> ->]; [lia |]. split; [lia | exact IHc]. }
  split; [intros n; apply Inv |].
  intros Pos.
  destruct (txTimer s i) as [| t] eqn:Et; [lia |].
  destruct (Inv t) as [Ha [Ht Hc]]; [lia |].
  rewrite Nat.iter_succ.
  destruct (Com_MainFunctionTx_any PduR_ComTransmit cfg i p tx _ Hi Htx Ha)
    as (_ & _ & B1 & _).
  destruct B1 as (C & T & _); [lia |].
  split; [now rewrite C, Hc | exact T].
Qed.

(** X12.  Whatever the lower layer answers: the timer of a TX I-PDU of an
    enabled group counts down by one per pass of [Com_MainFunctionTx]
    without a transmission until it is 1; the pass after that calls
    [PduR_ComTransmit] for the I-PDU once and leaves the timer at
    [CycleTime] or at 1.  A timer that is 0 stays 0, and the I-PDU is not
    transmitted. *)
Theorem Com_MainFunctionTx_countdown
        (PduR_ComTransmit : list Com_Event -> nat -> list Z -> Std_ReturnType)
        (cfg : Com_ConfigType) (i : nat) (p : Com_IPduConfigType)
        (tx : Com_IPduTxConfigType) (s : Com_State) :
  nth_error (IPduConfigs cfg) i = Some p ->
  txConfig p = Some tx ->
  Z.land (GroupStatus s) (GroupRefMask p) <> 0 ->
  (forall n,
      (n < txTimer s i)%nat \/ txTimer s i = 0%nat ->
      txTimer (Nat.iter n (Com_MainFunctionTx PduR_ComTransmit cfg) s) i
      = (txTimer s i - n)%nat /\
      tx_count i (trace
        (Nat.iter n (Com_MainFunctionTx PduR_ComTransmit cfg) s))
      = tx_count i (trace s)) /\
  ((0 < txTimer s i)%nat ->
   tx_count i (trace (Nat.iter (txTimer s i)
                        (Com_MainFunctionTx PduR_ComTransmit cfg) s))
   = S (tx_count i (trace s)) /\
   (txTimer (Nat.iter (txTimer s i)
               (Com_MainFunctionTx PduR_ComTransmit cfg) s) i = CycleTime tx
    \/ txTimer (Nat.iter (txTimer s i)
                  (Com_MainFunctionTx PduR_ComTransmit cfg) s) i = 1%nat)).
Proof.
  intros Hi Htx Hg.
  apply (Com_MainFunctionTx_iter_any PduR_ComTransmit cfg i p tx s Hi Htx).
  now apply group_active_land.
Qed.

(** X13.  While the lower layer refuses an I-PDU whose timer has fired, every
    pass of [Com_MainFunctionTx] tries again: the timer stays at 1 and
    [PduR_ComTransmit] is called for the I-PDU once per pass. *)
Theorem Com_MainFunctionTx_retry
        (PduR_ComTransmit : list Com_Event -> nat -> list Z -> Std_ReturnType)
        (cfg : Com_ConfigType) (i : nat) (p : Com_IPduConfigType)
        (tx : Com_IPduTxConfigType) (s : Com_State) :
  nth_error (IPduConfigs cfg) i = Some p ->
  txConfig p = Some tx ->
  Z.land (GroupStatus s) (GroupRefMask p) <> 0 ->
  txTimer s i = 1%nat ->
  (forall h sdu, PduR_ComTransmit h (TxPduId tx) sdu = E_NOT_OK) ->
  forall n,
    txTimer (Nat.iter n (Com_MainFunctionTx PduR_ComTransmit cfg) s) i = 1%nat
    /\
    tx_count i (trace (Nat.iter n (Com_MainFunctionTx PduR_ComTransmit cfg) s))
    = (tx_count i (trace s) + n)%nat.
Proof.
  intros Hi Htx Hg Ht Hno. apply group_active_land in Hg.
  assert (Inv : forall n,
    group_active
      (Nat.iter n (Com_MainFunctionTx PduR_ComTransmit cfg) s) p = true /\
    txTimer
      (Nat.iter n (Com_MainFunctionTx PduR_ComTransmit cfg) s) i = 1%nat /\
    tx_count i (trace
      (Nat.iter n (Com_MainFunctionTx PduR_ComTransmit cfg) s))
    = (tx_count i (trace s) + n)%nat).
  { induction n as [| n (IHa & IHt & IHc)].
    - simpl. split; [exact Hg | split; [exact Ht | lia]].
    - rewrite Nat.iter_succ.
      destruct (Com_MainFunctionTx_any PduR_ComTransmit cfg i p tx _
                  Hi Htx IHa) as (A & _ & B1 & _).
      destruct (B1 IHt) as (C & _ & T).
      split; [exact A | split; [exact (T Hno) |]]. rewrite C, IHc. lia. }
  intros n. apply Inv.
Qed.

(** X14.  [Com_TriggerIPDUSend] for a TX I-PDU of an enabled group calls
    [PduR_ComTransmit] once, leaves the PDU RAM as it is and returns [E_OK]
    whatever the lower layer answers; [Com_MainFunctionTx] transmits the
    I-PDU again [CycleTime] passes later when the lower layer accepted it,
    and in the next pass when it refused it, and not before. *)
Theorem Com_TriggerIPDUSend_next_transmission
        (PduR_ComTransmit : list Com_Event -> nat -> list Z -> Std_ReturnType)
        (cfg : Com_ConfigType) (i : nat) (p : Com_IPduConfigType)
        (tx : Com_IPduTxConfigType) (s : Com_State) :
  nth_error (IPduConfigs cfg) i = Some p ->
  txConfig p = Some tx ->
  Z.land (GroupStatus s) (GroupRefMask p) <> 0 ->
  exists s1,
    Com_TriggerIPDUSend PduR_ComTransmit cfg i s = (E_OK, s1) /\
    pduRam s1 = pduRam s /\
    tx_count i (trace s1) = S (tx_count i (trace s)) /\
    txTimer s1 i
    = match PduR_ComTransmit (trace s) (TxPduId tx)
              (read_bytes (pduRam s) (IPdu_ptr p) (IPdu_length p)) with
      | E_OK => CycleTime tx
      | E_NOT_OK => 1%nat
      end /\
    (forall n,
        (n < txTimer s1 i)%nat \/ txTimer s1 i = 0%nat ->
        tx_count i (trace (Nat.iter n (Com_MainFunctionTx PduR_ComTransmit cfg)
                                    s1))
        = tx_count i (trace s1)) /\
    ((0 < txTimer s1 i)%nat ->
     tx_count i (trace (Nat.iter (txTimer s1 i)
                          (Com_MainFunctionTx PduR_ComTransmit cfg) s1))
     = S (tx_count i (trace s1))).
Proof.
  intros Hi Htx Hg. apply group_active_land in Hg.
  assert (K : forall s1,
             group_active s1 p = true ->
             (forall n,
                 (n < txTimer s1 i)%nat \/ txTimer s1 i = 0%nat ->
                 tx_count i (trace (Nat.iter n (Com_MainFunctionTx
                                                  PduR_ComTransmit cfg) s1))
                 = tx_count i (trace s1)) /\
             ((0 < txTimer s1 i)%nat ->
              tx_count i (trace (Nat.iter (txTimer s1 i)
                                   (Com_MainFunctionTx PduR_ComTransmit cfg)
                                   s1))
              = S (tx_count i (trace s1)))).
  { intros s1 Ha.
    destruct (Com_MainFunctionTx_iter_any PduR_ComTransmit cfg i p tx s1
                Hi Htx Ha) as [A B].
    split.
    - intros n Hn. now apply A.
    - intros Pos. now apply B. }
  unfold Com_TriggerIPDUSend. rewrite Hi, Htx, Hg.
  unfold transmit. cbv zeta.
  destruct (PduR_ComTransmit (trace s) (TxPduId tx)
              (read_bytes (pduRam s) (IPdu_ptr p) (IPdu_length p))) eqn:Er;
    eexists; (split; [reflexivity |]);
    (split; [reflexivity |]);
    (split; [cbn [trace set_txTimer emit]; apply tx_count_emit_transmit |]);
    (split; [cbn [txTimer set_txTimer emit]; now rewrite Nat.eqb_refl |]);
    apply K; exact Hg.
Qed.

Lemma Com_MainFunctionTx_countdown_witness :
  nth_error (IPduConfigs sample_cfg) 0 = Some sample_tx_pdu /\
  txConfig sample_tx_pdu = Some sample_tx /\
  Z.land (GroupStatus sample_started) (GroupRefMask sample_tx_pdu) <> 0 /\
  txTimer sample_started 0 = 2%nat /\
  tx_count 0 (trace (Nat.iter 1 (Com_MainFunctionTx always_refused sample_cfg)
                              sample_started))
  = tx_count 0 (trace sample_started) /\
  tx_count 0 (trace (Nat.iter 2 (Com_MainFunctionTx always_refused sample_cfg)
                              sample_started))
  = S (tx_count 0 (trace sample_started)).
Proof.
  assert (H1 : nth_error (IPduConfigs sample_cfg) 0 = Some sample_tx_pdu)
    by reflexivity.
  assert (H2 : txConfig sample_tx_pdu = Some sample_tx) by reflexivity.
  assert (H3 : Z.land (GroupStatus sample_started)
                      (GroupRefMask sample_tx_pdu) <> 0)
    by (vm_compute; discriminate).
  assert (H4 : txTimer sample_started 0 = 2%nat) by reflexivity.
  repeat (split; [assumption |]).
  destruct (Com_MainFunctionTx_countdown always_refused sample_cfg 0
              sample_tx_pdu sample_tx sample_started H1 H2 H3) as [A B].
  split.
  - apply (A 1%nat). left. rewrite H4. lia.
  - apply B. rewrite H4. lia.
Defined.

Lemma Com_MainFunctionTx_retry_witness :
  nth_error (IPduConfigs sample_cfg) 0 = Some sample_tx_pdu /\
  txConfig sample_tx_pdu = Some sample_tx /\
  Z.land (GroupStatus sample_due) (GroupRefMask sample_tx_pdu) <> 0 /\
  txTimer sample_due 0 = 1%nat /\
  (forall h sdu, always_refused h (TxPduId sample_tx) sdu = E_NOT_OK) /\
  txTimer (Nat.iter 3 (Com_MainFunctionTx always_refused sample_cfg)
                    sample_due) 0 = 1%nat /\
  tx_count 0 (trace (Nat.iter 3 (Com_MainFunctionTx always_refused sample_cfg)
                              sample_due))
  = (tx_count 0 (trace sample_due) + 3)%nat.
Proof.
  assert (H1 : nth_error (IPduConfigs sample_cfg) 0 = Some sample_tx_pdu)
    by reflexivity.
  assert (H2 : txConfig sample_tx_pdu = Some sample_tx) by reflexivity.
  assert (H3 : Z.land (GroupStatus sample_due) (GroupRefMask sample_tx_pdu)
               <> 0) by (vm_compute; discriminate).
  assert (H4 : txTimer sample_due 0 = 1%nat) by reflexivity.
  assert (H5 : forall h sdu,
             always_refused h (TxPduId sample_tx) sdu = E_NOT_OK)
    by reflexivity.
  repeat (split; [assumption |]).
  destruct (Com_MainFunctionTx_retry always_refused sample_cfg 0
              sample_tx_pdu sample_tx sample_due H1 H2 H3 H4 H5 3%nat)
    as [_ B].
  exact B.
Defined.

Lemma Com_TriggerIPDUSend_next_transmission_witness :
  nth_error (IPduConfigs sample_cfg) 0 = Some sample_tx_pdu /\
  txConfig sample_tx_pdu = Some sample_tx /\
  Z.land (GroupStatus sample_started) (GroupRefMask sample_tx_pdu) <> 0 /\
  exists s1,
    Com_TriggerIPDUSend always_ok sample_cfg 0 sample_started = (E_OK, s1) /\
    pduRam s1 = pduRam sample_started /\
    tx_count 0 (trace s1) = S (tx_count 0 (trace sample_started)) /\
    txTimer s1 0 = 5%nat.
Proof.
  assert (H1 : nth_error (IPduConfigs sample_cfg) 0 = Some sample_tx_pdu)
    by reflexivity.
  assert (H2 : txConfig sample_tx_pdu = Some sample_tx) by reflexivity.
  assert (H3 : Z.land (GroupStatus sample_started)
                      (GroupRefMask sample_tx_pdu) <> 0)
    by (vm_compute; discriminate).
  repeat (split; [assumption |]).
  destruct (Com_TriggerIPDUSend_next_transmission always_ok sample_cfg 0
              sample_tx_pdu sample_tx sample_started H1 H2 H3)
    as (s1 & A & B & C & D & _).
  exists s1. repeat (split; [assumption |]). exact D.
Defined.

(** * Further properties of reception *)

Section RxIter.

Variable F : Com_State -> Com_State.
Variable i : nat.
Variable p : Com_IPduConfigType.
Variable rx : Com_IPduRxConfigType.

Hypothesis F_step : forall s,
  group_active s p = true ->
  group_active (F s) p = true /\
  rxTimer (F s) i = (rxTimer s i - 1)%nat /\
  timeout_count i (trace (F s)) =
  (timeout_count i (trace s)
   + if Nat.eqb (rxTimer s i) 1
     then match RxTOut rx with Some _ => 1 | None => 0 end
     else 0)%nat.

(** A step that treats the RX I-PDU [i] as a pass of [Com_MainFunctionRx]
    does, over several steps. *)
Lemma rx_timer_iter (s : Com_State) :
  group_active s p = true ->
  forall n,
    group_active (Nat.iter n F s) p = true /\
    rxTimer (Nat.iter n F s) i = (rxTimer s i - n)%nat /\
    timeout_count i (trace (Nat.iter n F s))
    = (timeout_count i (trace s)
       + match RxTOut rx with
         | Some _ =>
             if (Nat.ltb 0 (rxTimer s i) && Nat.leb (rxTimer s i) n)%bool
             then 1 else 0
         | None => 0
         end)%nat.
Proof.
  intros Ha.
  induction n as [| n (IHa & IHt & IHc)].
  - simpl. split; [exact Ha | split; [lia |]].
    destruct (RxTOut rx); [| lia].
    destruct (rxTimer s i); simpl; lia.
  - rewrite Nat.iter_succ.
    destruct (F_step _ IHa) as (A & T & C).
    split; [exact A | split; [rewrite T, IHt; lia |]].
    rewrite C, IHc, IHt.
    destruct (RxTOut rx);
      [| destruct (Nat.eqb (rxTimer s i - n) 1); lia].
    destruct (Nat.eqb_spec (rxTimer s i - n) 1);
      destruct (Nat.ltb_spec 0 (rxTimer s i));
      destruct (Nat.leb_spec (rxTimer s i) n);
      destruct (Nat.leb_spec (rxTimer s i) (S n)); cbn [andb]; lia.
Qed.

End RxIter.

(** An RX I-PDU over several passes of [Com_MainFunctionRx], from any
    state in which its group is enabled. *)
Lemma Com_MainFunctionRx_iter (cfg : Com_ConfigType) (i : nat)
      (p : Com_IPduConfigType) (rx : Com_IPduRxConfigType) (s : Com_State) :
  nth_error (IPduConfigs cfg) i = Some p ->
  rxConfig p = Some rx ->
  group_active s p = true ->
  forall n,
    group_active (Nat.iter n (Com_MainFunctionRx cfg) s) p = true /\
    rxTimer (Nat.iter n (Com_MainFunctionRx cfg) s) i = (rxTimer s i - n)%nat /\
    timeout_count i (trace (Nat.iter n (Com_MainFunctionRx cfg) s))
    = (timeout_count i (trace s)
       + match RxTOut rx with
         | Some _ =>
             if (Nat.ltb 0 (rxTimer s i) && Nat.leb (rxTimer s i) n)%bool
             then 1 else 0
         | None => 0
         end)%nat.
Proof.
  intros Hi Hrx Ha. apply (rx_timer_iter _ i p rx); [| exact Ha].
  intros s'. now apply Com_MainFunctionRx_step.
Qed.

(** X15.  A frame for an RX I-PDU of an enabled group that has at least the
    length of the I-PDU is stored: the buffer of the I-PDU holds the first
    [IPdu_length] bytes of the frame, no other byte of the PDU RAM and no
    other timer changes, the timer of the I-PDU is [Timeout], and the
    reception callback, if there is one, is called once.  A shorter frame
    changes nothing. *)
Theorem Com_RxIndication_stores_frame
        (cfg : Com_ConfigType) (i : nat) (p : Com_IPduConfigType)
        (rx : Com_IPduRxConfigType) (s : Com_State) (sdu : list Z)
        (len : nat) :
  nth_error (IPduConfigs cfg) i = Some p ->
  rxConfig p = Some rx ->
  Z.land (GroupStatus s) (GroupRefMask p) <> 0 ->
  (IPdu_length p <= length sdu)%nat ->
  ((IPdu_length p <= len)%nat ->
   exists s1,
     Com_RxIndication cfg i {| SduDataPtr := Some sdu; SduLength := len |} s
     = Some s1 /\
     read_bytes (pduRam s1) (IPdu_ptr p) (IPdu_length p)
     = firstn (IPdu_length p) sdu /\
     (forall x, (x < IPdu_ptr p \/ IPdu_ptr p + IPdu_length p <= x)%nat ->
                pduRam s1 x = pduRam s x) /\
     GroupStatus s1 = GroupStatus s /\
     rxTimer s1 i = Timeout rx /\
     (forall j, j <> i -> rxTimer s1 j = rxTimer s j) /\
     (forall j, txTimer s1 j = txTimer s j) /\
     trace s1 = match RxNotification rx with
                | Some f => EvRxNotification i f :: trace s
                | None => trace s
                end) /\
  ((len < IPdu_length p)%nat ->
   Com_RxIndication cfg i {| SduDataPtr := Some sdu; SduLength := len |} s
   = Some s).
Proof.
  intros Hi Hrx Hg Hs. apply group_active_land in Hg.
  unfold Com_RxIndication. rewrite Hi, Hrx, Hg.
  cbn [SduLength SduDataPtr]. unfold memcpy_to_ram.
  replace (Nat.ltb (length sdu) (IPdu_length p)) with false
    by (symmetry; apply Nat.ltb_ge; exact Hs).
  assert (Hl : length (firstn (IPdu_length p) sdu) = IPdu_length p)
    by (rewrite length_firstn; lia).
  assert (Hw : forall m,
             read_bytes (write_bytes m (IPdu_ptr p)
                           (firstn (IPdu_length p) sdu))
                        (IPdu_ptr p) (IPdu_length p)
             = firstn (IPdu_length p) sdu).
  { intros m.
    pose proof (read_bytes_write_bytes m (firstn (IPdu_length p) sdu)
                  (IPdu_ptr p)) as W.
    rewrite Hl in W. exact W. }
  split; intros Hlen.
  - replace (Nat.leb (IPdu_length p) len) with true
      by (symmetry; apply Nat.leb_le; exact Hlen).
    eexists. split; [reflexivity |].
    destruct (RxNotification rx) as [f |];
      cbn [notify emit set_rxTimer set_pduRam pduRam GroupStatus rxTimer
           txTimer trace];
      (split; [exact (Hw (pduRam s)) |]);
      (split; [intros x Hx; apply write_bytes_outside; rewrite Hl; exact Hx |]);
      (split; [reflexivity |]);
      (split; [now rewrite Nat.eqb_refl |]);
      (split; [intros j Hj;
               now replace (Nat.eqb j i) with false
                 by (symmetry; apply Nat.eqb_neq; exact Hj) |]);
      split; reflexivity.
  - replace (Nat.leb (IPdu_length p) len) with false
      by (symmetry; apply Nat.leb_gt; exact Hlen).
    reflexivity.
Qed.

(** X16.  A received frame restarts the reception deadline: from any state,
    after a frame of sufficient length for an RX I-PDU of an enabled group,
    the timer of the I-PDU goes down from [Timeout] by one per pass of
    [Com_MainFunctionRx], and the timeout callback, if there is one, is
    called once, in pass number [Timeout], unless [Timeout] is 0. *)
Theorem Com_RxIndication_restarts_timeout
        (cfg : Com_ConfigType) (i : nat) (p : Com_IPduConfigType)
        (rx : Com_IPduRxConfigType) (s : Com_State) (sdu : list Z)
        (len : nat) :
  nth_error (IPduConfigs cfg) i = Some p ->
  rxConfig p = Some rx ->
  Z.land (GroupStatus s) (GroupRefMask p) <> 0 ->
  (IPdu_length p <= length sdu)%nat ->
  (IPdu_length p <= len)%nat ->
  exists s1,
    Com_RxIndication cfg i {| SduDataPtr := Some sdu; SduLength := len |} s
    = Some s1 /\
    forall n,
      rxTimer (Nat.iter n (Com_MainFunctionRx cfg) s1) i
      = (Timeout rx - n)%nat /\
      timeout_count i (trace (Nat.iter n (Com_MainFunctionRx cfg) s1))
      = (timeout_count i (trace s)
         + match RxTOut rx with
           | Some _ =>
               if (Nat.ltb 0 (Timeout rx) && Nat.leb (Timeout rx) n)%bool
               then 1 else 0
           | None => 0
           end)%nat.
Proof.
  intros Hi Hrx Hg Hs Hlen. apply group_active_land in Hg.
  unfold Com_RxIndication. rewrite Hi, Hrx, Hg.
  cbn [SduLength SduDataPtr]. unfold memcpy_to_ram.
  replace (Nat.ltb (length sdu) (IPdu_length p)) with false
    by (symmetry; apply Nat.ltb_ge; exact Hs).
  replace (Nat.leb (IPdu_length p) len) with true
    by (symmetry; apply Nat.leb_le; exact Hlen).
  eexists. split; [reflexivity |].
  match goal with
  | |- forall n, rxTimer (Nat.iter n _ ?s1) _ = _ /\ _ =>
      assert (Ha : group_active s1 p = true)
        by (destruct (RxNotification rx); exact Hg);
      assert (Ht : rxTimer s1 i = Timeout rx)
        by (destruct (RxNotification rx);
            cbn [notify emit set_rxTimer rxTimer];
            now rewrite Nat.eqb_refl);
      assert (Hc : timeout_count i (trace s1) = timeout_count i (trace s))
        by (destruct (RxNotification rx); reflexivity);
      intros n;
      destruct (Com_MainFunctionRx_iter cfg i p rx s1 Hi Hrx Ha n)
        as (_ & T & C)
  end.
  rewrite T, C, Ht, Hc. split; reflexivity.
Qed.

Lemma Com_RxIndication_stores_frame_witness :
  nth_error (IPduConfigs sample_cfg) 1 = Some sample_rx_pdu /\
  rxConfig sample_rx_pdu = Some sample_rx /\
  Z.land (GroupStatus sample_started) (GroupRefMask sample_rx_pdu) <> 0 /\
  (IPdu_length sample_rx_pdu <= length [0xAB; 0xCD; 0xEF])%nat /\
  (IPdu_length sample_rx_pdu <= 3)%nat /\
  exists s1,
    Com_RxIndication sample_cfg 1
      {| SduDataPtr := Some [0xAB; 0xCD; 0xEF]; SduLength := 3 |}
      sample_started = Some s1 /\
    read_bytes (pduRam s1) 8 2 = [0xAB; 0xCD] /\
    rxTimer s1 1 = 4%nat.
Proof.
  assert (H1 : nth_error (IPduConfigs sample_cfg) 1 = Some sample_rx_pdu)
    by reflexivity.
  assert (H2 : rxConfig sample_rx_pdu = Some sample_rx) by reflexivity.
  assert (H3 : Z.land (GroupStatus sample_started)
                      (GroupRefMask sample_rx_pdu) <> 0)
    by (vm_compute; discriminate).
  assert (H4 : (IPdu_length sample_rx_pdu
                <= length [0xAB; 0xCD; 0xEF])%nat) by (cbn; lia).
  assert (H5 : (IPdu_length sample_rx_pdu <= 3)%nat) by (cbn; lia).
  repeat (split; [assumption |]).
  destruct (Com_RxIndication_stores_frame sample_cfg 1 sample_rx_pdu
              sample_rx sample_started [0xAB; 0xCD; 0xEF] 3 H1 H2 H3 H4)
    as [A _].
  destruct (A H5) as (s1 & E & R & _ & _ & T & _).
  exists s1. split; [exact E | split; [exact R | exact T]].
Defined.

Lemma Com_RxIndication_restarts_timeout_witness :
  nth_error (IPduConfigs sample_cfg) 1 = Some sample_rx_pdu /\
  rxConfig sample_rx_pdu = Some sample_rx /\
  Z.land (GroupStatus sample_started) (GroupRefMask sample_rx_pdu) <> 0 /\
  (IPdu_length sample_rx_pdu <= length [0xAB; 0xCD; 0xEF])%nat /\
  (IPdu_length sample_rx_pdu <= 3)%nat /\
  exists s1,
    Com_RxIndication sample_cfg 1
      {| SduDataPtr := Some [0xAB; 0xCD; 0xEF]; SduLength := 3 |}
      sample_started = Some s1 /\
    timeout_count 1 (trace (Nat.iter 3 (Com_MainFunctionRx sample_cfg) s1))
    = timeout_count 1 (trace sample_started) /\
    timeout_count 1 (trace (Nat.iter 4 (Com_MainFunctionRx sample_cfg) s1))
    = S (timeout_count 1 (trace sample_started)).
Proof.
  assert (H1 : nth_error (IPduConfigs sample_cfg) 1 = Some sample_rx_pdu)
    by reflexivity.
  assert (H2 : rxConfig sample_rx_pdu = Some sample_rx) by reflexivity.
  assert (H3 : Z.land (GroupStatus sample_started)
                      (GroupRefMask sample_rx_pdu) <> 0)
    by (vm_compute; discriminate).
  assert (H4 : (IPdu_length sample_rx_pdu
                <= length [0xAB; 0xCD; 0xEF])%nat) by (cbn; lia).
  assert (H5 : (IPdu_length sample_rx_pdu <= 3)%nat) by (cbn; lia).
  repeat (split; [assumption |]).
  destruct (Com_RxIndication_restarts_timeout sample_cfg 1 sample_rx_pdu
              sample_rx sample_started [0xAB; 0xCD; 0xEF] 3 H1 H2 H3 H4 H5)
    as (s1 & E & R).
  exists s1. split; [exact E |].
  split; [exact (proj2 (R 3%nat)) | exact (proj2 (R 4%nat))].
Defined.

(** * [Com_MainFunction]: reception and transmission in one tick *)

(** The reception pass leaves the transmission side alone. *)
Lemma Com_MainFunctionRx_body_tx (j : nat) (p : Com_IPduConfigType)
      (s : Com_State) :
  GroupStatus (Com_MainFunctionRx_body j p s) = GroupStatus s /\
  (forall i, txTimer (Com_MainFunctionRx_body j p s) i = txTimer s i) /\
  pduRam (Com_MainFunctionRx_body j p s) = pduRam s /\
  (forall i, tx_count i (trace (Com_MainFunctionRx_body j p s))
             = tx_count i (trace s)).
Proof.
  unfold Com_MainFunctionRx_body.
  destruct (rxConfig p) as [rx |]; [| now repeat split].
  destruct (group_active s p); [| now repeat split].
  destruct (Nat.ltb 0 (rxTimer s j)); [| now repeat split].
  cbv zeta. destruct (Nat.eqb _ 0); [| now repeat split].
  destruct (RxTOut rx) as [f |]; now repeat split.
Qed.

Lemma Com_MainFunctionRx_loop_tx (pdus : list Com_IPduConfigType) :
  forall (k : nat) (s : Com_State),
    GroupStatus (Com_MainFunctionRx_loop pdus k s) = GroupStatus s /\
    (forall i, txTimer (Com_MainFunctionRx_loop pdus k s) i = txTimer s i) /\
    pduRam (Com_MainFunctionRx_loop pdus k s) = pduRam s /\
    (forall i, tx_count i (trace (Com_MainFunctionRx_loop pdus k s))
               = tx_count i (trace s)).
Proof.
  induction pdus as [| p rest IH]; intros k s; simpl.
  - now repeat split.
  - destruct (IH (S k) (Com_MainFunctionRx_body k p s)) as (G & T & M & C).
    destruct (Com_MainFunctionRx_body_tx k p s) as (G' & T' & M' & C').
    rewrite G, M. repeat split; try assumption.
    + intros i. now rewrite T.
    + intros i. now rewrite C.
Qed.

Section Tick.

Variable PduR_ComTransmit : list Com_Event -> nat -> list Z -> Std_ReturnType.

(** The transmission pass leaves the reception side alone. *)
Lemma Com_MainFunctionTx_body_rx (j : nat) (p : Com_IPduConfigType)
      (s : Com_State) :
  GroupStatus (Com_MainFunctionTx_body PduR_ComTransmit j p s)
  = GroupStatus s /\
  (forall i, rxTimer (Com_MainFunctionTx_body PduR_ComTransmit j p s) i
             = rxTimer s i) /\
  (forall i,
      timeout_count i (trace (Com_MainFunctionTx_body PduR_ComTransmit j p s))
      = timeout_count i (trace s)).
Proof.
  unfold Com_MainFunctionTx_body.
  destruct (txConfig p) as [tx |]; [| now repeat split].
  destruct (group_active s p); [| now repeat split].
  destruct (Nat.ltb 0 (txTimer s j)); [| now repeat split].
  cbv zeta. destruct (Nat.eqb _ 0); [| now repeat split].
  unfold transmit. cbv zeta.
  match goal with
  | |- context [PduR_ComTransmit ?x ?y ?z] => destruct (PduR_ComTransmit x y z)
  end; now repeat split.
Qed.

Lemma Com_MainFunctionTx_loop_rx (pdus : list Com_IPduConfigType) :
  forall (k : nat) (s : Com_State),
    GroupStatus (Com_MainFunctionTx_loop PduR_ComTransmit pdus k s)
    = GroupStatus s /\
    (forall i, rxTimer (Com_MainFunctionTx_loop PduR_ComTransmit pdus k s) i
               = rxTimer s i) /\
    (forall i,
        timeout_count i
          (trace (Com_MainFunctionTx_loop PduR_ComTransmit pdus k s))
        = timeout_count i (trace s)).
Proof.
  induction pdus as [| p rest IH]; intros k s; simpl.
  - now repeat split.
  - destruct (IH (S k) (Com_MainFunctionTx_body PduR_ComTransmit k p s))
      as (G & T & C).
    destruct (Com_MainFunctionTx_body_rx k p s) as (G' & T' & C').
    rewrite G. repeat split; try assumption.
    + intros i. now rewrite T.
    + intros i. now rewrite C.
Qed.

(** An RX I-PDU in one call of [Com_MainFunction]. *)
Lemma Com_MainFunction_rx_step (cfg : Com_ConfigType) (i : nat)
      (p : Com_IPduConfigType) (rx : Com_IPduRxConfigType) (s : Com_State) :
  nth_error (IPduConfigs cfg) i = Some p ->
  rxConfig p = Some rx ->
  group_active s p = true ->
  group_active (Com_MainFunction PduR_ComTransmit cfg s) p = true /\
  rxTimer (Com_MainFunction PduR_ComTransmit cfg s) i = (rxTimer s i - 1)%nat /\
  timeout_count i (trace (Com_MainFunction PduR_ComTransmit cfg s)) =
  (timeout_count i (trace s)
   + if Nat.eqb (rxTimer s i) 1
     then match RxTOut rx with Some _ => 1 | None => 0 end
     else 0)%nat.
Proof.
  intros Hi Hrx Ha. unfold Com_MainFunction.
  destruct (Com_MainFunctionRx_step cfg i p rx s Hi Hrx Ha) as (A & T & C).
  unfold Com_MainFunctionTx. cbn [COM_USE_CAN].
  destruct (Com_MainFunctionTx_loop_rx (IPduConfigs cfg) 0
              (Com_MainFunctionRx cfg s)) as (G' & T' & C').
  rewrite T', C', T, C. split; [| split; reflexivity].
  unfold group_active in *. now rewrite G'.
Qed.

End Tick.

Section TxIter.

Variable F : Com_State -> Com_State.
Variable i : nat.
Variable p : Com_IPduConfigType.
Variable tx : Com_IPduTxConfigType.

Hypothesis F_step : forall s,
  group_active s p = true ->
  group_active (F s) p = true /\
  (txTimer s i = 0%nat ->
   txTimer (F s) i = 0%nat /\
   tx_count i (trace (F s)) = tx_count i (trace s)) /\
  (txTimer s i = 1%nat ->
   txTimer (F s) i = CycleTime tx /\
   tx_count i (trace (F s)) = S (tx_count i (trace s))) /\
  ((1 < txTimer s i)%nat ->
   txTimer (F s) i = (txTimer s i - 1)%nat /\
   tx_count i (trace (F s)) = tx_count i (trace s)).

(** A step that treats the TX I-PDU [i] as a pass of [Com_MainFunctionTx]
    over an accepting lower layer does, over several steps. *)
Lemma tx_timer_iter (s0 : Com_State) (off : nat) :
  group_active s0 p = true ->
  txTimer s0 i = off ->
  (off = 0 -> CycleTime tx = 0)%nat ->
  forall n,
    group_active (Nat.iter n F s0) p = true /\
    txTimer (Nat.iter n F s0) i = tx_timer_at off (CycleTime tx) n /\
    tx_count i (trace (Nat.iter (S n) F s0))
    = (tx_count i (trace (Nat.iter n F s0))
       + if tx_due off (CycleTime tx) (S n) then 1 else 0)%nat.
Proof.
  intros Ha Ht Hz.
  assert (Inv : forall n,
    group_active (Nat.iter n F s0) p = true /\
    txTimer (Nat.iter n F s0) i = tx_timer_at off (CycleTime tx) n).
  { induction n as [| n [IHa IHt]].
    - simpl. split; [exact Ha |]. rewrite Ht. unfold tx_timer_at.
      destruct (Nat.ltb_spec 0 off) as [L | L]; [lia |].
      rewrite Hz by lia. simpl. lia.
    - rewrite Nat.iter_succ.
      destruct (F_step _ IHa) as (A & B0 & B1 & B2).
      split; [exact A |].
      destruct (tx_timer_at_step off (CycleTime tx) n Hz) as (S0 & S1 & S2).
      rewrite IHt in B0, B1, B2.
      destruct (tx_timer_at off (CycleTime tx) n) as [| [| t]] eqn:Et.
      + destruct (B0 eq_refl) as [-> _]. destruct (S0 eq_refl) as [_ E].
        now rewrite E.
      + destruct (B1 eq_refl) as [-> _]. destruct (S1 eq_refl) as [_ E].
        now rewrite E.
      + destruct B2 as [-> _]; [lia |]. destruct S2 as [_ E]; [lia |].
        now rewrite E. }
  intros n. destruct (Inv n) as [IHa IHt].
  split; [exact IHa | split; [exact IHt |]].
  rewrite Nat.iter_succ.
  destruct (F_step _ IHa) as (_ & B0 & B1 & B2).
  destruct (tx_timer_at_step off (CycleTime tx) n Hz) as (S0 & S1 & S2).
  rewrite IHt in B0, B1, B2.
  destruct (tx_timer_at off (CycleTime tx) n) as [| [| t]] eqn:Et.
  - destruct (B0 eq_refl) as [_ ->]. destruct (S0 eq_refl) as [-> _]. lia.
  - destruct (B1 eq_refl) as [_ ->]. destruct (S1 eq_refl) as [-> _]. lia.
  - destruct B2 as [_ ->]; [lia |]. destruct S2 as [-> _]; [lia |]. lia.
Qed.

End TxIter.

(** A TX I-PDU in one call of [Com_MainFunction], over a lower layer that
    accepts every PDU. *)
Lemma Com_MainFunction_tx_step
      (PduR_ComTransmit : list Com_Event -> nat -> list Z -> Std_ReturnType)
      (cfg : Com_ConfigType) (i : nat)
      (p : Com_IPduConfigType) (tx : Com_IPduTxConfigType) (s : Com_State) :
  (forall h id sdu, PduR_ComTransmit h id sdu = E_OK) ->
  nth_error (IPduConfigs cfg) i = Some p ->
  txConfig p = Some tx ->
  group_active s p = true ->
  group_active (Com_MainFunction PduR_ComTransmit cfg s) p = true /\
  (txTimer s i = 0%nat ->
   txTimer (Com_MainFunction PduR_ComTransmit cfg s) i = 0%nat /\
   tx_count i (trace (Com_MainFunction PduR_ComTransmit cfg s))
   = tx_count i (trace s)) /\
  (txTimer s i = 1%nat ->
   txTimer (Com_MainFunction PduR_ComTransmit cfg s) i = CycleTime tx /\
   tx_count i (trace (Com_MainFunction PduR_ComTransmit cfg s))
   = S (tx_count i (trace s))) /\
  ((1 < txTimer s i)%nat ->
   txTimer (Com_MainFunction PduR_ComTransmit cfg s) i
   = (txTimer s i - 1)%nat /\
   tx_count i (trace (Com_MainFunction PduR_ComTransmit cfg s))
   = tx_count i (trace s)).
Proof.
  intros Hok Hi Htx Ha. unfold Com_MainFunction.
  destruct (Com_MainFunctionRx_loop_tx (IPduConfigs cfg) 0 s)
    as (G & T & _ & C).
  fold (Com_MainFunctionRx cfg s) in G, T, C.
  assert (Ha' : group_active (Com_MainFunctionRx cfg s) p = true)
    by (unfold group_active in *; now rewrite G).
  pose proof (Com_MainFunctionTx_ok PduR_ComTransmit Hok cfg i p tx
                (Com_MainFunctionRx cfg s) Hi Htx Ha') as K.
  rewrite (T i), (C i) in K. exact K.
Qed.

(** X17.  Called once per tick over a lower layer that accepts every PDU,
    [Com_MainFunction] transmits a TX I-PDU of an enabled group whose timer
    is [off] exactly in the ticks [off + k * CycleTime], from any state;
    [off] is positive, or the cycle time is 0 as well. *)
Theorem Com_MainFunction_cycle
        (PduR_ComTransmit : list Com_Event -> nat -> list Z -> Std_ReturnType)
        (cfg : Com_ConfigType) (i : nat) (p : Com_IPduConfigType)
        (tx : Com_IPduTxConfigType) (s0 : Com_State) :
  (forall h id sdu, PduR_ComTransmit h id sdu = E_OK) ->
  nth_error (IPduConfigs cfg) i = Some p ->
  txConfig p = Some tx ->
  Z.land (GroupStatus s0) (GroupRefMask p) <> 0 ->
  (txTimer s0 i = 0 -> CycleTime tx = 0)%nat ->
  forall n,
    ((exists k, S n = (txTimer s0 i + k * CycleTime tx)%nat) ->
     tx_count i (trace (Nat.iter (S n)
                          (Com_MainFunction PduR_ComTransmit cfg) s0))
     = S (tx_count i (trace (Nat.iter n
                               (Com_MainFunction PduR_ComTransmit cfg) s0))))
    /\
    (~ (exists k, S n = (txTimer s0 i + k * CycleTime tx)%nat) ->
     tx_count i (trace (Nat.iter (S n)
                          (Com_MainFunction PduR_ComTransmit cfg) s0))
     = tx_count i (trace (Nat.iter n
                            (Com_MainFunction PduR_ComTransmit cfg) s0))).
Proof.
  intros Hok Hi Htx Hg Hz n. apply group_active_land in Hg.
  destruct (tx_timer_iter (Com_MainFunction PduR_ComTransmit cfg) i p tx
              (fun s => Com_MainFunction_tx_step PduR_ComTransmit cfg i p tx s
                          Hok Hi Htx)
              s0 (txTimer s0 i) Hg eq_refl Hz n) as (_ & _ & C).
  rewrite C.
  pose proof (tx_due_spec (txTimer s0 i) (CycleTime tx) (S n)) as D.
  destruct (tx_due (txTimer s0 i) (CycleTime tx) (S n)).
  - split; [intros _; lia |]. intros N. exfalso. apply N. now apply D.
  - split; [| intros _; lia]. intros E. apply D in E. discriminate.
Qed.

(** X18.  Called once per tick, over any lower layer, [Com_MainFunction] counts
    the timer of an RX I-PDU of an enabled group down by one per tick to 0
    and calls the timeout callback, if there is one, once, in the tick
    in which a positive timer reaches 0. *)
Theorem Com_MainFunction_timeout
        (PduR_ComTransmit : list Com_Event -> nat -> list Z -> Std_ReturnType)
        (cfg : Com_ConfigType) (i : nat) (p : Com_IPduConfigType)
        (rx : Com_IPduRxConfigType) (s : Com_State) :
  nth_error (IPduConfigs cfg) i = Some p ->
  rxConfig p = Some rx ->
  Z.land (GroupStatus s) (GroupRefMask p) <> 0 ->
  forall n,
    rxTimer (Nat.iter n (Com_MainFunction PduR_ComTransmit cfg) s) i
    = (rxTimer s i - n)%nat /\
    timeout_count i (trace (Nat.iter n (Com_MainFunction PduR_ComTransmit cfg)
                                     s))
    = (timeout_count i (trace s)
       + match RxTOut rx with
         | Some _ =>
             if (Nat.ltb 0 (rxTimer s i) && Nat.leb (rxTimer s i) n)%bool
             then 1 else 0
         | None => 0
         end)%nat.
Proof.
  intros Hi Hrx Hg n. apply group_active_land in Hg.
  apply (rx_timer_iter (Com_MainFunction PduR_ComTransmit cfg) i p rx
           (fun s' => Com_MainFunction_rx_step PduR_ComTransmit cfg i p rx s'
                        Hi Hrx) s Hg n).
Qed.

Lemma Com_MainFunction_cycle_witness :
  (forall h id sdu, always_ok h id sdu = E_OK) /\
  nth_error (IPduConfigs sample_cfg) 0 = Some sample_tx_pdu /\
  txConfig sample_tx_pdu = Some sample_tx /\
  Z.land (GroupStatus sample_started) (GroupRefMask sample_tx_pdu) <> 0 /\
  (txTimer sample_started 0 = 0 -> CycleTime sample_tx = 0)%nat /\
  tx_count 0 (trace (Nat.iter 7 (Com_MainFunction always_ok sample_cfg)
                              sample_started))
  = S (tx_count 0 (trace (Nat.iter 6 (Com_MainFunction always_ok sample_cfg)
                                   sample_started))).
Proof.
  assert (H0 : forall h id sdu, always_ok h id sdu = E_OK) by reflexivity.
  assert (H1 : nth_error (IPduConfigs sample_cfg) 0 = Some sample_tx_pdu)
    by reflexivity.
  assert (H2 : txConfig sample_tx_pdu = Some sample_tx) by reflexivity.
  assert (H3 : Z.land (GroupStatus sample_started)
                      (GroupRefMask sample_tx_pdu) <> 0)
    by (vm_compute; discriminate).
  assert (H4 : (txTimer sample_started 0 = 0 -> CycleTime sample_tx = 0)%nat)
    by (intros E; discriminate E).
  repeat (split; [assumption |]).
  destruct (Com_MainFunction_cycle always_ok sample_cfg 0 sample_tx_pdu
              sample_tx sample_started H0 H1 H2 H3 H4 6%nat) as [A _].
  apply A. exists 1%nat. reflexivity.
Defined.

Lemma Com_MainFunction_timeout_witness :
  nth_error (IPduConfigs sample_cfg) 1 = Some sample_rx_pdu /\
  rxConfig sample_rx_pdu = Some sample_rx /\
  Z.land (GroupStatus sample_started) (GroupRefMask sample_rx_pdu) <> 0 /\
  rxTimer (Nat.iter 3 (Com_MainFunction always_refused sample_cfg)
                    sample_started) 1 = 0%nat /\
  timeout_count 1 (trace (Nat.iter 3 (Com_MainFunction always_refused
                                        sample_cfg) sample_started))
  = S (timeout_count 1 (trace sample_started)).
Proof.
  assert (H1 : nth_error (IPduConfigs sample_cfg) 1 = Some sample_rx_pdu)
    by reflexivity.
  assert (H2 : rxConfig sample_rx_pdu = Some sample_rx) by reflexivity.
  assert (H3 : Z.land (GroupStatus sample_started)
                      (GroupRefMask sample_rx_pdu) <> 0)
    by (vm_compute; discriminate).
  repeat (split; [assumption |]).
  destruct (Com_MainFunction_timeout always_refused sample_cfg 1
              sample_rx_pdu sample_rx sample_started H1 H2 H3 3%nat)
    as [A B].
  split; [exact A | exact B].
Defined.

(** * Further properties of the I-PDU groups *)

Lemma Com_MainFunctionRx_body_inactive (j : nat) (p : Com_IPduConfigType)
      (s : Com_State) :
  group_active s p = false -> Com_MainFunctionRx_body j p s = s.
Proof.
  intros H. unfold Com_MainFunctionRx_body. rewrite H.
  now destruct (rxConfig p).
Qed.

Lemma group_active_none (s : Com_State) (p : Com_IPduConfigType) :
  GroupStatus s = 0 -> group_active s p = false.
Proof. intros H. unfold group_active. now rewrite H. Qed.

Lemma Com_MainFunctionRx_loop_none (pdus : list Com_IPduConfigType) :
  forall (k : nat) (s : Com_State),
    GroupStatus s = 0 -> Com_MainFunctionRx_loop pdus k s = s.
Proof.
  induction pdus as [| p rest IH]; intros k s H; simpl; [reflexivity |].
  rewrite Com_MainFunctionRx_body_inactive by (now apply group_active_none).
  now apply IH.
Qed.

Lemma Com_MainFunctionTx_loop_none
      (PduR_ComTransmit : list Com_Event -> nat -> list Z -> Std_ReturnType)
      (pdus : list Com_IPduConfigType) :
  forall (k : nat) (s : Com_State),
    GroupStatus s = 0 -> Com_MainFunctionTx_loop PduR_ComTransmit pdus k s = s.
Proof.
  induction pdus as [| p rest IH]; intros k s H; simpl; [reflexivity |].
  rewrite Com_MainFunctionTx_body_inactive by (now apply group_active_none).
  now apply IH.
Qed.

(** X19.  After [Com_Init] no group is enabled and the stack is inert: a call
    of [Com_MainFunction], a received frame and a transmit confirmation
    change nothing, whatever the timers hold, and [Com_TriggerIPDUSend]
    returns [E_NOT_OK] without a call of [PduR_ComTransmit]. *)
Theorem Com_Init_inert
        (PduR_ComTransmit : list Com_Event -> nat -> list Z -> Std_ReturnType)
        (cfg : Com_ConfigType) (s : Com_State) :
  Com_MainFunction PduR_ComTransmit cfg (Com_Init s) = Com_Init s /\
  (forall id info, Com_RxIndication cfg id info (Com_Init s)
                   = Some (Com_Init s)) /\
  (forall id result, Com_TxConfirmation cfg id result (Com_Init s)
                     = Com_Init s) /\
  (forall id, Com_TriggerIPDUSend PduR_ComTransmit cfg id (Com_Init s)
              = (E_NOT_OK, Com_Init s)).
Proof.
  assert (G : GroupStatus (Com_Init s) = 0) by reflexivity.
  assert (A : forall p, group_active (Com_Init s) p = false)
    by (intros p; now apply group_active_none).
  repeat split.
  - unfold Com_MainFunction, Com_MainFunctionRx, Com_MainFunctionTx.
    cbn [COM_USE_CAN].
    rewrite Com_MainFunctionRx_loop_none by exact G.
    now apply Com_MainFunctionTx_loop_none.
  - intros id info. unfold Com_RxIndication.
    destruct (nth_error (IPduConfigs cfg) id) as [p |]; [| reflexivity].
    rewrite A. now destruct (rxConfig p).
  - intros id result. unfold Com_TxConfirmation.
    destruct (nth_error (IPduConfigs cfg) id) as [p |]; [| reflexivity].
    rewrite A. now destruct (txConfig p).
  - intros id. unfold Com_TriggerIPDUSend.
    destruct (nth_error (IPduConfigs cfg) id) as [p |]; [| reflexivity].
    rewrite A. now destruct (txConfig p).
Qed.

Lemma testbit_group_stop (g : Z) (id : nat) (j : Z) :
  0 <= j ->
  Z.testbit (Z.land g (Z.lnot (Z.shiftl 1 (Z.of_nat id)))) j
  = (Z.testbit g j && negb (Z.eqb (Z.of_nat id) j))%bool.
Proof.
  intros Hj.
  rewrite Z.land_spec, Z.lnot_spec, Z.shiftl_1_l, Z.pow2_bits_eqb by lia.
  reflexivity.
Qed.

(** X20.  [Com_IpduGroupStop] for a group whose bit is defined changes
    the group status only.  An I-PDU that does not belong to the stopped
    group is as active as before; an I-PDU that belongs to another enabled
    group as well remains active; an I-PDU none of whose other groups is
    enabled becomes inactive. *)
Theorem Com_IpduGroupStop_activity
        (cfg : Com_ConfigType) (id : nat) (s : Com_State)
        (p : Com_IPduConfigType) :
  (id < numOfGroups cfg)%nat ->
  (id < 31)%nat ->
  exists s',
    Com_IpduGroupStop cfg id s = Some s' /\
    (forall i, rxTimer s' i = rxTimer s i) /\
    (forall i, txTimer s' i = txTimer s i) /\
    pduRam s' = pduRam s /\
    trace s' = trace s /\
    (Z.testbit (GroupRefMask p) (Z.of_nat id) = false ->
     group_active s' p = group_active s p) /\
    (forall j, j <> id ->
               Z.testbit (GroupRefMask p) (Z.of_nat j) = true ->
               Z.testbit (GroupStatus s) (Z.of_nat j) = true ->
               group_active s' p = true) /\
    ((forall j, 0 <= j -> j <> Z.of_nat id ->
                (Z.testbit (GroupStatus s) j
                 && Z.testbit (GroupRefMask p) j)%bool = false) ->
     group_active s' p = false).
Proof.
  intros Hid Hlt. unfold Com_IpduGroupStop.
  replace (Nat.ltb id (numOfGroups cfg)) with true
    by (symmetry; apply Nat.ltb_lt; exact Hid).
  rewrite (int_shl1_defined id Hlt).
  eexists. split; [reflexivity |].
  repeat split.
  - intros Hm. unfold group_active. cbn [GroupStatus set_GroupStatus].
    f_equal. f_equal. apply Z.bits_inj'. intros j Hj.
    rewrite Z.land_spec, testbit_group_stop by exact Hj.
    rewrite Z.land_spec.
    destruct (Z.eqb_spec (Z.of_nat id) j) as [<- | _].
    + rewrite Hm. now rewrite !andb_false_r.
    + now rewrite andb_true_r.
  - intros j Hj Hm Hs. apply (group_active_started _ p j); [exact Hm |].
    cbn [GroupStatus set_GroupStatus].
    rewrite testbit_group_stop, Hs by lia.
    destruct (Z.eqb_spec (Z.of_nat id) (Z.of_nat j)); [lia | reflexivity].
  - intros H. unfold group_active. cbn [GroupStatus set_GroupStatus].
    apply negb_false_iff, Z.eqb_eq, Z.bits_inj'. intros j Hj.
    rewrite Z.land_spec, testbit_group_stop, Z.testbit_0_l by exact Hj.
    destruct (Z.eqb_spec (Z.of_nat id) j) as [<- | N].
    + now rewrite andb_false_r.
    + rewrite andb_true_r. apply H; [exact Hj | congruence].
Qed.

Lemma Com_IpduGroupStop_activity_witness :
  (0 < numOfGroups sample_cfg)%nat /\
  (0 < 31)%nat /\
  group_active sample_started sample_tx_pdu = true /\
  exists s',
    Com_IpduGroupStop sample_cfg 0 sample_started = Some s' /\
    group_active s' sample_tx_pdu = false /\
    txTimer s' 0 = txTimer sample_started 0.
Proof.
  assert (H1 : (0 < numOfGroups sample_cfg)%nat) by (cbn; lia).
  assert (H2 : (0 < 31)%nat) by lia.
  assert (H3 : group_active sample_started sample_tx_pdu = true)
    by reflexivity.
  repeat (split; [assumption |]).
  destruct (Com_IpduGroupStop_activity sample_cfg 0 sample_started
              sample_tx_pdu H1 H2) as (s' & E & _ & T & _ & _ & _ & _ & A).
  exists s'. split; [exact E |]. split; [| exact (T 0%nat)].
  apply A. intros j Hj N.
  destruct j as [| q | q]; [contradiction | reflexivity | contradiction].
Defined.

Section StartScope.

Variable CPU_BIG_ENDIAN : bool.

Lemma Com_IpduGroupStart_body_scope (id : nat) (initialize : bool) (i : nat)
      (p : Com_IPduConfigType) (s s' : Com_State) :
  Com_IpduGroupStart_body CPU_BIG_ENDIAN id initialize i p s = Some s' ->
  GroupStatus s' = GroupStatus s /\
  trace s' = trace s /\
  (initialize = false -> pduRam s' = pduRam s).
Proof.
  unfold Com_IpduGroupStart_body.
  destruct (int_shl1 id) as [bit |]; [| discriminate].
  destruct (Z.eqb _ 0); [intros E; injection E as <-; now repeat split |].
  destruct initialize.
  - destruct (comIPduDataInit CPU_BIG_ENDIAN p (pduRam s)) as [m |];
      [| discriminate].
    destruct (rxConfig p) as [rx |]; [| destruct (txConfig p) as [tx |]];
      try destruct (Nat.ltb 0 _);
      intros E; injection E as <-; repeat split; discriminate.
  - destruct (rxConfig p) as [rx |]; [| destruct (txConfig p) as [tx |]];
      try destruct (Nat.ltb 0 _);
      intros E; injection E as <-; now repeat split.
Qed.

Lemma Com_IpduGroupStart_loop_scope (id : nat) (initialize : bool)
      (pdus : list Com_IPduConfigType) :
  forall (k : nat) (s s' : Com_State),
    Com_IpduGroupStart_loop CPU_BIG_ENDIAN id initialize pdus k s = Some s' ->
    GroupStatus s' = GroupStatus s /\
    trace s' = trace s /\
    (initialize = false -> pduRam s' = pduRam s).
Proof.
  induction pdus as [| p rest IH]; intros k s s' E; simpl in E.
  - injection E as <-. now repeat split.
  - destruct (Com_IpduGroupStart_body CPU_BIG_ENDIAN id initialize k p s)
      as [s1 |] eqn:E1; [| discriminate].
    destruct (Com_IpduGroupStart_body_scope _ _ _ _ _ _ E1) as (G1 & T1 & M1).
    destruct (IH _ _ _ E) as (G & T & M).
    rewrite G, T, G1, T1. repeat split.
    intros Hn. now rewrite (M Hn), (M1 Hn).
Qed.

(** Without initialisation the loop of the start returns, for a group
    whose bit is defined. *)
Lemma Com_IpduGroupStart_loop_total (id : nat)
      (pdus : list Com_IPduConfigType) :
  (id < 31)%nat ->
  forall (k : nat) (s : Com_State),
    exists s',
      Com_IpduGroupStart_loop CPU_BIG_ENDIAN id false pdus k s = Some s'.
Proof.
  intros Hlt.
  induction pdus as [| p rest IH]; intros k s; simpl.
  - now exists s.
  - assert (B : exists s1,
               Com_IpduGroupStart_body CPU_BIG_ENDIAN id false k p s
               = Some s1).
    { unfold Com_IpduGroupStart_body. rewrite (int_shl1_defined id Hlt).
      destruct (Z.eqb _ 0); [now eexists |].
      destruct (rxConfig p) as [rx |]; [| destruct (txConfig p) as [tx |]];
        try destruct (Nat.ltb 0 _); now eexists. }
    destruct B as [s1 ->]. apply IH.
Qed.

End StartScope.

(** X21.  For a group whose bit is defined, [Com_IpduGroupStart] without
    initialisation returns; and whenever [Com_IpduGroupStart] returns, with
    or without initialisation, it has called no callback and no lower
    layer, has set the bit of the group in the group status, and has left
    alone the timers of the I-PDUs that do not belong to the group and,
    without initialisation, the PDU RAM. *)
Theorem Com_IpduGroupStart_scope
        (be : bool) (cfg : Com_ConfigType) (id : nat) (s : Com_State) :
  (id < numOfGroups cfg)%nat ->
  (id < 31)%nat ->
  (exists s0, Com_IpduGroupStart be cfg id false s = Some s0) /\
  forall (initialize : bool) (s' : Com_State),
    Com_IpduGroupStart be cfg id initialize s = Some s' ->
    GroupStatus s' = Z.lor (GroupStatus s) (Z.shiftl 1 (Z.of_nat id)) /\
    trace s' = trace s /\
    (initialize = false -> pduRam s' = pduRam s) /\
    (forall i p,
        nth_error (IPduConfigs cfg) i = Some p ->
        Z.land (GroupRefMask p) (Z.shiftl 1 (Z.of_nat id)) = 0 ->
        rxTimer s' i = rxTimer s i /\ txTimer s' i = txTimer s i).
Proof.
  intros Hid Hlt. unfold Com_IpduGroupStart.
  replace (Nat.ltb id (numOfGroups cfg)) with true
    by (symmetry; apply Nat.ltb_lt; exact Hid).
  rewrite (int_shl1_defined id Hlt).
  split; [now apply Com_IpduGroupStart_loop_total |].
  intros initialize s' E.
  destruct (Com_IpduGroupStart_loop_scope _ _ _ _ _ _ _ E) as (G & T & M).
  split; [exact G | split; [exact T | split; [exact M |]]].
  intros i p Hi Hm.
  destruct (Com_IpduGroupStart_loop_at be _ _ _ _ _ _ _ Hi E)
    as (s1 & s2 & Q1 & E2 & Q2).
  unfold Com_IpduGroupStart_body in E2.
  rewrite (int_shl1_defined id Hlt) in E2.
  replace (Z.land (GroupRefMask p) (Z.shiftl 1 (Z.of_nat id)) =? 0)
    with true in E2 by (symmetry; apply Z.eqb_eq; exact Hm).
  injection E2 as <-.
  destruct Q1 as (_ & R1 & T1 & _). destruct Q2 as (_ & R2 & T2 & _).
  cbn [rxTimer txTimer set_GroupStatus] in R1, T1.
  split; congruence.
Qed.

Lemma Com_IpduGroupStart_scope_witness :
  (1 < numOfGroups two_group_cfg)%nat /\
  (1 < 31)%nat /\
  (exists s0,
      Com_IpduGroupStart false two_group_cfg 1 false sample_reset = Some s0) /\
  Com_IpduGroupStart false two_group_cfg 1 true sample_reset
  = Some two_group_started /\
  GroupStatus two_group_started = 2 /\
  trace two_group_started = [] /\
  rxTimer two_group_started 0 = 0%nat /\
  txTimer two_group_started 0 = 0%nat.
Proof.
  assert (H1 : (1 < numOfGroups two_group_cfg)%nat) by (cbn; lia).
  assert (H2 : (1 < 31)%nat) by lia.
  repeat (split; [assumption |]).
  destruct (Com_IpduGroupStart_scope false two_group_cfg 1 sample_reset
              H1 H2) as [A B].
  split; [exact A |].
  assert (E : Com_IpduGroupStart false two_group_cfg 1 true sample_reset
              = Some two_group_started) by reflexivity.
  split; [exact E |].
  destruct (B true two_group_started E) as (G & T & _ & K).
  split; [exact G | split; [exact T |]].
  apply (K 0%nat sample_tx_pdu); reflexivity.
Defined.

(** * Signals side by side *)

Lemma Std_BitGetLittleEndian_transfer (m m' : ram) (p p' start w : nat) :
  (forall k, (k < w)%nat ->
             Std_BitGet m' p' (start + k) = Std_BitGet m p (start + k)) ->
  Std_BitGetLittleEndian m' p' start w = Std_BitGetLittleEndian m p start w.
Proof.
  intros H. apply Z.bits_inj'. intros k Hk.
  rewrite !Std_BitGetLittleEndian_bit by lia.
  destruct (Z.ltb_spec k (Z.of_nat w)); [simpl | reflexivity].
  apply H. lia.
Qed.

Lemma Std_BitGetBigEndian_transfer (m m' : ram) (p p' start w : nat) :
  (forall k, (k < w)%nat ->
             Std_BitGet m' p' (be_lin (be_lin start + k)) =
             Std_BitGet m p (be_lin (be_lin start + k))) ->
  Std_BitGetBigEndian m' p' start w = Std_BitGetBigEndian m p start w.
Proof.
  intros H. apply Z.bits_inj'. intros k Hk. unfold Std_BitGetBigEndian.
  rewrite !be_get_bit by lia.
  destruct (Z.ltb_spec k (Z.of_nat w)); [| reflexivity].
  apply H. lia.
Qed.

Lemma comStoreSignalValue_layout (be : bool) (a b : Com_SignalConfigType) :
  type b = type a -> BitSize b = BitSize a ->
  comStoreSignalValue be b = comStoreSignalValue be a.
Proof.
  intros Ht Hs. unfold comStoreSignalValue. now rewrite Ht, Hs.
Qed.

(** What a scalar signal receives depends on the bits of its field and on
    its update bit only, read relative to its buffer. *)
Lemma comReceiveSignal_agree (be : bool) (a b : Com_SignalConfigType)
      (ma mb : ram) (dst : cptr) :
  same_layout a b ->
  (0 < type_size (type a))%nat ->
  Endianness a <> OPAQUE ->
  ubit_outside_field a = true ->
  (forall q, sig_bits a (abit (ptr a) q) = true ->
             Std_BitGet mb (ptr b) q = Std_BitGet ma (ptr a) q) ->
  received (comReceiveSignal be b dst mb)
  = received (comReceiveSignal be a dst ma).
Proof.
  intros (Ht & Hp & Hs & Hu & He) Hn Ho Hub Hb.
  assert (Hk : is_UINT8N (type a) = false)
    by (destruct (type a); simpl in Hn; lia || reflexivity).
  unfold comReceiveSignal. rewrite Ht, Hu, He, Hk.
  unfold ubit_outside_field, sig_field in Hub. rewrite Hk in Hub.
  unfold sig_bits, sig_field in Hb. rewrite Hk in Hb.
  replace (Nat.eqb (type_size (type a)) 0) with false in Hub, Hb
    by (symmetry; apply Nat.eqb_neq; lia).
  cbn [COM_USE_SIGNAL_UPDATE_BIT].
  unfold comReceiveSignalBig, comReceiveSignalLittle.
  rewrite Hp, Hs, (comStoreSignalValue_layout be a b) by assumption.
  change (Std_BitClear ?x ?y ?z) with (Std_BitWrite x y z false).
  destruct (Endianness a) eqn:Ee; [| | congruence]; cbn [is_OPAQUE orb] in *.
  - (* big-endian *)
    assert (F : forall m1 m2,
               (forall q, in_field_be (ptr a) (BitPosition a) (BitSize a)
                                      (abit (ptr a) q) = true ->
                          Std_BitGet m2 (ptr b) q = Std_BitGet m1 (ptr a) q) ->
               Std_BitGetBigEndian m2 (ptr b) (BitPosition a) (BitSize a)
               = Std_BitGetBigEndian m1 (ptr a) (BitPosition a) (BitSize a)).
    { intros m1 m2 H. apply Std_BitGetBigEndian_transfer. intros k Hk'.
      apply H. now apply in_field_be_inside. }
    destruct (UpdateBit a) as [u |].
    + apply negb_true_iff in Hub.
      rewrite (Hb u) by (now rewrite Nat.eqb_refl, orb_true_r).
      destruct (Std_BitGet ma (ptr a) u); [| reflexivity].
      rewrite (F (Std_BitWrite ma (ptr a) u false)
                 (Std_BitWrite mb (ptr b) u false)).
      * destruct (comStoreSignalValue be a _ dst) as [[r o] |]; reflexivity.
      * intros q Hq. rewrite !Std_BitGet_BitWrite.
        replace (Nat.eqb (abit (ptr b) q) (abit (ptr b) u))
          with (Nat.eqb (abit (ptr a) q) (abit (ptr a) u))
          by (unfold abit;
              destruct (Nat.eqb_spec (8 * ptr a + q) (8 * ptr a + u));
              destruct (Nat.eqb_spec (8 * ptr b + q) (8 * ptr b + u));
              lia || reflexivity).
        destruct (Nat.eqb (abit (ptr a) q) (abit (ptr a) u)); [reflexivity |].
        apply Hb. now rewrite Hq.
    + rewrite (F ma mb).
      * destruct (comStoreSignalValue be a _ dst) as [[r o] |]; reflexivity.
      * intros q Hq. apply Hb. now rewrite Hq.
  - (* little-endian *)
    assert (F : forall m1 m2,
               (forall q, in_field_le (ptr a) (BitPosition a) (BitSize a)
                                      (abit (ptr a) q) = true ->
                          Std_BitGet m2 (ptr b) q = Std_BitGet m1 (ptr a) q) ->
               Std_BitGetLittleEndian m2 (ptr b) (BitPosition a) (BitSize a)
               = Std_BitGetLittleEndian m1 (ptr a) (BitPosition a)
                                        (BitSize a)).
    { intros m1 m2 H. apply Std_BitGetLittleEndian_transfer. intros k Hk'.
      apply H. now apply in_field_le_inside. }
    destruct (UpdateBit a) as [u |].
    + apply negb_true_iff in Hub.
      rewrite (Hb u) by (now rewrite Nat.eqb_refl, orb_true_r).
      destruct (Std_BitGet ma (ptr a) u); [| reflexivity].
      rewrite (F (Std_BitWrite ma (ptr a) u false)
                 (Std_BitWrite mb (ptr b) u false)).
      * destruct (comStoreSignalValue be a _ dst) as [[r o] |]; reflexivity.
      * intros q Hq. rewrite !Std_BitGet_BitWrite.
        replace (Nat.eqb (abit (ptr b) q) (abit (ptr b) u))
          with (Nat.eqb (abit (ptr a) q) (abit (ptr a) u))
          by (unfold abit;
              destruct (Nat.eqb_spec (8 * ptr a + q) (8 * ptr a + u));
              destruct (Nat.eqb_spec (8 * ptr b + q) (8 * ptr b + u));
              lia || reflexivity).
        destruct (Nat.eqb (abit (ptr a) q) (abit (ptr a) u)); [reflexivity |].
        apply Hb. now rewrite Hq.
    + rewrite (F ma mb).
      * destruct (comStoreSignalValue be a _ dst) as [[r o] |]; reflexivity.
      * intros q Hq. apply Hb. now rewrite Hq.
Qed.

(** A send and a later reception of another signal. *)
Lemma comReceiveSignal_after_send
        (be : bool) (a b : Com_SignalConfigType) (src dst : cptr)
        (m m' : ram) (r : Std_ReturnType) :
  comSendSignal be a src m = Some (r, m') ->
  (0 < type_size (type b))%nat ->
  Endianness b <> OPAQUE ->
  ubit_outside_field b = true ->
  (forall x, sig_bits b x = true -> sig_bits a x = false) ->
  received (comReceiveSignal be b dst m')
  = received (comReceiveSignal be b dst m).
Proof.
  intros Hs Hn Ho Hub Hd.
  apply comReceiveSignal_agree; try assumption.
  - now repeat split.
  - intros q Hq. apply Hd in Hq. unfold sig_bits in Hq.
    apply orb_false_iff in Hq. destruct Hq as [Hf Hu].
    apply (comSendSignal_other_bits be a src m m' r (ptr b) q Hs Hf).
    intros u Eu E. rewrite Eu, E, Nat.eqb_refl in Hu. discriminate.
Qed.

(** X5.  Sending a signal does not change what a scalar signal receives whose
    data bits and update bit are not bits of the signal that is sent:
    the status and the object behind the destination are the same as
    without the send. *)
Theorem signal_independence
        (be : bool) (a b : Com_SignalConfigType) (src dst : cptr)
        (m m' : ram) (r : Std_ReturnType) :
  comSendSignal be a src m = Some (r, m') ->
  (0 < type_size (type b))%nat ->
  Endianness b <> OPAQUE ->
  ubit_outside_field b = true ->
  (forall x, sig_bits b x = true -> sig_bits a x = false) ->
  received (comReceiveSignal be b dst m')
  = received (comReceiveSignal be b dst m).
Proof.
  apply comReceiveSignal_after_send.
Qed.

Lemma signal_independence_witness :
  comSendSignal false sample_speed (Some [0xFF; 0xFF]) (pduRam sample_started)
  = Some (E_OK,
          pduRam (match Com_SendSignal false sample_cfg 0 (Some [0xFF; 0xFF])
                          sample_started with
                  | Some (_, s) => s
                  | None => sample_started
                  end)) /\
  (0 < type_size (type sample_door))%nat /\
  Endianness sample_door <> OPAQUE /\
  ubit_outside_field sample_door = true /\
  (forall x, sig_bits sample_door x = true -> sig_bits sample_speed x = false)
  /\
  received (comReceiveSignal false sample_door (Some [7])
              (pduRam (match Com_SendSignal false sample_cfg 0
                               (Some [0xFF; 0xFF]) sample_started with
                       | Some (_, s) => s
                       | None => sample_started
                       end)))
  = received (comReceiveSignal false sample_door (Some [7])
                (pduRam sample_started)).
Proof.
  assert (H1 : comSendSignal false sample_speed (Some [0xFF; 0xFF])
                             (pduRam sample_started)
               = Some (E_OK,
                       pduRam (match Com_SendSignal false sample_cfg 0
                                       (Some [0xFF; 0xFF]) sample_started with
                               | Some (_, s) => s
                               | None => sample_started
                               end))) by reflexivity.
  assert (H2 : (0 < type_size (type sample_door))%nat) by (cbn; lia).
  assert (H3 : Endianness sample_door <> OPAQUE) by discriminate.
  assert (H4 : ubit_outside_field sample_door = true) by reflexivity.
  assert (H5 : forall x, sig_bits sample_door x = true ->
                         sig_bits sample_speed x = false).
  { intros x. unfold sig_bits, sig_field, sample_door, sample_speed.
    cbn [type Endianness ptr BitPosition BitSize UpdateBit is_UINT8N
         is_OPAQUE orb type_size Nat.eqb].
    unfold in_field_be, in_field_le.
    change (be_lin (abit 8 7)) with 64%nat.
    change (abit 0 0) with 0%nat. change (abit 0 12) with 12%nat.
    unfold be_lin. rewrite orb_false_r. intros H. apply andb_prop in H.
    destruct H as [L _]. apply Nat.leb_le in L.
    split8 x.
    apply orb_false_iff. split.
    - apply andb_false_iff. right. apply Nat.ltb_ge. lia.
    - apply Nat.eqb_neq. lia. }
  repeat (split; [assumption |]).
  exact (signal_independence false sample_speed sample_door
           (Some [0xFF; 0xFF]) (Some [7]) _ _ E_OK H1 H2 H3 H4 H5).
Defined.

(** * From the sender to the receiver *)

(** The object that the receive path stores for a value of the field. *)
Lemma comStoreSignalValue_fits (be : bool) (signal : Com_SignalConfigType)
      (x : Z) (dst : list Z) :
  (0 < type_size (type signal))%nat ->
  1 <= Z.of_nat (BitSize signal) <= 8 * Z.of_nat (type_size (type signal)) ->
  fits_signal signal x ->
  (type_size (type signal) <= length dst)%nat ->
  comStoreSignalValue be signal
    ((x mod 2 ^ (8 * Z.of_nat (type_size (type signal))))
     mod 2 ^ Z.of_nat (BitSize signal)) (Some dst)
  = Some (E_OK, Some (int_rep be (type_size (type signal)) x
                      ++ skipn (type_size (type signal)) dst)).
Proof.
  intros Hn Hw Hfit Hd.
  set (n := type_size (type signal)) in *.
  set (w := Z.of_nat (BitSize signal)) in *.
  assert (Hn8 : 8 * Z.of_nat n <= 32)
    by (unfold n; destruct (type signal); simpl; lia).
  unfold fits_signal in Hfit. fold w in Hfit.
  destruct (is_signed (type signal)) eqn:Hs.
  - pose proof (comStoreSignalValue_signed be signal x dst Hs) as St.
    cbv zeta in St. fold n in St. fold w in St.
    apply St; [lia | exact Hfit | exact Hd].
  - rewrite (comStoreSignalValue_unsigned be signal _ dst Hs Hn)
      by (fold w; lia).
    fold n. fold w.
    assert (P : 2 ^ w <= 2 ^ (8 * Z.of_nat n))
      by (apply Z.pow_le_mono_r; lia).
    rewrite (Z.mod_small x (2 ^ (8 * Z.of_nat n))) by lia.
    now rewrite !(Z.mod_small x (2 ^ w)) by lia.
Qed.


Lemma nth_read_bytes (m : ram) (a n k : nat) :
  (k < n)%nat -> nth k (read_bytes m a n) 0 = m (a + k)%nat.
Proof.
  intros H. unfold read_bytes.
  rewrite (nth_indep _ 0 (m 0%nat)) by (now rewrite length_map, length_seq).
  rewrite map_nth, seq_nth by exact H. reflexivity.
Qed.

Lemma write_bytes_inside (m : ram) (a k : nat) (bs : list Z) :
  (k < length bs)%nat -> write_bytes m a bs (a + k)%nat = nth k bs 0.
Proof.
  intros H. unfold write_bytes.
  replace (Nat.leb a (a + k)) with true by (symmetry; apply Nat.leb_le; lia).
  replace (Nat.ltb (a + k) (a + length bs)) with true
    by (symmetry; apply Nat.ltb_lt; lia).
  simpl. f_equal. lia.
Qed.

(** The receiver's copy of a frame has the bits of the sender's buffer. *)
Lemma Std_BitGet_copied (ma mb : ram) (pa pb la lb q : nat) :
  (lb <= la)%nat -> (q < 8 * lb)%nat ->
  Std_BitGet (write_bytes mb pb (firstn lb (read_bytes ma pa la))) pb q
  = Std_BitGet ma pa q.
Proof.
  intros Hl Hq. unfold Std_BitGet.
  assert (Hk : (q / 8 < lb)%nat) by (split8 q; lia).
  assert (Hlen : length (firstn lb (read_bytes ma pa la)) = lb).
  { rewrite length_firstn. unfold read_bytes.
    rewrite length_map, length_seq. lia. }
  rewrite write_bytes_inside by (rewrite Hlen; exact Hk).
  rewrite nth_firstn.
  replace (Nat.ltb (q / 8) lb) with true
    by (symmetry; apply Nat.ltb_lt; exact Hk).
  rewrite nth_read_bytes by lia. reflexivity.
Qed.

(** X6.  A value of the field of a scalar signal travels unchanged from the
    application of the sender to the application of the receiver:
    [Com_SendSignal] and [Com_TriggerIPDUSend] on one node, the SDU handed to
    [PduR_ComTransmit] delivered by [Com_RxIndication] on another node, and
    [Com_ReceiveSignal] there.  The two nodes may differ in CPU byte order
    and in the address of the I-PDU buffer; the signal has the same layout
    on both, and it lies in the part of the I-PDU that the receiver
    takes. *)
Theorem signal_end_to_end
        (beA beB : bool)
        (PduR_ComTransmit : list Com_Event -> nat -> list Z -> Std_ReturnType)
        (cfgA cfgB : Com_ConfigType) (sidA i sidB j : nat)
        (a b : Com_SignalConfigType) (pa pb : Com_IPduConfigType)
        (tx : Com_IPduTxConfigType) (rx : Com_IPduRxConfigType)
        (x : Z) (dst : list Z) (sA sB : Com_State) :
  nth_error (SignalConfigs cfgA) sidA = Some a ->
  nth_error (IPduConfigs cfgA) i = Some pa ->
  txConfig pa = Some tx ->
  Z.land (GroupStatus sA) (GroupRefMask pa) <> 0 ->
  ptr a = IPdu_ptr pa ->
  nth_error (SignalConfigs cfgB) sidB = Some b ->
  nth_error (IPduConfigs cfgB) j = Some pb ->
  rxConfig pb = Some rx ->
  Z.land (GroupStatus sB) (GroupRefMask pb) <> 0 ->
  ptr b = IPdu_ptr pb ->
  (IPdu_length pb <= IPdu_length pa)%nat ->
  same_layout a b ->
  (0 < type_size (type a))%nat ->
  Endianness a <> OPAQUE ->
  ubit_outside_field a = true ->
  1 <= Z.of_nat (BitSize a) <= 8 * Z.of_nat (type_size (type a)) ->
  (forall q, sig_bits a (abit (ptr a) q) = true ->
             (q < 8 * IPdu_length pb)%nat) ->
  fits_signal a x ->
  (type_size (type a) <= length dst)%nat ->
  exists sA1 sA2 sdu r sB1 sB2,
    Com_SendSignal beA cfgA sidA (Some (int_rep beA (type_size (type a)) x)) sA
    = Some (E_OK, sA1) /\
    Com_TriggerIPDUSend PduR_ComTransmit cfgA i sA1 = (E_OK, sA2) /\
    trace sA2 = EvTransmit i (TxPduId tx) sdu r :: trace sA /\
    Com_RxIndication cfgB j
      {| SduDataPtr := Some sdu; SduLength := length sdu |} sB = Some sB1 /\
    Com_ReceiveSignal beB cfgB sidB (Some dst) sB1
    = Some (E_OK, sB2,
            Some (int_rep beB (type_size (type a)) x
                  ++ skipn (type_size (type a)) dst)).
Proof.
  intros Hsa Hi Htx Hga Hpa Hsb Hj Hrx Hgb Hpb Hlen Hlay Hn Ho Hub Hw Hin
         Hfit Hd.
  apply group_active_land in Hga. apply group_active_land in Hgb.
  set (n := type_size (type a)) in *.
  set (w := Z.of_nat (BitSize a)) in *.
  (* the sender packs the value *)
  assert (Hg : comGetSignalValue beA a (Some (int_rep beA n x))
               = Some (E_OK, x mod 2 ^ (8 * Z.of_nat n))).
  { rewrite <- (app_nil_r (int_rep _ _ _)).
    unfold n. now rewrite comGetSignalValue_int_rep. }
  destruct (scalar_send_receive beA a _ _ (pduRam sA) Hn Ho Hub Hg)
    as (m1 & m2 & Hsend & Hrecv).
  (* what the receiver stores for the field *)
  pose proof (comStoreSignalValue_fits beB a x dst Hn Hw Hfit Hd) as Hst.
  fold n in Hst. fold w in Hst.
  (* the frame *)
  set (sdu := read_bytes m1 (IPdu_ptr pa) (IPdu_length pa)).
  assert (Hsl : length sdu = IPdu_length pa)
    by (unfold sdu, read_bytes; now rewrite length_map, length_seq).
  set (mb := write_bytes (pduRam sB) (IPdu_ptr pb)
                         (firstn (IPdu_length pb) sdu)).
  (* the receiver unpacks the value *)
  assert (Hag : received (comReceiveSignal beB b (Some dst) mb)
                = Some (E_OK, Some (int_rep beB n x ++ skipn n dst))).
  { rewrite (comReceiveSignal_agree beB a b m1 mb (Some dst)
               Hlay Hn Ho Hub).
    - rewrite Hrecv. fold w. now rewrite Hst.
    - intros q Hq. unfold mb, sdu. rewrite Hpa, Hpb.
      apply Std_BitGet_copied; [exact Hlen | now apply Hin]. }
  destruct (comReceiveSignal beB b (Some dst) mb) as [[[r' m'] o] |] eqn:Hr;
    [| discriminate].
  cbn [received] in Hag. injection Hag as -> ->.
  set (sA1 := set_pduRam sA m1).
  set (r := PduR_ComTransmit (trace sA1) (TxPduId tx)
              (read_bytes (pduRam sA1) (IPdu_ptr pa) (IPdu_length pa))).
  set (sB1 := notify (set_rxTimer (set_pduRam sB mb) j (Timeout rx))
                     (RxNotification rx) (EvRxNotification j)).
  exists sA1,
    (set_txTimer (emit sA1 (EvTransmit i (TxPduId tx) sdu r)) i
                 (match r with E_OK => CycleTime tx | E_NOT_OK => 1%nat end)),
    sdu, r, sB1, (set_pduRam sB1 m').
  split; [| split; [| split; [| split]]].
  - unfold Com_SendSignal. now rewrite Hsa, Hsend.
  - unfold Com_TriggerIPDUSend. rewrite Hi, Htx.
    change (group_active sA1 pa) with (group_active sA pa). rewrite Hga.
    unfold transmit. cbv zeta. fold r.
    change (read_bytes (pduRam sA1) (IPdu_ptr pa) (IPdu_length pa)) with sdu.
    now destruct r.
  - reflexivity.
  - unfold Com_RxIndication. rewrite Hj, Hrx, Hgb.
    cbn [SduLength SduDataPtr]. rewrite Hsl.
    replace (Nat.leb (IPdu_length pb) (IPdu_length pa)) with true
      by (symmetry; apply Nat.leb_le; exact Hlen).
    unfold memcpy_to_ram. rewrite Hsl.
    replace (Nat.ltb (IPdu_length pa) (IPdu_length pb)) with false
      by (symmetry; apply Nat.ltb_ge; exact Hlen).
    reflexivity.
  - unfold Com_ReceiveSignal. rewrite Hsb.
    replace (pduRam sB1) with mb
      by (unfold sB1; now destruct (RxNotification rx)).
    now rewrite Hr.
Qed.

Lemma signal_end_to_end_witness :
  nth_error (SignalConfigs sample_cfg) 0 = Some sample_speed /\
  nth_error (IPduConfigs sample_cfg) 0 = Some sample_tx_pdu /\
  txConfig sample_tx_pdu = Some sample_tx /\
  Z.land (GroupStatus sample_started) (GroupRefMask sample_tx_pdu) <> 0 /\
  ptr sample_speed = IPdu_ptr sample_tx_pdu /\
  nth_error (SignalConfigs peer_cfg) 0 = Some peer_speed /\
  nth_error (IPduConfigs peer_cfg) 0 = Some peer_rx_pdu /\
  rxConfig peer_rx_pdu = Some sample_rx /\
  Z.land (GroupStatus peer_started) (GroupRefMask peer_rx_pdu) <> 0 /\
  ptr peer_speed = IPdu_ptr peer_rx_pdu /\
  (IPdu_length peer_rx_pdu <= IPdu_length sample_tx_pdu)%nat /\
  same_layout sample_speed peer_speed /\
  (0 < type_size (type sample_speed))%nat /\
  Endianness sample_speed <> OPAQUE /\
  ubit_outside_field sample_speed = true /\
  1 <= Z.of_nat (BitSize sample_speed)
    <= 8 * Z.of_nat (type_size (type sample_speed)) /\
  (forall q, sig_bits sample_speed (abit (ptr sample_speed) q) = true ->
             (q < 8 * IPdu_length peer_rx_pdu)%nat) /\
  fits_signal sample_speed (-5) /\
  (type_size (type sample_speed) <= length [0; 0])%nat /\
  exists sA1 sA2 sdu r sB1 sB2,
    Com_SendSignal false sample_cfg 0 (Some [0xFB; 0xFF]) sample_started
    = Some (E_OK, sA1) /\
    Com_TriggerIPDUSend always_ok sample_cfg 0 sA1 = (E_OK, sA2) /\
    trace sA2 = EvTransmit 0 (TxPduId sample_tx) sdu r :: trace sample_started
    /\
    Com_RxIndication peer_cfg 0
      {| SduDataPtr := Some sdu; SduLength := length sdu |} peer_started
    = Some sB1 /\
    Com_ReceiveSignal true peer_cfg 0 (Some [0; 0]) sB1
    = Some (E_OK, sB2, Some [0xFF; 0xFB]).
Proof.
  assert (H1 : nth_error (SignalConfigs sample_cfg) 0 = Some sample_speed)
    by reflexivity.
  assert (H2 : nth_error (IPduConfigs sample_cfg) 0 = Some sample_tx_pdu)
    by reflexivity.
  assert (H3 : txConfig sample_tx_pdu = Some sample_tx) by reflexivity.
  assert (H4 : Z.land (GroupStatus sample_started)
                      (GroupRefMask sample_tx_pdu) <> 0)
    by (vm_compute; discriminate).
  assert (H5 : ptr sample_speed = IPdu_ptr sample_tx_pdu) by reflexivity.
  assert (H6 : nth_error (SignalConfigs peer_cfg) 0 = Some peer_speed)
    by reflexivity.
  assert (H7 : nth_error (IPduConfigs peer_cfg) 0 = Some peer_rx_pdu)
    by reflexivity.
  assert (H8 : rxConfig peer_rx_pdu = Some sample_rx) by reflexivity.
  assert (H9 : Z.land (GroupStatus peer_started) (GroupRefMask peer_rx_pdu)
               <> 0) by (vm_compute; discriminate).
  assert (H10 : ptr peer_speed = IPdu_ptr peer_rx_pdu) by reflexivity.
  assert (H11 : (IPdu_length peer_rx_pdu <= IPdu_length sample_tx_pdu)%nat)
    by (cbn; lia).
  assert (H12 : same_layout sample_speed peer_speed)
    by (repeat split; reflexivity).
  assert (H13 : (0 < type_size (type sample_speed))%nat) by (cbn; lia).
  assert (H14 : Endianness sample_speed <> OPAQUE) by discriminate.
  assert (H15 : ubit_outside_field sample_speed = true) by reflexivity.
  assert (H16 : 1 <= Z.of_nat (BitSize sample_speed)
                <= 8 * Z.of_nat (type_size (type sample_speed)))
    by (cbn; lia).
  assert (H17 : forall q,
             sig_bits sample_speed (abit (ptr sample_speed) q) = true ->
             (q < 8 * IPdu_length peer_rx_pdu)%nat).
  { intros q. unfold sig_bits, sig_field, sample_speed, peer_rx_pdu.
    cbn [type Endianness ptr BitPosition BitSize UpdateBit is_UINT8N
         is_OPAQUE orb type_size Nat.eqb IPdu_length].
    unfold in_field_le, abit. intros H.
    apply orb_prop in H. destruct H as [H | H].
    - apply andb_prop in H. destruct H as [_ H].
      apply Nat.ltb_lt in H. lia.
    - apply Nat.eqb_eq in H. lia. }
  assert (H18 : fits_signal sample_speed (-5))
    by (unfold fits_signal; cbn; lia).
  assert (H19 : (type_size (type sample_speed) <= length [0; 0])%nat)
    by (cbn; lia).
  repeat (split; [assumption |]).
  exact (signal_end_to_end false true always_ok sample_cfg peer_cfg 0 0 0 0
           sample_speed peer_speed sample_tx_pdu peer_rx_pdu sample_tx
           sample_rx (-5) [0; 0] sample_started peer_started
           H1 H2 H3 H4 H5 H6 H7 H8 H9 H10 H11 H12 H13 H14 H15 H16 H17 H18
           H19).
Defined.

(** * Signal groups *)

(** X9.  [Com_SendSignalGroup] for a byte-array signal copies the first
    [BitSize / 8] bytes of the shadow buffer to the address of the signal
    and changes nothing else: no other byte of the PDU RAM, no timer, no
    group, no callback.  Unlike [Com_SendSignal] with the shadow buffer as
    the source, it does not set the update bit of the signal; that is the
    only difference.  [Com_ReceiveSignalGroup] after it leaves the shadow
    buffer as it is. *)
Theorem signal_group_roundtrip
        (be : bool) (cfg : Com_ConfigType) (id : nat)
        (signal : Com_SignalConfigType) (shadow : list Z) (s : Com_State) :
  nth_error (SignalConfigs cfg) id = Some signal ->
  type signal = COM_UINT8N ->
  initPtr signal = Some shadow ->
  (BitSize signal / 8 <= length shadow)%nat ->
  exists s1,
    Com_SendSignalGroup cfg id s = Some (E_OK, s1) /\
    read_bytes (pduRam s1) (ptr signal) (BitSize signal / 8)
    = firstn (BitSize signal / 8) shadow /\
    (forall x, (x < ptr signal \/ ptr signal + BitSize signal / 8 <= x)%nat ->
               pduRam s1 x = pduRam s x) /\
    GroupStatus s1 = GroupStatus s /\
    (forall i, rxTimer s1 i = rxTimer s i) /\
    (forall i, txTimer s1 i = txTimer s i) /\
    trace s1 = trace s /\
    Com_SendSignal be cfg id (Some shadow) s
    = Some (E_OK,
            set_pduRam s match UpdateBit signal with
                         | Some u => Std_BitSet (pduRam s1) (ptr signal) u
                         | None => pduRam s1
                         end) /\
    Com_ReceiveSignalGroup cfg id s1 = Some (E_OK, Some shadow).
Proof.
  intros Hi Ht Hp Hl.
  assert (Hlen : length (firstn (BitSize signal / 8) shadow)
                 = (BitSize signal / 8)%nat)
    by (rewrite length_firstn; lia).
  assert (Hw : read_bytes (write_bytes (pduRam s) (ptr signal)
                             (firstn (BitSize signal / 8) shadow))
                          (ptr signal) (BitSize signal / 8)
               = firstn (BitSize signal / 8) shadow).
  { pose proof (read_bytes_write_bytes (pduRam s)
                  (firstn (BitSize signal / 8) shadow) (ptr signal)) as W.
    rewrite Hlen in W. exact W. }
  unfold Com_SendSignalGroup, Com_ReceiveSignalGroup, Com_SendSignal.
  rewrite Hi, Ht, Hp. cbn [is_UINT8N].
  unfold comSendSignal. rewrite Ht. cbn [is_UINT8N orb].
  unfold memcpy_to_ram, memcpy_from_ram.
  replace (Nat.ltb (length shadow) (BitSize signal / 8)) with false
    by (symmetry; apply Nat.ltb_ge; exact Hl).
  cbn [COM_USE_SIGNAL_UPDATE_BIT].
  eexists. split; [reflexivity |].
  cbn [pduRam set_pduRam GroupStatus rxTimer txTimer trace].
  split; [exact Hw |].
  split; [intros x Hx; apply write_bytes_outside; rewrite Hlen; exact Hx |].
  split; [reflexivity |]. split; [reflexivity |]. split; [reflexivity |].
  split; [reflexivity |].
  split; [now destruct (UpdateBit signal) |].
  now rewrite Hw, firstn_skipn.
Qed.

Lemma signal_group_roundtrip_witness :
  nth_error (SignalConfigs two_group_cfg) 3 = Some sample_vin /\
  type sample_vin = COM_UINT8N /\
  initPtr sample_vin = Some [0x41; 0x42; 0x43] /\
  (BitSize sample_vin / 8 <= length [0x41; 0x42; 0x43])%nat /\
  exists s1,
    Com_SendSignalGroup two_group_cfg 3 sample_reset = Some (E_OK, s1) /\
    read_bytes (pduRam s1) 16 3 = [0x41; 0x42; 0x43] /\
    Com_ReceiveSignalGroup two_group_cfg 3 s1
    = Some (E_OK, Some [0x41; 0x42; 0x43]).
Proof.
  assert (H1 : nth_error (SignalConfigs two_group_cfg) 3 = Some sample_vin)
    by reflexivity.
  assert (H2 : type sample_vin = COM_UINT8N) by reflexivity.
  assert (H3 : initPtr sample_vin = Some [0x41; 0x42; 0x43]) by reflexivity.
  assert (H4 : (BitSize sample_vin / 8 <= length [0x41; 0x42; 0x43])%nat)
    by (cbn; lia).
  repeat (split; [assumption |]).
  destruct (signal_group_roundtrip false two_group_cfg 3 sample_vin
              [0x41; 0x42; 0x43] sample_reset H1 H2 H3 H4)
    as (s1 & A & B & _ & _ & _ & _ & _ & _ & C).
  exists s1. split; [exact A | split; [exact B | exact C]].
Defined.

(** * Initial values *)

(** The initialisation of signals that do not touch the bits of a scalar
    signal does not change what that signal receives. *)
Lemma comReceiveSignal_after_init (be : bool) (b : Com_SignalConfigType)
      (dst : cptr) (l : list Com_SignalConfigType) :
  (0 < type_size (type b))%nat ->
  Endianness b <> OPAQUE ->
  ubit_outside_field b = true ->
  forall m m',
    comIPduDataInit_loop be l m = Some m' ->
    (forall c, In c l -> forall y, sig_bits b y = true -> sig_bits c y = false)
    ->
    received (comReceiveSignal be b dst m')
    = received (comReceiveSignal be b dst m).
Proof.
  intros Hn Ho Hub.
  induction l as [| c l IH]; intros m m' E Hd; simpl in E.
  - now injection E as <-.
  - destruct (comSendSignal be c (initPtr c) m) as [[r m1] |] eqn:Es;
      [| discriminate].
    rewrite (IH m1 m' E) by (intros c' Hc'; apply Hd; now right).
    apply (comReceiveSignal_after_send be c b (initPtr c) dst m m1 r Es
             Hn Ho Hub).
    apply Hd. now left.
Qed.

(** X8.  After [Com_IpduGroupStart] with initialisation, a scalar signal of an
    I-PDU of the group receives its initial value, when that is a value of
    its field and no signal that is initialised after it uses one of its
    bits. *)
Theorem group_start_initial_value
        (be : bool) (cfg : Com_ConfigType) (id sid : nat)
        (l1 l2 : list Com_SignalConfigType) (b : Com_SignalConfigType)
        (x : Z) (dst : list Z) (s s0 : Com_State) :
  (id < numOfGroups cfg)%nat ->
  Com_IpduGroupStart be cfg id true s = Some s0 ->
  init_signals cfg id = l1 ++ b :: l2 ->
  nth_error (SignalConfigs cfg) sid = Some b ->
  (0 < type_size (type b))%nat ->
  Endianness b <> OPAQUE ->
  ubit_outside_field b = true ->
  1 <= Z.of_nat (BitSize b) <= 8 * Z.of_nat (type_size (type b)) ->
  initPtr b = Some (int_rep be (type_size (type b)) x) ->
  fits_signal b x ->
  (forall c, In c l2 -> forall y, sig_bits b y = true -> sig_bits c y = false)
  ->
  (type_size (type b) <= length dst)%nat ->
  exists s1,
    Com_ReceiveSignal be cfg sid (Some dst) s0
    = Some (E_OK, s1,
            Some (int_rep be (type_size (type b)) x
                  ++ skipn (type_size (type b)) dst)).
Proof.
  intros Hid Hstart Hsplit Hsid Hn Ho Hub Hw Hinit Hfit Hdis Hd.
  unfold Com_IpduGroupStart in Hstart.
  replace (Nat.ltb id (numOfGroups cfg)) with true in Hstart
    by (symmetry; apply Nat.ltb_lt; exact Hid).
  destruct (int_shl1 id) as [bit |] eqn:Hbit; [| discriminate].
  destruct (int_shl1_inv _ _ Hbit) as [Hlt ->].
  set (s1 := set_GroupStatus s
               (Z.lor (GroupStatus s) (Z.shiftl 1 (Z.of_nat id)))) in *.
  pose proof (Com_IpduGroupStart_loop_ram be id (IPduConfigs cfg) Hlt 0 s1)
    as R.
  unfold init_signals in Hsplit. rewrite Hsplit in R.
  rewrite comIPduDataInit_loop_app in R.
  destruct (comIPduDataInit_loop be l1 (pduRam s1)) as [m1 |];
    [| rewrite R in Hstart; discriminate].
  cbn [comIPduDataInit_loop] in R.
  assert (Hg : comGetSignalValue be b (initPtr b)
               = Some (E_OK, x mod 2 ^ (8 * Z.of_nat (type_size (type b))))).
  { rewrite Hinit, <- (app_nil_r (int_rep _ _ _)).
    now rewrite comGetSignalValue_int_rep. }
  destruct (scalar_send_receive be b _ _ m1 Hn Ho Hub Hg)
    as (m2 & m3 & Hsend & Hrecv).
  rewrite Hsend in R.
  destruct (comIPduDataInit_loop be l2 m2) as [mf |] eqn:E2;
    [| rewrite R in Hstart; discriminate].
  destruct R as (s' & Hs' & Hram).
  rewrite Hs' in Hstart. injection Hstart as <-.
  assert (Hv : received (comReceiveSignal be b (Some dst) (pduRam s'))
               = Some (E_OK, Some (int_rep be (type_size (type b)) x
                                   ++ skipn (type_size (type b)) dst))).
  { rewrite Hram.
    rewrite (comReceiveSignal_after_init be b (Some dst) l2 Hn Ho Hub m2 mf
               E2 Hdis).
    now rewrite Hrecv, (comStoreSignalValue_fits be b x dst Hn Hw Hfit Hd). }
  unfold Com_ReceiveSignal. rewrite Hsid.
  destruct (comReceiveSignal be b (Some dst) (pduRam s'))
    as [[[r m'] o] |]; [| discriminate].
  cbn [received] in Hv. injection Hv as -> ->.
  now eexists.
Qed.

Lemma group_start_initial_value_witness :
  (0 < numOfGroups sample_cfg)%nat /\
  Com_IpduGroupStart false sample_cfg 0 true sample_reset
  = Some sample_started /\
  init_signals sample_cfg 0 = [] ++ sample_speed :: [sample_block; sample_door]
  /\
  nth_error (SignalConfigs sample_cfg) 0 = Some sample_speed /\
  (0 < type_size (type sample_speed))%nat /\
  Endianness sample_speed <> OPAQUE /\
  ubit_outside_field sample_speed = true /\
  1 <= Z.of_nat (BitSize sample_speed)
    <= 8 * Z.of_nat (type_size (type sample_speed)) /\
  initPtr sample_speed
  = Some (int_rep false (type_size (type sample_speed)) 0x234) /\
  fits_signal sample_speed 0x234 /\
  (forall c, In c [sample_block; sample_door] ->
             forall y, sig_bits sample_speed y = true -> sig_bits c y = false)
  /\
  (type_size (type sample_speed) <= length [0; 0; 9])%nat /\
  exists s1,
    Com_ReceiveSignal false sample_cfg 0 (Some [0; 0; 9]) sample_started
    = Some (E_OK, s1, Some [0x34; 0x02; 9]).
Proof.
  assert (H1 : (0 < numOfGroups sample_cfg)%nat) by (cbn; lia).
  assert (H2 : Com_IpduGroupStart false sample_cfg 0 true sample_reset
               = Some sample_started) by reflexivity.
  assert (H3 : init_signals sample_cfg 0
               = [] ++ sample_speed :: [sample_block; sample_door])
    by reflexivity.
  assert (H4 : nth_error (SignalConfigs sample_cfg) 0 = Some sample_speed)
    by reflexivity.
  assert (H5 : (0 < type_size (type sample_speed))%nat) by (cbn; lia).
  assert (H6 : Endianness sample_speed <> OPAQUE) by discriminate.
  assert (H7 : ubit_outside_field sample_speed = true) by reflexivity.
  assert (H8 : 1 <= Z.of_nat (BitSize sample_speed)
               <= 8 * Z.of_nat (type_size (type sample_speed)))
    by (cbn; lia).
  assert (H9 : initPtr sample_speed
               = Some (int_rep false (type_size (type sample_speed)) 0x234))
    by reflexivity.
  assert (H10 : fits_signal sample_speed 0x234)
    by (unfold fits_signal; cbn; lia).
  assert (H11 : forall c, In c [sample_block; sample_door] ->
                          forall y, sig_bits sample_speed y = true ->
                                    sig_bits c y = false).
  { intros c Hc y Hy.
    assert (Hy' : (y <= 12)%nat).
    { revert Hy. unfold sig_bits, sig_field, sample_speed.
      cbn [type Endianness ptr BitPosition BitSize UpdateBit is_UINT8N
           is_OPAQUE orb type_size Nat.eqb].
      unfold in_field_le. change (abit 0 0) with 0%nat.
      change (abit 0 12) with 12%nat. intros H.
      apply orb_prop in H. destruct H as [H | H].
      - apply andb_prop in H. destruct H as [_ H].
        apply Nat.ltb_lt in H. lia.
      - apply Nat.eqb_eq in H. lia. }
    destruct Hc as [<- | [<- | []]].
    - unfold sig_bits, sig_field, sample_block.
      cbn [type Endianness ptr BitPosition BitSize UpdateBit is_UINT8N
           is_OPAQUE orb type_size Nat.eqb].
      change (abit 0 24) with 24%nat. apply Nat.eqb_neq. lia.
    - unfold sig_bits, sig_field, sample_door.
      cbn [type Endianness ptr BitPosition BitSize UpdateBit is_UINT8N
           is_OPAQUE orb type_size Nat.eqb].
      unfold in_field_be. change (be_lin (abit 8 7)) with 64%nat.
      unfold be_lin. rewrite orb_false_r. split8 y.
      apply andb_false_iff. left. apply Nat.leb_gt. lia. }
  assert (H12 : (type_size (type sample_speed) <= length [0; 0; 9])%nat)
    by (cbn; lia).
  repeat (split; [assumption |]).
  exact (group_start_initial_value false sample_cfg 0 0 [] [sample_block;
           sample_door] sample_speed 0x234 [0; 0; 9] sample_reset
           sample_started H1 H2 H3 H4 H5 H6 H7 H8 H9 H10 H11 H12).
Defined.

(** * Handles out of range *)

(** X22.  A signal id, a PDU id or a group id beyond the configuration is
    rejected by every function of the interface before anything is read or
    written: the functions with a status return [E_NOT_OK], and the state,
    the destination and the SDU are as they were, null pointers
    included. *)
Theorem invalid_handles_rejected
        (be : bool)
        (PduR_ComTransmit : list Com_Event -> nat -> list Z -> Std_ReturnType)
        (cfg : Com_ConfigType) (sid pid gid : nat) (s : Com_State) :
  (numOfSignals cfg <= sid)%nat ->
  (numOfIPdus cfg <= pid)%nat ->
  (numOfGroups cfg <= gid)%nat ->
  (forall src, Com_SendSignal be cfg sid src s = Some (E_NOT_OK, s)) /\
  (forall dst, Com_ReceiveSignal be cfg sid dst s = Some (E_NOT_OK, s, dst)) /\
  Com_SendSignalGroup cfg sid s = Some (E_NOT_OK, s) /\
  (exists shadow, Com_ReceiveSignalGroup cfg sid s = Some (E_NOT_OK, shadow)) /\
  Com_TriggerIPDUSend PduR_ComTransmit cfg pid s = (E_NOT_OK, s) /\
  (forall info, Com_RxIndication cfg pid info s = Some s) /\
  (forall info, Com_TriggerTransmit cfg pid info s
                = Some (E_NOT_OK, s, SduDataPtr info)) /\
  (forall result, Com_TxConfirmation cfg pid result s = s) /\
  (forall initialize, Com_IpduGroupStart be cfg gid initialize s = Some s) /\
  Com_IpduGroupStop cfg gid s = Some s.
Proof.
  intros Hs Hp Hg.
  apply nth_error_None in Hs. apply nth_error_None in Hp.
  assert (G : Nat.ltb gid (numOfGroups cfg) = false)
    by (apply Nat.ltb_ge; exact Hg).
  unfold Com_SendSignal, Com_ReceiveSignal, Com_SendSignalGroup,
    Com_ReceiveSignalGroup, Com_TriggerIPDUSend, Com_RxIndication,
    Com_TriggerTransmit, Com_TxConfirmation, Com_IpduGroupStart,
    Com_IpduGroupStop.
  rewrite Hs, Hp, G.
  repeat split; try reflexivity. now exists None.
Qed.

Lemma invalid_handles_rejected_witness :
  (numOfSignals sample_cfg <= 3)%nat /\
  (numOfIPdus sample_cfg <= 2)%nat /\
  (numOfGroups sample_cfg <= 1)%nat /\
  Com_SendSignal false sample_cfg 3 None sample_started
  = Some (E_NOT_OK, sample_started) /\
  Com_TriggerIPDUSend always_ok sample_cfg 2 sample_started
  = (E_NOT_OK, sample_started) /\
  Com_IpduGroupStart false sample_cfg 1 true sample_started
  = Some sample_started.
Proof.
  assert (H1 : (numOfSignals sample_cfg <= 3)%nat) by (cbn; lia).
  assert (H2 : (numOfIPdus sample_cfg <= 2)%nat) by (cbn; lia).
  assert (H3 : (numOfGroups sample_cfg <= 1)%nat) by (cbn; lia).
  repeat (split; [assumption |]).
  destruct (invalid_handles_rejected false always_ok sample_cfg 3 2 1
              sample_started H1 H2 H3)
    as (A & _ & _ & _ & B & _ & _ & _ & C & _).
  split; [exact (A None) | split; [exact B | exact (C true)]].
Defined.

(** * The update bit of a received frame *)

(** X7.  The update bit of a signal of an RX I-PDU is the bit of the frame
    that was received last: when that bit is clear in the frame,
    [Com_ReceiveSignal] returns [E_NOT_OK] and changes neither the state nor
    the destination, whatever the kind of the signal and whatever was
    received before. *)
Theorem frame_update_bit_gates
        (be : bool) (cfg : Com_ConfigType) (sid j : nat)
        (b : Com_SignalConfigType) (pb : Com_IPduConfigType)
        (rx : Com_IPduRxConfigType) (sdu : list Z) (len u : nat)
        (s : Com_State) :
  nth_error (SignalConfigs cfg) sid = Some b ->
  nth_error (IPduConfigs cfg) j = Some pb ->
  rxConfig pb = Some rx ->
  Z.land (GroupStatus s) (GroupRefMask pb) <> 0 ->
  ptr b = IPdu_ptr pb ->
  UpdateBit b = Some u ->
  (u < 8 * IPdu_length pb)%nat ->
  (IPdu_length pb <= length sdu)%nat ->
  (IPdu_length pb <= len)%nat ->
  exists s1,
    Com_RxIndication cfg j {| SduDataPtr := Some sdu; SduLength := len |} s
    = Some s1 /\
    Std_BitGet (pduRam s1) (ptr b) u
    = Z.testbit (nth (u / 8) sdu 0) (Z.of_nat (u mod 8)) /\
    (Z.testbit (nth (u / 8) sdu 0) (Z.of_nat (u mod 8)) = false ->
     forall dst,
       Com_ReceiveSignal be cfg sid dst s1 = Some (E_NOT_OK, s1, dst)).
Proof.
  intros Hsid Hj Hrx Hg Hp Hu Hin Hs Hlen. apply group_active_land in Hg.
  unfold Com_RxIndication. rewrite Hj, Hrx, Hg.
  cbn [SduLength SduDataPtr]. unfold memcpy_to_ram.
  replace (Nat.ltb (length sdu) (IPdu_length pb)) with false
    by (symmetry; apply Nat.ltb_ge; exact Hs).
  replace (Nat.leb (IPdu_length pb) len) with true
    by (symmetry; apply Nat.leb_le; exact Hlen).
  set (mb := write_bytes (pduRam s) (IPdu_ptr pb)
                         (firstn (IPdu_length pb) sdu)).
  assert (Hk : (u / 8 < IPdu_length pb)%nat) by (split8 u; lia).
  assert (Hb : Std_BitGet mb (ptr b) u
               = Z.testbit (nth (u / 8) sdu 0) (Z.of_nat (u mod 8))).
  { unfold Std_BitGet, mb. rewrite Hp.
    rewrite write_bytes_inside by (rewrite length_firstn; lia).
    rewrite nth_firstn.
    now replace (Nat.ltb (u / 8) (IPdu_length pb)) with true
      by (symmetry; apply Nat.ltb_lt; exact Hk). }
  eexists. split; [reflexivity |].
  assert (Hm : pduRam (notify (set_rxTimer (set_pduRam s mb) j (Timeout rx))
                              (RxNotification rx) (EvRxNotification j)) = mb)
    by (now destruct (RxNotification rx)).
  rewrite Hm. split; [exact Hb |].
  intros Hz dst. unfold Com_ReceiveSignal. rewrite Hsid, Hm.
  rewrite (comReceiveSignal_gate_closed be b u dst mb Hu)
    by (now rewrite Hb).
  destruct dst; destruct (RxNotification rx); reflexivity.
Qed.

Lemma frame_update_bit_gates_witness :
  nth_error (SignalConfigs peer_cfg) 0 = Some peer_speed /\
  nth_error (IPduConfigs peer_cfg) 0 = Some peer_rx_pdu /\
  rxConfig peer_rx_pdu = Some sample_rx /\
  Z.land (GroupStatus peer_started) (GroupRefMask peer_rx_pdu) <> 0 /\
  ptr peer_speed = IPdu_ptr peer_rx_pdu /\
  UpdateBit peer_speed = Some 12%nat /\
  (12 < 8 * IPdu_length peer_rx_pdu)%nat /\
  (IPdu_length peer_rx_pdu <= length [0x34; 0x02; 0; 0])%nat /\
  (IPdu_length peer_rx_pdu <= 4)%nat /\
  exists s1,
    Com_RxIndication peer_cfg 0
      {| SduDataPtr := Some [0x34; 0x02; 0; 0]; SduLength := 4 |} peer_started
    = Some s1 /\
    Com_ReceiveSignal false peer_cfg 0 (Some [7; 7]) s1
    = Some (E_NOT_OK, s1, Some [7; 7]).
Proof.
  assert (H1 : nth_error (SignalConfigs peer_cfg) 0 = Some peer_speed)
    by reflexivity.
  assert (H2 : nth_error (IPduConfigs peer_cfg) 0 = Some peer_rx_pdu)
    by reflexivity.
  assert (H3 : rxConfig peer_rx_pdu = Some sample_rx) by reflexivity.
  assert (H4 : Z.land (GroupStatus peer_started) (GroupRefMask peer_rx_pdu)
               <> 0) by (vm_compute; discriminate).
  assert (H5 : ptr peer_speed = IPdu_ptr peer_rx_pdu) by reflexivity.
  assert (H6 : UpdateBit peer_speed = Some 12%nat) by reflexivity.
  assert (H7 : (12 < 8 * IPdu_length peer_rx_pdu)%nat) by (cbn; lia).
  assert (H8 : (IPdu_length peer_rx_pdu <= length [0x34; 0x02; 0; 0])%nat)
    by (cbn; lia).
  assert (H9 : (IPdu_length peer_rx_pdu <= 4)%nat) by (cbn; lia).
  repeat (split; [assumption |]).
  destruct (frame_update_bit_gates false peer_cfg 0 0 peer_speed peer_rx_pdu
              sample_rx [0x34; 0x02; 0; 0] 4 12 peer_started
              H1 H2 H3 H4 H5 H6 H7 H8 H9) as (s1 & A & _ & B).
  exists s1. split; [exact A |].
  apply B. reflexivity.
Defined.

(** * The update bit between a send and the receptions *)





